(** * The extraction-sanitization pipeline of bridebuddyv2

    A shallow embedding of
    [buddy-core/structured-data/wedding_extractors.js] (the second document
    of [src/buddy-core/frontend/session.js]) and of the domain tables of
    [buddies/bride/domain.js], followed by the properties the specification
    states about them.

    Modelling conventions.
    - A JavaScript string is a [string]; its characters are read as UTF-16
      code units in the range 0..255, and [trim], [toLowerCase] and the
      regular-expression classes [\s], [\d], [\w] are the ECMAScript ones
      restricted to that range.
    - A JavaScript number is an exact rational ([Q]); the results of
      [Math.round] and [parseInt] are integers ([Z]).  The addition of
      amounts rounds its result to the 53 bits of a double, as [+] does;
      the rounding of a number literal to a double and the overflow to
      [Infinity] (from 2^1024) are not modelled.
    - A thrown exception is the [Throw] outcome of the [result] type.
    - A warning is a constructor of [warning], one per template literal of
      the source, carrying the interpolated values. *)

From Stdlib Require Import ZArith QArith Qround Ascii String List Bool Lia.
From stdpp Require Import base option list gmap strings.

Local Open Scope string_scope.
Local Open Scope list_scope.
#[local] Set Warnings "-register-all".

(** ** Outcomes: a value or a thrown exception *)

Inductive exn : Type :=
| TypeError
| SyntaxError.

Inductive result (A : Type) : Type :=
| Ok (a : A)
| Throw (e : exn).

Arguments Ok {A} a.
Arguments Throw {A} e.

#[global] Instance result_bind : MBind result :=
  fun A B (k : A -> result B) (r : result A) =>
    match r with
    | Ok a => k a
    | Throw e => Throw e
    end.

#[global] Instance result_ret : MRet result := fun A (a : A) => Ok a.

Definition returns {A : Type} (r : result A) : Prop :=
  exists a, r = Ok a.

(** ** Strings *)

Module Str.

Definition code (c : ascii) : nat := nat_of_ascii c.

Definition between (lo hi : nat) (c : ascii) : bool :=
  (lo <=? code c)%nat && (code c <=? hi)%nat.

(** [\s]: WhiteSpace and LineTerminator code units below 256. *)
Definition is_space (c : ascii) : bool :=
  between 9 13 c || (code c =? 32)%nat || (code c =? 160)%nat.

(** [\d] *)
Definition is_digit (c : ascii) : bool := between 48 57 c.

(** [\w] *)
Definition is_word (c : ascii) : bool :=
  between 97 122 c || between 65 90 c || is_digit c || (code c =? 95)%nat.

Definition is_upper (c : ascii) : bool :=
  between 65 90 c || between 192 214 c || between 216 222 c.

Definition lower_char (c : ascii) : ascii :=
  if is_upper c then ascii_of_nat (code c + 32) else c.

Fixpoint toLowerCase (s : string) : string :=
  match s with
  | EmptyString => EmptyString
  | String c s' => String (lower_char c) (toLowerCase s')
  end.

Definition is_empty (s : string) : bool :=
  match s with
  | EmptyString => true
  | String _ _ => false
  end.

Fixpoint trimStart (s : string) : string :=
  match s with
  | EmptyString => EmptyString
  | String c s' => if is_space c then trimStart s' else s
  end.

Fixpoint trimEnd (s : string) : string :=
  match s with
  | EmptyString => EmptyString
  | String c s' =>
      let t := trimEnd s' in
      if is_space c && is_empty t then EmptyString else String c t
  end.

Definition trim (s : string) : string := trimEnd (trimStart s).

Fixpoint repeat_char (c : ascii) (n : nat) : string :=
  match n with
  | O => EmptyString
  | S n' => String c (repeat_char c n')
  end.

(** [s.padStart(n, '0')] *)
Definition padStart0 (n : nat) (s : string) : string :=
  repeat_char "0"%char (n - String.length s) +:+ s.

(** [s.replace(/[^...]/g, '')]: keep the characters of the class. *)
Fixpoint keep (p : ascii -> bool) (s : string) : string :=
  match s with
  | EmptyString => EmptyString
  | String c s' => if p c then String c (keep p s') else keep p s'
  end.

Definition digit_val (c : ascii) : nat := code c - 48.

(** The value of a string of decimal digits, most significant first. *)
Fixpoint digits_val_acc (acc : nat) (s : string) : nat :=
  match s with
  | EmptyString => acc
  | String c s' => digits_val_acc (10 * acc + digit_val c) s'
  end.

Definition digits_val (s : string) : nat := digits_val_acc 0 s.

Definition digit_char (n : nat) : ascii := ascii_of_nat (48 + n).

Fixpoint nat_to_string_fuel (fuel n : nat) (acc : string) : string :=
  match fuel with
  | O => acc
  | S fuel' =>
      let acc' := String (digit_char (n mod 10)) acc in
      if (n <? 10)%nat then acc' else nat_to_string_fuel fuel' (n / 10) acc'
  end.

(** [n.toString()] for a non-negative integer. *)
Definition nat_to_string (n : nat) : string :=
  nat_to_string_fuel (S n) n EmptyString.

Fixpoint all (p : ascii -> bool) (s : string) : bool :=
  match s with
  | EmptyString => true
  | String c s' => p c && all p s'
  end.

Definition includes (xs : list string) (s : string) : bool :=
  bool_decide (s ∈ xs).

End Str.

(** ** Insertion-ordered maps *)

(** A [Map] keyed by strings, in insertion order; the properties of an
    object are such a map. *)
Fixpoint Map_get {V : Type} (k : string) (m : list (string * V)) : option V :=
  match m with
  | [] => None
  | (k', v) :: m' => if String.eqb k k' then Some v else Map_get k m'
  end.

Definition Map_has {V : Type} (k : string) (m : list (string * V)) : bool :=
  match Map_get k m with
  | Some _ => true
  | None => false
  end.

Fixpoint Map_set {V : Type} (k : string) (v : V) (m : list (string * V))
  : list (string * V) :=
  match m with
  | [] => [(k, v)]
  | (k', v') :: m' =>
      if String.eqb k k' then (k, v) :: m' else (k', v') :: Map_set k v m'
  end.

Definition Map_values {V : Type} (m : list (string * V)) : list V := m.*2.

(** ** JavaScript values *)

Inductive value : Type :=
| VUndefined
| VNull
| VBool (b : bool)
| VNum (q : Q)
| VStr (s : string)
| VArr (items : list value)
| VObj (props : list (string * value)).

(** [!!v] *)
Definition truthy (v : value) : bool :=
  match v with
  | VUndefined | VNull => false
  | VBool b => b
  | VNum q => negb (Qeq_bool q 0)
  | VStr s => negb (Str.is_empty s)
  | VArr _ | VObj _ => true
  end.

(** [v && typeof v === 'object'] *)
Definition is_object (v : value) : bool :=
  match v with
  | VArr _ | VObj _ => true
  | _ => false
  end.

(** [o.k] for a receiver that passed the object guard, and for a primitive
    receiver other than [null] and [undefined].  None of the names the
    pipeline reads is a property of a prototype or an array index. *)
Definition prop (o : value) (k : string) : value :=
  match o with
  | VObj props => default VUndefined (Map_get k props)
  | _ => VUndefined
  end.

(** [o.k] for any receiver: reading a property of [null] or [undefined]
    throws. *)
Definition get (o : value) (k : string) : result value :=
  match o with
  | VUndefined | VNull => Throw TypeError
  | _ => Ok (prop o k)
  end.

(** [v.trim()]: only a string has the method; a JSON value is never a
    function, so for every other receiver the call throws. *)
Definition call_trim (v : value) : result string :=
  match v with
  | VStr s => Ok (Str.trim s)
  | _ => Throw TypeError
  end.

(** Whether the string conversion of a template literal throws: an object
    with an own [toString] property (never callable in a JSON value) has no
    primitive value, and an array converts each of its elements. *)
Fixpoint ToString_throws (v : value) : bool :=
  match v with
  | VArr items => existsb ToString_throws items
  | VObj props => bool_decide ("toString" ∈ props.*1)
  | _ => false
  end.

(** [Object.entries(o)] for a receiver that passed the object guard.
    Integer-like keys are enumerated first by the engine; no such key is
    recognized by the caller, so its position is immaterial. *)
Definition Object_entries (o : value) : list (string * value) :=
  match o with
  | VObj props => props
  | VArr items => imap (fun i v => (Str.nat_to_string i, v)) items
  | _ => []
  end.

(** ** Domain tables ([buddies/bride/domain.js]) *)

Definition Map_of (entries : list (string * string)) : gmap string string :=
  foldl (fun m e => <[e.1 := e.2]> m) ∅ entries.

Definition Set_of (xs : list string) : gset string := list_to_set xs.

Definition vendorTypes_list : list string :=
  [ "photographer"; "caterer"; "florist"; "dj"; "videographer"; "baker";
    "planner"; "venue"; "decorator"; "hair_makeup"; "transportation";
    "rentals"; "other" ].

Definition VENDOR_TYPES : gset string := Set_of vendorTypes_list.

Definition vendorTypeAliases_list : list (string * string) :=
  [ ("photography", "photographer"); ("photo", "photographer");
    ("photos", "photographer"); ("dj/band", "dj"); ("band", "dj");
    ("music", "dj"); ("bakery", "baker"); ("cake", "baker");
    ("cakes", "baker"); ("makeup", "hair_makeup");
    ("hair & makeup", "hair_makeup"); ("hair and makeup", "hair_makeup");
    ("transport", "transportation"); ("planner/coordinator", "planner");
    ("coordinator", "planner"); ("decor", "decorator");
    ("lighting", "decorator") ].

Definition VENDOR_TYPE_ALIASES : gmap string string :=
  Map_of vendorTypeAliases_list.

Definition VENDOR_STATUSES : gset string :=
  Set_of [ "inquiry"; "pending"; "booked"; "contract_signed"; "deposit_paid";
           "fully_paid"; "rejected"; "cancelled" ].

Definition budgetCategories_list : list (string * string) :=
  [ ("venue", "venue"); ("ceremony", "venue"); ("reception", "venue");
    ("catering", "catering"); ("food", "catering"); ("flowers", "flowers");
    ("floral", "flowers"); ("photography", "photography");
    ("photo", "photography"); ("videography", "videography");
    ("music", "music"); ("dj", "music"); ("band", "music"); ("cake", "cake");
    ("dessert", "cake"); ("decor", "decorations");
    ("decorations", "decorations"); ("attire", "attire"); ("dress", "attire");
    ("suit", "attire"); ("invitations", "invitations");
    ("stationery", "invitations"); ("favors", "favors");
    ("transport", "transportation"); ("transportation", "transportation");
    ("honeymoon", "honeymoon"); ("other", "other") ].

Definition BUDGET_CATEGORIES : gmap string string :=
  Map_of budgetCategories_list.

Definition taskCategories_list : list (string * string) :=
  [ ("venue", "venue"); ("catering", "catering"); ("flowers", "flowers");
    ("floral", "flowers"); ("photography", "photography");
    ("photo", "photography"); ("attire", "attire"); ("dress", "attire");
    ("invitations", "invitations"); ("decor", "decorations");
    ("decorations", "decorations"); ("transport", "transportation");
    ("transportation", "transportation"); ("legal", "legal");
    ("honeymoon", "honeymoon"); ("day_of", "day_of"); ("day-of", "day_of");
    ("other", "other") ].

Definition TASK_CATEGORIES : gmap string string := Map_of taskCategories_list.

Definition TASK_STATUSES : gset string :=
  Set_of [ "not_started"; "in_progress"; "completed"; "cancelled" ].

Definition TASK_PRIORITIES : gset string :=
  Set_of [ "low"; "medium"; "high"; "urgent" ].

Definition MAX_EXTRACTED_JSON_CHARS : Z := 12000.

(** [m.get(k) || null]: an empty string is falsy. *)
Definition Map_get_or_null (m : gmap string string) (k : string) : option string :=
  match m !! k with
  | Some v => if Str.is_empty v then None else Some v
  | None => None
  end.

(** ** Identity keys *)

(** [`${type}:${name.toLowerCase()}`] *)
Definition vendorKey (type name : string) : string :=
  type +:+ ":" +:+ Str.toLowerCase name.

(** [a || dflt] for a nullable string. *)
Definition str_or (a : option string) (dflt : string) : string :=
  match a with
  | Some s => if Str.is_empty s then dflt else s
  | None => dflt
  end.

(** [`${name.toLowerCase()}::${dueDate || 'none'}`] *)
Definition taskDeterministicId (name : string) (dueDate : option string) : string :=
  Str.toLowerCase name +:+ "::" +:+ str_or dueDate "none".

(** ** Primitive normalizers *)

Definition toTrimmedString (value : value) : option string :=
  match value with
  | VStr s =>
      let trimmed := Str.trim s in
      if Str.is_empty trimmed then None else Some trimmed
  | _ => None
  end.

(** [DATE_REGEX = /^\d{4}-\d{2}-\d{2}$/] *)
Definition DATE_REGEX_test (s : string) : bool :=
  match list_ascii_of_string s with
  | [y1; y2; y3; y4; h1; m1; m2; h2; d1; d2] =>
      forallb Str.is_digit [y1; y2; y3; y4; m1; m2; d1; d2]
      && Ascii.eqb h1 "-" && Ascii.eqb h2 "-"
  | _ => false
  end.

(** [s.split('-')] *)
Fixpoint split_dash (s : string) : list string :=
  match s with
  | EmptyString => [EmptyString]
  | String c s' =>
      if Ascii.eqb c "-" then EmptyString :: split_dash s'
      else match split_dash s' with
           | piece :: pieces => String c piece :: pieces
           | [] => [String c EmptyString]
           end
  end.

Definition is_leap (y : nat) : bool :=
  (y mod 4 =? 0)%nat && (negb (y mod 100 =? 0)%nat || (y mod 400 =? 0)%nat).

Definition days_in_month (y m : nat) : nat :=
  match m with
  | 1 | 3 | 5 | 7 | 8 | 10 | 12 => 31
  | 4 | 6 | 9 | 11 => 30
  | 2 => if is_leap y then 29 else 28
  | _ => 0
  end.

(** A valid [Date], given by the UTC calendar fields of its time value. *)
Record Date : Type := mkDate {
  getUTCFullYear : nat;
  getUTCMonth : nat;
  getUTCDate : nat
}.

(** [new Date(s)] for a string [s] of the date-only form [YYYY-MM-DD], read
    as UTC.  [None] is the invalid date (time value [NaN]).  The engine
    takes a month outside 1..12 or a day outside 1..31 as invalid and lets a
    day beyond the end of its month run over into the next month. *)
Definition Date_new (s : string) : option Date :=
  match split_dash s with
  | [year; month; day] =>
      let y := Str.digits_val year in
      let m := Str.digits_val month in
      let d := Str.digits_val day in
      if (1 <=? m)%nat && (m <=? 12)%nat && (1 <=? d)%nat && (d <=? 31)%nat then
        let dim := days_in_month y m in
        if (d <=? dim)%nat then Some (mkDate y (m - 1) d)
        else if (m =? 12)%nat then Some (mkDate (y + 1) 0 (d - dim))
        else Some (mkDate y m (d - dim))
      else None
  | _ => None
  end.

Definition normalizeDate (value : value) : option string :=
  if negb (truthy value) then None else
  match value with
  | VStr s =>
      let trimmed := Str.trim s in
      if Str.is_empty trimmed then None else
      if negb (DATE_REGEX_test trimmed) then None else
      match Date_new trimmed with
      | None => None
      | Some date =>
          match split_dash trimmed with
          | [year; month; day] =>
              if negb (getUTCFullYear date =? Str.digits_val year)%nat
                 || negb (getUTCMonth date + 1 =? Str.digits_val month)%nat
                 || negb (getUTCDate date =? Str.digits_val day)%nat
              then None
              else Some (Str.padStart0 4 year +:+ "-" +:+ Str.padStart0 2 month
                         +:+ "-" +:+ Str.padStart0 2 day)
          | _ => None
          end
      end
  | _ => None
  end.

(** [Math.round(q)]: the integer nearest to [q], halves rounded up. *)
Definition Math_round (q : Q) : Z := Qfloor (q + (1 # 2)).

(** The double nearest to the integer [z], ties to the even significand:
    up to 2^53 every integer is a double; beyond, with [e] the number of
    bits in excess of 53, the doubles are the multiples of [2^e]. *)
Definition round_double (z : Z) : Z :=
  let m := Z.abs z in
  if (m <=? 2 ^ 53)%Z then z else
  let e := (Z.log2 m - 52)%Z in
  let q := (m / 2 ^ e)%Z in
  let r := (m mod 2 ^ e)%Z in
  let half := (2 ^ (e - 1))%Z in
  let q' :=
    if (r <? half)%Z then q
    else if (half <? r)%Z then (q + 1)%Z
    else if Z.even q then q else (q + 1)%Z in
  (Z.sgn z * (q' * 2 ^ e))%Z.

(** [a + b] for two numbers that are integers. *)
Definition Number_add (a b : Z) : Z := round_double (a + b).

(** [Number.isInteger(q)] *)
Definition Number_isInteger (q : Q) : bool :=
  (Qnum q mod Zpos (Qden q) =? 0)%Z.

Fixpoint span_digits (s : string) : string * string :=
  match s with
  | EmptyString => (EmptyString, EmptyString)
  | String c s' =>
      if Str.is_digit c then
        let (ds, rest) := span_digits s' in (String c ds, rest)
      else (EmptyString, s)
  end.

(** [Number.parseFloat(s)] for a string of digits, [.] and [-]: the longest
    prefix that is a decimal literal; [None] is [NaN]. *)
Definition parseFloat (s : string) : option Q :=
  let (neg, body) :=
    match s with
    | String "-" s' => (true, s')
    | _ => (false, s)
    end in
  let (ip, rest) := span_digits body in
  let fp :=
    match rest with
    | String "." rest' => fst (span_digits rest')
    | _ => EmptyString
    end in
  if Str.is_empty ip && Str.is_empty fp then None else
  let magnitude :=
    (inject_Z (Z.of_nat (Str.digits_val ip))
     + (Z.of_nat (Str.digits_val fp) # Pos.pow 10 (Pos.of_nat (String.length fp))))%Q in
  Some (if neg then (- magnitude)%Q else magnitude).

Definition currency_char (c : ascii) : bool :=
  Str.is_digit c || Ascii.eqb c "." || Ascii.eqb c "-".

Definition normalizeCurrency (value : value) : option Z :=
  match value with
  | VNull | VUndefined => None
  | VNum q => if Qle_bool 0 q then Some (Math_round q) else None
  | VStr s =>
      if Str.is_empty s then None else
      let cleaned := Str.keep currency_char s in
      if Str.is_empty cleaned then None else
      match parseFloat cleaned with
      | None => None
      | Some parsed =>
          if negb (Qle_bool 0 parsed) then None else Some (Math_round parsed)
      end
  | _ => None
  end.

Definition normalizeInteger (value : value) : option Z :=
  match value with
  | VNull | VUndefined => None
  | VNum q => if Number_isInteger q && Qle_bool 0 q then Some (Qfloor q) else None
  | VStr s =>
      if Str.is_empty s then None else
      let cleaned := Str.keep Str.is_digit s in
      if Str.is_empty cleaned then None else
      Some (Z.of_nat (Str.digits_val cleaned))
  | _ => None
  end.

Definition normalizeBoolean (value : value) : option bool :=
  match value with
  | VBool b => Some b
  | VStr s =>
      let lowered := Str.toLowerCase (Str.trim s) in
      if Str.is_empty lowered then None else
      if Str.includes ["true"; "yes"; "y"; "paid"; "completed"] lowered then Some true else
      if Str.includes ["false"; "no"; "n"; "unpaid"; "not paid"] lowered then Some false else
      None
  | _ => None
  end.

(** ** Canonicalization *)

Definition canonicalizeVendorType (value : value) : result (option string) :=
  if negb (truthy value) then Ok None else
  trimmed ← call_trim value;
  let normalized := Str.toLowerCase trimmed in
  if Str.is_empty normalized then Ok None else
  if bool_decide (normalized ∈ VENDOR_TYPES) then Ok (Some normalized) else
  Ok (Map_get_or_null VENDOR_TYPE_ALIASES normalized).

Definition canonicalizeBudgetCategory (value : value) : result (option string) :=
  if negb (truthy value) then Ok None else
  trimmed ← call_trim value;
  let normalized := Str.toLowerCase trimmed in
  if Str.is_empty normalized then Ok None else
  Ok (Map_get_or_null BUDGET_CATEGORIES normalized).

Definition canonicalizeTaskCategory (value : value) : result (option string) :=
  if negb (truthy value) then Ok None else
  trimmed ← call_trim value;
  let normalized := Str.toLowerCase trimmed in
  if Str.is_empty normalized then Ok None else
  Ok (Map_get_or_null TASK_CATEGORIES normalized).

(** ** Regular expressions of the module *)

Fixpoint span (p : ascii -> bool) (s : string) : string * string :=
  match s with
  | EmptyString => (EmptyString, EmptyString)
  | String c s' =>
      if p c then let (taken, rest) := span p s' in (String c taken, rest)
      else (EmptyString, s)
  end.

Definition email_char (c : ascii) : bool :=
  negb (Str.is_space c) && negb (Ascii.eqb c "@").

(** A [.] with a character after it. *)
Fixpoint dot_then_more (s : string) : bool :=
  match s with
  | EmptyString => false
  | String c s' => (Ascii.eqb c "." && negb (Str.is_empty s')) || dot_then_more s'
  end.

(** [EMAIL_REGEX = /^[^\s@]+@[^\s@]+\.[^\s@]+$/] *)
Definition EMAIL_REGEX_test (s : string) : bool :=
  let (local, rest) := span email_char s in
  negb (Str.is_empty local) &&
  match rest with
  | String "@" (String c domain) =>
      email_char c && Str.all email_char domain && dot_then_more domain
  | _ => false
  end.

Definition phone_char (c : ascii) : bool :=
  Str.is_digit c || Ascii.eqb c "(" || Ascii.eqb c ")" || Ascii.eqb c "["
  || Ascii.eqb c "]" || Str.is_space c || Ascii.eqb c "-".

(** [PHONE_REGEX = /^\+?[0-9()[\]\s-]{7,}$/] *)
Definition PHONE_REGEX_test (s : string) : bool :=
  let body :=
    match s with
    | String "+" s' => s'
    | _ => s
    end in
  Str.all phone_char body && (7 <=? String.length body)%nat.

Definition validateEmail (value : value) : option string :=
  match toTrimmedString value with
  | None => None
  | Some str => if EMAIL_REGEX_test str then Some str else None
  end.

Definition validatePhone (value : value) : option string :=
  match toTrimmedString value with
  | None => None
  | Some str => if PHONE_REGEX_test str then Some str else None
  end.

Definition str1 (a : ascii) : string := String a EmptyString.
Definition str2 (a b : ascii) : string := String a (String b EmptyString).

(** The first alternative, in the order the matcher tries them, that the
    continuation accepts. *)
Fixpoint first_match {A B : Type} (k : A -> option B) (alts : list A) : option B :=
  match alts with
  | [] => None
  | a :: alts' =>
      match k a with
      | Some b => Some b
      | None => first_match k alts'
      end
  end.

(** An unanchored pattern: the leftmost position at which it matches. *)
Fixpoint search {B : Type} (at_head : string -> option B) (s : string) : option B :=
  match at_head s with
  | Some b => Some b
  | None =>
      match s with
      | EmptyString => None
      | String _ s' => search at_head s'
      end
  end.

(** [\b] between the character before the position and the rest. *)
Definition word_boundary (prev : option ascii) (rest : string) : bool :=
  xorb (from_option Str.is_word false prev)
       (match rest with
        | String c _ => Str.is_word c
        | EmptyString => false
        end).

Fixpoint last_char (s : string) : option ascii :=
  match s with
  | EmptyString => None
  | String c EmptyString => Some c
  | String _ s' => last_char s'
  end.

(** An unanchored pattern that starts with [\b]. *)
Fixpoint search_b {B : Type} (at_head : string -> option B)
    (prev : option ascii) (s : string) : option B :=
  match (if word_boundary prev s then at_head s else None) with
  | Some b => Some b
  | None =>
      match s with
      | EmptyString => None
      | String c s' => search_b at_head (Some c) s'
      end
  end.

Definition is01 (c : ascii) : bool := Ascii.eqb c "0" || Ascii.eqb c "1".

(** The matches of [([01]?\d|2[0-3])] at the head of [s], each with the
    rest of the string: the optional [[01]] taken, then skipped, then the
    second branch. *)
Definition hour24_alternatives (s : string) : list (string * string) :=
  match s with
  | EmptyString => []
  | String a EmptyString => if Str.is_digit a then [(str1 a, EmptyString)] else []
  | String a (String b r) =>
      (if is01 a && Str.is_digit b then [(str2 a b, r)] else [])
      ++ (if Str.is_digit a then [(str1 a, String b r)] else [])
      ++ (if Ascii.eqb a "2" && Str.between 48 51 b then [(str2 a b, r)] else [])
  end.

(** [:([0-5]\d)] at the head of [s]. *)
Definition colon_minutes (s : string) : option (string * string) :=
  match s with
  | String ":" (String a (String b r)) =>
      if Str.between 48 53 a && Str.is_digit b then Some (str2 a b, r) else None
  | _ => None
  end.

(** [/^([01]?\d|2[0-3]):([0-5]\d)(?::([0-5]\d))?$/]: groups 1 and 2. *)
Definition directMatch (lower : string) : option (string * string) :=
  first_match
    (fun '(hours, rest) =>
       match colon_minutes rest with
       | None => None
       | Some (minutes, rest') =>
           match rest' with
           | EmptyString => Some (hours, minutes)
           | _ =>
               match colon_minutes rest' with
               | Some (_, EmptyString) => Some (hours, minutes)
               | _ => None
               end
           end
       end)
    (hour24_alternatives lower).

(** The matches of [(\d{1,2})]: two digits, then one. *)
Definition digits12_alternatives (s : string) : list (string * string) :=
  match s with
  | EmptyString => []
  | String a EmptyString => if Str.is_digit a then [(str1 a, EmptyString)] else []
  | String a (String b r) =>
      (if Str.is_digit a && Str.is_digit b then [(str2 a b, r)] else [])
      ++ (if Str.is_digit a then [(str1 a, String b r)] else [])
  end.

(** [\s*(am|pm)] at the head of [s]; giving back white space cannot make
    the modifier match. *)
Definition spaces_modifier (s : string) : option string :=
  match Str.trimStart s with
  | String "a" (String "m" _) => Some "am"
  | String "p" (String "m" _) => Some "pm"
  | _ => None
  end.

(** [/(\d{1,2})(?::(\d{2}))?\s*(am|pm)/] at the head of [s]: groups 1, 2
    and 3. *)
Definition ampm_at (s : string) : option (string * option string * string) :=
  first_match
    (fun '(hours, rest) =>
       let with_minutes :=
         match rest with
         | String ":" (String a (String b r)) =>
             if Str.is_digit a && Str.is_digit b then
               match spaces_modifier r with
               | Some modifier => Some (hours, Some (str2 a b), modifier)
               | None => None
               end
             else None
         | _ => None
         end in
       match with_minutes with
       | Some m => Some m
       | None =>
           match spaces_modifier rest with
           | Some modifier => Some (hours, None, modifier)
           | None => None
           end
       end)
    (digits12_alternatives s).

(** [/\b([01]?\d|2[0-3])(:([0-5]\d))\b/] after its leading [\b]: groups 1
    and 3. *)
Definition embedded24_at (s : string) : option (string * string) :=
  first_match
    (fun '(hours, rest) =>
       match colon_minutes rest with
       | None => None
       | Some (minutes, rest') =>
           if word_boundary (last_char minutes) rest' then Some (hours, minutes)
           else None
       end)
    (hour24_alternatives s).

(** The matches of [([1-9]|1[0-2])]. *)
Definition hour12_alternatives (s : string) : list (string * string) :=
  match s with
  | EmptyString => []
  | String a r =>
      (if Str.between 49 57 a then [(str1 a, r)] else [])
      ++ match r with
         | String b r' =>
             if Ascii.eqb a "1" && Str.between 48 50 b then [(str2 a b, r')] else []
         | EmptyString => []
         end
  end.

(** [/\b([1-9]|1[0-2])\b/] after its leading [\b]: group 1. *)
Definition embeddedHour_at (s : string) : option string :=
  first_match
    (fun '(hours, rest) =>
       if word_boundary (last_char hours) rest then Some hours else None)
    (hour12_alternatives s).

(** ** Time of day *)

Definition formatWeddingTimeForSupabase (rawTime : value) : option string :=
  if negb (truthy rawTime) then None else
  match rawTime with
  | VStr s =>
      let trimmed := Str.trim s in
      if Str.is_empty trimmed then None else
      let lower := Str.toLowerCase trimmed in
      if String.eqb lower "noon" then Some "12:00" else
      if String.eqb lower "midnight" then Some "00:00" else
      match directMatch lower with
      | Some (h, minutes) => Some (Str.padStart0 2 h +:+ ":" +:+ minutes)
      | None =>
      match search ampm_at lower with
      | Some (h, m, modifier) =>
          let hours := Str.digits_val h in
          let minutes :=
            match m with
            | Some m => Str.digits_val m
            | None => 0
            end in
          let hours :=
            if (hours =? 12)%nat then (if String.eqb modifier "am" then 0 else 12)
            else if String.eqb modifier "pm" then hours + 12
            else hours in
          Some (Str.padStart0 2 (Str.nat_to_string hours) +:+ ":"
                +:+ Str.padStart0 2 (Str.nat_to_string minutes))
      | None =>
      match search_b embedded24_at None lower with
      | Some (h, minutes) => Some (Str.padStart0 2 h +:+ ":" +:+ minutes)
      | None =>
      match search_b embeddedHour_at None lower with
      | Some h =>
          let hourVal := Str.digits_val h in
          if (0 <=? hourVal)%nat && (hourVal <=? 23)%nat
          then Some (Str.padStart0 2 (Str.nat_to_string hourVal) +:+ ":00")
          else None
      | None => None
      end end end end
  | _ => None
  end.

(** ** Warnings *)

(** One constructor per warning template of the module; the arguments are
    the interpolated values, in the order of the template. *)
Inductive warning : Type :=
| W_wedding_date (received : value)
| W_wedding_time (received : value)
| W_expected_guest_count (received : value)
| W_total_budget (received : value)
| W_venue_cost (received : value)
| W_vendor_not_object (index : nat)
| W_vendor_missing_name (index : nat)
| W_vendor_unsupported_type (vendorName : string) (received : value)
| W_vendor_duplicate (vendorName vendorType : string)
| W_vendor_deposit_adjusted (vendorName : string)
| W_vendor_status_dropped (received : value) (vendorName : string)
| W_budget_not_object (index : nat)
| W_budget_unsupported_category (index : nat) (received : value)
| W_budget_no_monetary (category : string)
| W_budget_merged (category : string)
| W_task_not_object (index : nat)
| W_task_missing_name (index : nat)
| W_task_invalid_due_date (name : string)
| W_task_category_dropped (received : value) (name : string)
| W_task_status_dropped (received : value) (name : string)
| W_task_priority_dropped (received : value) (name : string)
| W_task_duplicate (name due : string)
| W_size_limit
| W_parse_failed.

(** [warnings.push(`... ${received} ...`)] for an arbitrary JSON value:
    the conversion of [received] to a string can throw. *)
Definition push_template (warnings : list warning) (w : warning) (received : value)
  : result (list warning) :=
  if ToString_throws received then Throw TypeError else Ok (warnings ++ [w]).

(** [arr.forEach((item, index) => ...)] over a state. *)
Fixpoint forEach {St : Type} (body : St -> nat -> value -> result St)
    (index : nat) (items : list value) (st : St) : result St :=
  match items with
  | [] => Ok st
  | item :: items' =>
      st' ← body st index item;
      forEach body (S index) items' st'
  end.

(** [for (const entry of entries) ...] over a state. *)
Fixpoint forOf {A St : Type} (body : St -> A -> result St)
    (entries : list A) (st : St) : result St :=
  match entries with
  | [] => Ok st
  | entry :: entries' =>
      st' ← body st entry;
      forOf body entries' st'
  end.

(** ** Profile fragment *)

Inductive field : Type :=
| FStr (s : string)
| FNum (n : Z).

Definition text_keys : list string :=
  [ "partner1_name"; "partner2_name"; "ceremony_location";
    "reception_location"; "venue_name"; "color_scheme_primary";
    "color_scheme_secondary"; "wedding_style"; "wedding_name" ].

(** [value === null || value === undefined || value === ''] *)
Definition is_blank (v : value) : bool :=
  match v with
  | VNull | VUndefined => true
  | VStr s => Str.is_empty s
  | _ => false
  end.

Definition weddingInfo_entry (st : gmap string field * list warning)
    (entry : string * value) : result (gmap string field * list warning) :=
  let '(sanitized, warnings) := st in
  let '(key, value) := entry in
  if is_blank value then Ok st else
  if String.eqb key "wedding_date" then
    match normalizeDate value with
    | Some normalized => Ok (<[key := FStr normalized]> sanitized, warnings)
    | None =>
        warnings' ← push_template warnings (W_wedding_date value) value;
        Ok (sanitized, warnings')
    end
  else if String.eqb key "wedding_time" then
    match formatWeddingTimeForSupabase value with
    | Some formatted => Ok (<[key := FStr formatted]> sanitized, warnings)
    | None =>
        warnings' ← push_template warnings (W_wedding_time value) value;
        Ok (sanitized, warnings')
    end
  else if String.eqb key "expected_guest_count" then
    match normalizeInteger value with
    | Some count => Ok (<[key := FNum count]> sanitized, warnings)
    | None =>
        warnings' ← push_template warnings (W_expected_guest_count value) value;
        Ok (sanitized, warnings')
    end
  else if String.eqb key "total_budget" then
    match normalizeCurrency value with
    | Some budget => Ok (<[key := FNum budget]> sanitized, warnings)
    | None =>
        warnings' ← push_template warnings (W_total_budget value) value;
        Ok (sanitized, warnings')
    end
  else if String.eqb key "venue_cost" then
    match normalizeCurrency value with
    | Some cost => Ok (<[key := FNum cost]> sanitized, warnings)
    | None =>
        warnings' ← push_template warnings (W_venue_cost value) value;
        Ok (sanitized, warnings')
    end
  else if Str.includes text_keys key then
    match toTrimmedString value with
    | Some str => Ok (<[key := FStr str]> sanitized, warnings)
    | None => Ok st
    end
  else Ok st.

Definition sanitizeWeddingInfo (weddingInfo : value)
  : result (gmap string field * list warning) :=
  if negb (is_object weddingInfo) then Ok (∅, []) else
  forOf weddingInfo_entry (Object_entries weddingInfo) (∅, []).

(** ** Vendors *)

Module Vendor.
Record t : Type := mk {
  vendor_type : string;
  vendor_name : string;
  vendor_contact_name : option string;
  vendor_email : option string;
  vendor_phone : option string;
  total_cost : option Z;
  deposit_amount : option Z;
  deposit_paid : option bool;
  deposit_date : option string;
  balance_due : option Z;
  final_payment_date : option string;
  final_payment_paid : option bool;
  status : option string;
  contract_signed : option bool;
  contract_date : option string;
  service_date : option string;
  notes : option string
}.
End Vendor.

(** [raw ? raw.trim().toLowerCase() : null] *)
Definition lowered_or_null (raw : value) : result (option string) :=
  if truthy raw then
    trimmed ← call_trim raw;
    Ok (Some (Str.toLowerCase trimmed))
  else Ok None.

(** Truthiness of a nullable string. *)
Definition some_nonempty (a : option string) : bool :=
  match a with
  | Some s => negb (Str.is_empty s)
  | None => false
  end.

(** [a && allowed.has(a) ? a : null] *)
Definition member_or_null (allowed : gset string) (a : option string) : option string :=
  match a with
  | Some s => if negb (Str.is_empty s) && bool_decide (s ∈ allowed) then Some s else None
  | None => None
  end.

Record vendors_state : Type := mkVendors {
  v_sanitized : list Vendor.t;
  v_warnings : list warning;
  v_seen : gset string
}.

Definition v_warn (st : vendors_state) (w : warning) : vendors_state :=
  mkVendors (v_sanitized st) (v_warnings st ++ [w]) (v_seen st).

Definition sanitizeVendors_item (st : vendors_state) (index : nat) (vendor : value)
  : result vendors_state :=
  if negb (is_object vendor) then Ok (v_warn st (W_vendor_not_object index)) else
  let vendorName := toTrimmedString (prop vendor "vendor_name") in
  vendorType ← canonicalizeVendorType (prop vendor "vendor_type");
  match vendorName with
  | None => Ok (v_warn st (W_vendor_missing_name index))
  | Some vendorName =>
  match vendorType with
  | None =>
      Ok (v_warn st (W_vendor_unsupported_type vendorName (prop vendor "vendor_type")))
  | Some vendorType =>
      let key := vendorKey vendorType vendorName in
      if bool_decide (key ∈ v_seen st)
      then Ok (v_warn st (W_vendor_duplicate vendorName vendorType)) else
      let seen := {[key]} ∪ v_seen st in
      let totalCost := normalizeCurrency (prop vendor "total_cost") in
      let depositAmount := normalizeCurrency (prop vendor "deposit_amount") in
      let balanceDue := normalizeCurrency (prop vendor "balance_due") in
      let '(adjustedDeposit, warnings) :=
        match totalCost, depositAmount with
        | Some total, Some deposit =>
            if (total <? deposit)%Z
            then (totalCost, v_warnings st ++ [W_vendor_deposit_adjusted vendorName])
            else (depositAmount, v_warnings st)
        | _, _ => (depositAmount, v_warnings st)
        end in
      status ← lowered_or_null (prop vendor "status");
      let canonicalStatus := member_or_null VENDOR_STATUSES status in
      let warnings :=
        if some_nonempty status && negb (some_nonempty canonicalStatus)
        then warnings ++ [W_vendor_status_dropped (prop vendor "status") vendorName]
        else warnings in
      let sanitizedVendor :=
        {| Vendor.vendor_type := vendorType;
           Vendor.vendor_name := vendorName;
           Vendor.vendor_contact_name := toTrimmedString (prop vendor "vendor_contact_name");
           Vendor.vendor_email := validateEmail (prop vendor "vendor_email");
           Vendor.vendor_phone := validatePhone (prop vendor "vendor_phone");
           Vendor.total_cost := totalCost;
           Vendor.deposit_amount := adjustedDeposit;
           Vendor.deposit_paid := normalizeBoolean (prop vendor "deposit_paid");
           Vendor.deposit_date := normalizeDate (prop vendor "deposit_date");
           Vendor.balance_due := balanceDue;
           Vendor.final_payment_date := normalizeDate (prop vendor "final_payment_date");
           Vendor.final_payment_paid := normalizeBoolean (prop vendor "final_payment_paid");
           Vendor.status := canonicalStatus;
           Vendor.contract_signed := normalizeBoolean (prop vendor "contract_signed");
           Vendor.contract_date := normalizeDate (prop vendor "contract_date");
           Vendor.service_date := normalizeDate (prop vendor "service_date");
           Vendor.notes := toTrimmedString (prop vendor "notes") |} in
      Ok (mkVendors (v_sanitized st ++ [sanitizedVendor]) warnings seen)
  end end.

(** [Array.isArray(v) && v.length > 0] *)
Definition nonempty_array (v : value) : option (list value) :=
  match v with
  | VArr (item :: items) => Some (item :: items)
  | _ => None
  end.

Definition sanitizeVendors (vendors : value) : result (list Vendor.t * list warning) :=
  match nonempty_array vendors with
  | None => Ok ([], [])
  | Some items =>
      st ← forEach sanitizeVendors_item 0 items (mkVendors [] [] ∅);
      Ok (v_sanitized st, v_warnings st)
  end.

(** ** Budget items *)

Module BudgetItem.
Record t : Type := mk {
  category : string;
  budgeted_amount : option Z;
  spent_amount : option Z;
  transaction_date : option string;
  transaction_amount : option Z;
  transaction_description : option string;
  notes : option string
}.
End BudgetItem.

(** [a || 0] for a nullable number. *)
Definition num_or_zero (a : option Z) : Z :=
  match a with
  | Some z => z
  | None => 0%Z
  end.

(** [if (x !== null) existing.f = x] *)
Definition overwrite {A : Type} (x old : option A) : option A :=
  match x with
  | Some _ => x
  | None => old
  end.

(** [if (x) existing.f = x] for a nullable string. *)
Definition overwrite_truthy (x old : option string) : option string :=
  if some_nonempty x then x else old.

Definition budget_state : Type := list (string * BudgetItem.t) * list warning.

Definition sanitizeBudgetItems_item (st : budget_state) (index : nat) (item : value)
  : result budget_state :=
  let '(aggregated, warnings) := st in
  if negb (is_object item) then Ok (aggregated, warnings ++ [W_budget_not_object index]) else
  category ← canonicalizeBudgetCategory (prop item "category");
  match category with
  | None =>
      Ok (aggregated,
          warnings ++ [W_budget_unsupported_category index (prop item "category")])
  | Some category =>
      let budgetedAmount := normalizeCurrency (prop item "budgeted_amount") in
      let spentAmount := normalizeCurrency (prop item "spent_amount") in
      let transactionAmount := normalizeCurrency (prop item "transaction_amount") in
      let transactionDate := normalizeDate (prop item "transaction_date") in
      match budgetedAmount, spentAmount, transactionAmount with
      | None, None, None =>
          Ok (aggregated, warnings ++ [W_budget_no_monetary category])
      | _, _, _ =>
          let existing :=
            default (BudgetItem.mk category None None None None None None)
                    (Map_get category aggregated) in
          let description := toTrimmedString (prop item "transaction_description") in
          let notes := toTrimmedString (prop item "notes") in
          let existing :=
            {| BudgetItem.category := BudgetItem.category existing;
               BudgetItem.budgeted_amount :=
                 overwrite budgetedAmount (BudgetItem.budgeted_amount existing);
               BudgetItem.spent_amount :=
                 match spentAmount with
                 | Some spent =>
                     Some (Number_add (num_or_zero (BudgetItem.spent_amount existing))
                                      spent)
                 | None => BudgetItem.spent_amount existing
                 end;
               BudgetItem.transaction_date :=
                 overwrite_truthy transactionDate (BudgetItem.transaction_date existing);
               BudgetItem.transaction_amount :=
                 overwrite transactionAmount (BudgetItem.transaction_amount existing);
               BudgetItem.transaction_description :=
                 overwrite_truthy description (BudgetItem.transaction_description existing);
               BudgetItem.notes := overwrite_truthy notes (BudgetItem.notes existing) |} in
          let warnings :=
            if Map_has category aggregated
            then warnings ++ [W_budget_merged category]
            else warnings in
          Ok (Map_set category existing aggregated, warnings)
      end
  end.

Definition sanitizeBudgetItems (budgetItems : value)
  : result (list BudgetItem.t * list warning) :=
  match nonempty_array budgetItems with
  | None => Ok ([], [])
  | Some items =>
      st ← forEach sanitizeBudgetItems_item 0 items ([], []);
      Ok (Map_values st.1, st.2)
  end.

(** ** Tasks *)

Module Task.
Record t : Type := mk {
  task_name : string;
  task_description : option string;
  category : option string;
  due_date : option string;
  status : option string;
  priority : option string;
  notes : option string
}.
End Task.

Record tasks_state : Type := mkTasks {
  t_sanitized : list Task.t;
  t_warnings : list warning;
  t_seen : gset string
}.

(** [a || null] for a nullable string. *)
Definition or_null (a : option string) : option string :=
  if some_nonempty a then a else None.

Definition sanitizeTasks_item (st : tasks_state) (index : nat) (task : value)
  : result tasks_state :=
  if negb (is_object task)
  then Ok (mkTasks (t_sanitized st) (t_warnings st ++ [W_task_not_object index]) (t_seen st))
  else
  match toTrimmedString (prop task "task_name") with
  | None =>
      Ok (mkTasks (t_sanitized st) (t_warnings st ++ [W_task_missing_name index]) (t_seen st))
  | Some name =>
      let dueDate := normalizeDate (prop task "due_date") in
      let warnings :=
        if truthy (prop task "due_date") && negb (some_nonempty dueDate)
        then t_warnings st ++ [W_task_invalid_due_date name]
        else t_warnings st in
      canonical ← canonicalizeTaskCategory (prop task "category");
      let category := or_null canonical in
      let warnings :=
        if truthy (prop task "category") && negb (some_nonempty category)
        then warnings ++ [W_task_category_dropped (prop task "category") name]
        else warnings in
      status ← lowered_or_null (prop task "status");
      let canonicalStatus := member_or_null TASK_STATUSES status in
      let warnings :=
        if some_nonempty status && negb (some_nonempty canonicalStatus)
        then warnings ++ [W_task_status_dropped (prop task "status") name]
        else warnings in
      priority ← lowered_or_null (prop task "priority");
      let canonicalPriority := member_or_null TASK_PRIORITIES priority in
      let warnings :=
        if some_nonempty priority && negb (some_nonempty canonicalPriority)
        then warnings ++ [W_task_priority_dropped (prop task "priority") name]
        else warnings in
      let slug := taskDeterministicId name dueDate in
      if bool_decide (slug ∈ t_seen st)
      then Ok (mkTasks (t_sanitized st)
                 (warnings ++ [W_task_duplicate name (str_or dueDate "unspecified")])
                 (t_seen st))
      else
      let seen := {[slug]} ∪ t_seen st in
      Ok (mkTasks
            (t_sanitized st ++
               [ {| Task.task_name := name;
                    Task.task_description := toTrimmedString (prop task "task_description");
                    Task.category := category;
                    Task.due_date := dueDate;
                    Task.status := canonicalStatus;
                    Task.priority := canonicalPriority;
                    Task.notes := toTrimmedString (prop task "notes") |} ])
            warnings seen)
  end.

Definition sanitizeTasks (tasks : value) : result (list Task.t * list warning) :=
  match nonempty_array tasks with
  | None => Ok ([], [])
  | Some items =>
      st ← forEach sanitizeTasks_item 0 items (mkTasks [] [] ∅);
      Ok (t_sanitized st, t_warnings st)
  end.

(** ** Orchestrator *)

Record SanitizationResult : Type := mkResult {
  weddingInfo : gmap string field;
  vendors : list Vendor.t;
  budgetItems : list BudgetItem.t;
  tasks : list Task.t;
  warnings : list warning;
  parseError : option exn
}.

Definition zero_result : SanitizationResult := mkResult ∅ [] [] [] [] None.

Section Orchestrator.

(** [JSON.parse], a built-in of the platform: it returns the parsed value
    or throws a [SyntaxError]. *)
Variable JSON_parse : string -> result value.

Definition processClaudePayload (rawExtractedDataText : value)
  : result SanitizationResult :=
  if negb (truthy rawExtractedDataText) then Ok zero_result else
  match rawExtractedDataText with
  | VStr text =>
      let trimmed := Str.trim text in
      if Str.is_empty trimmed then Ok zero_result else
      if (MAX_EXTRACTED_JSON_CHARS <? Z.of_nat (String.length trimmed))%Z
      then Ok (mkResult ∅ [] [] [] [W_size_limit] None) else
      match JSON_parse trimmed with
      | Throw error => Ok (mkResult ∅ [] [] [] [W_parse_failed] (Some error))
      | Ok parsed =>
          wedding_info ← get parsed "wedding_info";
          '(sanitizedWeddingInfo, weddingInfoWarnings) ← sanitizeWeddingInfo wedding_info;
          vendors ← get parsed "vendors";
          '(sanitizedVendors, vendorWarnings) ← sanitizeVendors vendors;
          budget_items ← get parsed "budget_items";
          '(sanitizedBudgetItems, budgetWarnings) ← sanitizeBudgetItems budget_items;
          tasks ← get parsed "tasks";
          '(sanitizedTasks, taskWarnings) ← sanitizeTasks tasks;
          Ok (mkResult sanitizedWeddingInfo sanitizedVendors sanitizedBudgetItems
                sanitizedTasks
                (weddingInfoWarnings ++ vendorWarnings ++ budgetWarnings ++ taskWarnings)
                None)
      end
  | _ => Ok zero_result
  end.

End Orchestrator.

(** ** A reference [JSON.parse]

    The grammar of ECMA-404 over texts of code units below 256, used to run
    the pipeline on concrete texts.  An escape [\uXXXX] above [\u00FF]
    denotes a code unit outside the modelled range and is not accepted.
    The properties below are stated for every parser. *)

Module Json.

Definition quote : ascii := "034"%char.
Definition backslash : ascii := "092"%char.

Definition is_ws (c : ascii) : bool :=
  (Str.code c =? 32)%nat || (Str.code c =? 9)%nat || (Str.code c =? 10)%nat
  || (Str.code c =? 13)%nat.

Fixpoint skip_ws (s : string) : string :=
  match s with
  | EmptyString => EmptyString
  | String c s' => if is_ws c then skip_ws s' else s
  end.

Definition hex_val (c : ascii) : option nat :=
  if Str.is_digit c then Some (Str.code c - 48)
  else if Str.between 97 102 c then Some (Str.code c - 87)
  else if Str.between 65 70 c then Some (Str.code c - 55)
  else None.

(** The characters of a string literal after its opening quote. *)
Fixpoint parse_chars (s : string) : option (string * string) :=
  match s with
  | EmptyString => None
  | String c s' =>
      if Ascii.eqb c quote then Some (EmptyString, s')
      else if Ascii.eqb c backslash then
        match s' with
        | String e s'' =>
            let escaped (c' : ascii) :=
              match parse_chars s'' with
              | Some (str, rest) => Some (String c' str, rest)
              | None => None
              end in
            if Ascii.eqb e quote then escaped quote
            else if Ascii.eqb e backslash then escaped backslash
            else if Ascii.eqb e "/" then escaped "/"%char
            else if Ascii.eqb e "b" then escaped "008"%char
            else if Ascii.eqb e "f" then escaped "012"%char
            else if Ascii.eqb e "n" then escaped "010"%char
            else if Ascii.eqb e "r" then escaped "013"%char
            else if Ascii.eqb e "t" then escaped "009"%char
            else if Ascii.eqb e "u" then
              match s'' with
              | String h1 (String h2 (String h3 (String h4 s3))) =>
                  match hex_val h1, hex_val h2, hex_val h3, hex_val h4 with
                  | Some 0, Some 0, Some a, Some b =>
                      match parse_chars s3 with
                      | Some (str, rest) => Some (String (ascii_of_nat (16 * a + b)) str, rest)
                      | None => None
                      end
                  | _, _, _, _ => None
                  end
              | _ => None
              end
            else None
        | EmptyString => None
        end
      else if (Str.code c <? 32)%nat then None
      else
        match parse_chars s' with
        | Some (str, rest) => Some (String c str, rest)
        | None => None
        end
  end.

(** [10^e] *)
Definition pow10 (e : Z) : Q := Qpower (inject_Z 10) e.

(** A number literal at the head of [s]. *)
Definition parse_number (s : string) : option (Q * string) :=
  let (neg, body) :=
    match s with
    | String "-" s' => (true, s')
    | _ => (false, s)
    end in
  let (ip, rest) := span_digits body in
  let int_ok :=
    match ip with
    | EmptyString => false
    | String "0" (String _ _) => false
    | _ => true
    end in
  if negb int_ok then None else
  let frac :=
    match rest with
    | String "." rest' =>
        let (fp, rest'') := span_digits rest' in
        if Str.is_empty fp then None else Some (fp, rest'')
    | _ => Some (EmptyString, rest)
    end in
  match frac with
  | None => None
  | Some (fp, rest) =>
      let expo :=
        match rest with
        | String e rest' =>
            if Ascii.eqb e "e" || Ascii.eqb e "E" then
              let (eneg, ebody) :=
                match rest' with
                | String "-" r => (true, r)
                | String "+" r => (false, r)
                | _ => (false, rest')
                end in
              let (ed, rest'') := span_digits ebody in
              if Str.is_empty ed then None
              else Some ((if eneg then - Z.of_nat (Str.digits_val ed)
                          else Z.of_nat (Str.digits_val ed))%Z, rest'')
            else Some (0%Z, rest)
        | EmptyString => Some (0%Z, rest)
        end in
      match expo with
      | None => None
      | Some (e, rest) =>
          let magnitude :=
            ((inject_Z (Z.of_nat (Str.digits_val ip))
              + (Z.of_nat (Str.digits_val fp) # Pos.pow 10 (Pos.of_nat (String.length fp))))
             * pow10 e)%Q in
          Some (Qred (if neg then - magnitude else magnitude)%Q, rest)
      end
  end.

Definition literal (word : string) (v : value) (s : string) : option (value * string) :=
  if String.prefix word s
  then Some (v, String.substring (String.length word) (String.length s - String.length word) s)
  else None.

Fixpoint parse_value (fuel : nat) (s : string) : option (value * string) :=
  match fuel with
  | O => None
  | S fuel' =>
      match skip_ws s with
      | EmptyString => None
      | String c s' =>
          if Ascii.eqb c quote then
            match parse_chars s' with
            | Some (str, rest) => Some (VStr str, rest)
            | None => None
            end
          else if Ascii.eqb c "[" then
            match skip_ws s' with
            | String "]" rest => Some (VArr [], rest)
            | _ =>
                match parse_elements fuel' s' with
                | Some (items, rest) => Some (VArr items, rest)
                | None => None
                end
            end
          else if Ascii.eqb c "{" then
            match skip_ws s' with
            | String "}" rest => Some (VObj [], rest)
            | _ =>
                match parse_members fuel' [] s' with
                | Some (props, rest) => Some (VObj props, rest)
                | None => None
                end
            end
          else if Ascii.eqb c "t" then literal "true" (VBool true) (String c s')
          else if Ascii.eqb c "f" then literal "false" (VBool false) (String c s')
          else if Ascii.eqb c "n" then literal "null" VNull (String c s')
          else
            match parse_number (String c s') with
            | Some (q, rest) => Some (VNum q, rest)
            | None => None
            end
      end
  end
with parse_elements (fuel : nat) (s : string) : option (list value * string) :=
  match fuel with
  | O => None
  | S fuel' =>
      match parse_value fuel' s with
      | None => None
      | Some (v, rest) =>
          match skip_ws rest with
          | String "]" rest' => Some ([v], rest')
          | String "," rest' =>
              match parse_elements fuel' rest' with
              | Some (vs, rest'') => Some (v :: vs, rest'')
              | None => None
              end
          | _ => None
          end
      end
  end
with parse_members (fuel : nat) (acc : list (string * value)) (s : string)
  : option (list (string * value) * string) :=
  match fuel with
  | O => None
  | S fuel' =>
      match skip_ws s with
      | String c s' =>
          if negb (Ascii.eqb c quote) then None else
          match parse_chars s' with
          | None => None
          | Some (key, rest) =>
              match skip_ws rest with
              | String ":" rest' =>
                  match parse_value fuel' rest' with
                  | None => None
                  | Some (v, rest'') =>
                      let acc' := Map_set key v acc in
                      match skip_ws rest'' with
                      | String "}" rest3 => Some (acc', rest3)
                      | String "," rest3 => parse_members fuel' acc' rest3
                      | _ => None
                      end
                  end
              | _ => None
              end
          end
      | EmptyString => None
      end
  end.

Definition parse (text : string) : result value :=
  match parse_value (4 + 4 * String.length text) text with
  | Some (v, rest) =>
      if Str.is_empty (skip_ws rest) then Ok v else Throw SyntaxError
  | None => Throw SyntaxError
  end.

(** A text written with apostrophes in the place of its quotation marks. *)
Fixpoint quoted (s : string) : string :=
  match s with
  | EmptyString => EmptyString
  | String c s' => String (if Ascii.eqb c "'" then quote else c) (quoted s')
  end.

End Json.

(** * Part II: the other functions of the modules

    The session helpers, the rate limiter and the CORS helpers that share
    the file of the extraction pipeline, and the escaping helpers of
    [buddy-core/frontend/security.js].  Their properties, and further
    properties of the pipeline, follow those of the specification.

    Modelling conventions.
    - Module-level variables ([let] and mutated [const] objects) are passed
      explicitly, and so is the clock: [now] is the value of [Date.now()].
    - Times, counts and limits are integers ([Z]).
    - An argument documented as a string is a text, or [None] for [null]
      and [undefined]. *)

From Stdlib Require Lqa.

(** ** Session storage *)

Module Session.

Definition USER_ID_KEY : string := "user_id".
Definition WEDDING_ID_KEY : string := "wedding_id".

(** [localStorage]: [None] where [typeof localStorage === 'undefined'],
    otherwise the stored items. *)
Definition Storage : Type := option (gmap string string).

(** An identifier as the callers pass it: a text, or [null]/[undefined]. *)
Record t : Type := mk {
  userId : option string;
  weddingId : option string
}.

(** [localStorage.getItem(key)] *)
Definition getItem (key : string) (items : gmap string string) : option string :=
  items !! key.

(** [if (id) localStorage.setItem(key, id)] *)
Definition setItem_if (key : string) (id : option string) (items : gmap string string)
  : gmap string string :=
  match id with
  | Some text => if Str.is_empty text then items else <[key := text]> items
  | None => items
  end.

Definition getStoredSession (localStorage : Storage) : t :=
  {| userId :=
       match localStorage with
       | Some items => getItem USER_ID_KEY items
       | None => None
       end;
     weddingId :=
       match localStorage with
       | Some items => getItem WEDDING_ID_KEY items
       | None => None
       end |}.

Definition storeSession (session : t) (localStorage : Storage) : Storage :=
  match localStorage with
  | None => None
  | Some items =>
      let items := setItem_if USER_ID_KEY (userId session) items in
      let items := setItem_if WEDDING_ID_KEY (weddingId session) items in
      Some items
  end.

Definition clearSession (localStorage : Storage) : Storage :=
  match localStorage with
  | None => None
  | Some items => Some (delete WEDDING_ID_KEY (delete USER_ID_KEY items))
  end.

End Session.

(** ** The client singleton *)

Module Supabase.

(** What [initSupabase] throws. *)
Inductive error : Type :=
| SdkNotAvailable
| ConfigurationMissing
| FailedToCreate (cause : string).

Inductive outcome (A : Type) : Type :=
| Returned (a : A)
| Thrown (e : error).
Arguments Returned {A} a.
Arguments Thrown {A} e.

Section Client.

(** The clients of the SDK; every client is an object, hence truthy. *)
Variable Client : Type.

(** [lib.createClient(url, key)]: a client, [null], or an exception with
    its message. *)
Definition Lib : Type := string -> string -> option Client + string.

Record Options : Type := mkOptions {
  supabaseUrl : option string;
  supabaseAnonKey : option string;
  supabaseLib : option Lib
}.

(** What the function reads besides its argument: the configuration of
    [getSupabaseConfig] and the two globals of [window]; both [process.env]
    and [window] exist, as in the bundled front end. *)
Record Env : Type := mkEnv {
  SUPABASE_URL : option string;
  SUPABASE_ANON_KEY : option string;
  window_supabase : option Lib;
  window_supabaseJs : option Lib
}.

(** [a || b] for nullable texts: the first when it is a non-empty text. *)
Definition or_text (a b : option string) : option string :=
  if some_nonempty a then a else b.

(** [a || b] for nullable objects. *)
Definition or_else {A : Type} (a b : option A) : option A :=
  match a with
  | Some _ => a
  | None => b
  end.

(** [process.env.X || null] *)
Definition getSupabaseConfig (env : Env) : option string * option string :=
  (or_text (SUPABASE_URL env) None, or_text (SUPABASE_ANON_KEY env) None).

(** The state is the module variable [supabaseClient]. *)
Definition initSupabase (options : Options) (env : Env) (supabaseClient : option Client)
  : outcome Client * option Client :=
  match supabaseClient with
  | Some client => (Returned client, supabaseClient)
  | None =>
      let '(defaultUrl, defaultAnonKey) := getSupabaseConfig env in
      let supabaseUrl := or_text (supabaseUrl options) defaultUrl in
      let supabaseAnonKey := or_text (supabaseAnonKey options) defaultAnonKey in
      let supabaseLib :=
        or_else (supabaseLib options)
                (or_else (window_supabase env) (window_supabaseJs env)) in
      match supabaseLib with
      | None => (Thrown SdkNotAvailable, None)
      | Some lib =>
          match supabaseUrl, supabaseAnonKey with
          | Some url, Some key =>
              if Str.is_empty url || Str.is_empty key
              then (Thrown ConfigurationMissing, None)
              else
                match lib url key with
                | inl (Some client) => (Returned client, Some client)
                | inl None =>
                    (Thrown (FailedToCreate "createClient returned null or undefined"), None)
                | inr message => (Thrown (FailedToCreate message), None)
                end
          | _, _ => (Thrown ConfigurationMissing, None)
          end
      end
  end.

Definition getSupabase (env : Env) (supabaseClient : option Client)
  : outcome Client * option Client :=
  match supabaseClient with
  | None => initSupabase (mkOptions None None None) env supabaseClient
  | Some client => (Returned client, supabaseClient)
  end.

End Client.

Arguments mkOptions {Client} supabaseUrl supabaseAnonKey supabaseLib.
Arguments mkEnv {Client} SUPABASE_URL SUPABASE_ANON_KEY window_supabase window_supabaseJs.
Arguments supabaseUrl {Client} o.
Arguments supabaseAnonKey {Client} o.
Arguments supabaseLib {Client} o.
Arguments SUPABASE_URL {Client} e.
Arguments SUPABASE_ANON_KEY {Client} e.
Arguments window_supabase {Client} e.
Arguments window_supabaseJs {Client} e.
Arguments getSupabaseConfig {Client} env.
Arguments initSupabase {Client} options env supabaseClient.
Arguments getSupabase {Client} env supabaseClient.

(** A run of calls of [initSupabase], each with its options and the
    environment it finds. *)
Fixpoint initSupabase_calls {Client : Type} (calls : list (Options Client * Env Client))
    (supabaseClient : option Client) : list (outcome Client) * option Client :=
  match calls with
  | [] => ([], supabaseClient)
  | (options, env) :: calls' =>
      let '(result, supabaseClient) := initSupabase options env supabaseClient in
      let '(results, supabaseClient) := initSupabase_calls calls' supabaseClient in
      (result :: results, supabaseClient)
  end.

End Supabase.

(** ** Rate limiter *)

Record RateLimit : Type := mkRateLimit {
  maxRequests : Z;
  windowMs : Z
}.

Module RATE_LIMITS.
Definition STRICT : RateLimit := mkRateLimit 10 (60 * 1000).
Definition MODERATE : RateLimit := mkRateLimit 30 (60 * 1000).
Definition RELAXED : RateLimit := mkRateLimit 60 (60 * 1000).
Definition PAYMENT : RateLimit := mkRateLimit 5 (60 * 1000).
End RATE_LIMITS.

(** An entry of [requestCounts]. *)
Module Counter.
Record t : Type := mk {
  count : Z;
  resetTime : Z
}.
End Counter.

(** The answer of [checkRateLimit]. *)
Module Verdict.
Record t : Type := mk {
  allowed : bool;
  remaining : Z;
  resetTime : Z
}.
End Verdict.

(** [now] is the value of [Date.now()]; the state is the module map
    [requestCounts]. *)
Definition checkRateLimit (identifier : string) (options : RateLimit) (now : Z)
    (requestCounts : gmap string Counter.t) : Verdict.t * gmap string Counter.t :=
  let maxRequests := maxRequests options in
  let windowMs := windowMs options in
  match requestCounts !! identifier with
  | None =>
      (Verdict.mk true (maxRequests - 1) (now + windowMs),
       <[identifier := Counter.mk 1 (now + windowMs)]> requestCounts)
  | Some data =>
      if (Counter.resetTime data <? now)%Z then
        (Verdict.mk true (maxRequests - 1) (now + windowMs),
         <[identifier := Counter.mk 1 (now + windowMs)]> requestCounts)
      else
        let data := Counter.mk (Counter.count data + 1) (Counter.resetTime data) in
        let requestCounts := <[identifier := data]> requestCounts in
        if (maxRequests <? Counter.count data)%Z
        then (Verdict.mk false 0 (Counter.resetTime data), requestCounts)
        else (Verdict.mk true (maxRequests - Counter.count data)
                (Counter.resetTime data), requestCounts)
  end.

(** The body of the [setInterval] callback: every entry with
    [now - data.resetTime > 0] is deleted. *)
Definition cleanup (now : Z) (requestCounts : gmap string Counter.t)
  : gmap string Counter.t :=
  filter (fun entry : string * Counter.t => ~ (0 < now - Counter.resetTime entry.2)%Z)
         requestCounts.

(** The calls of one client at the given times, in order. *)
Fixpoint checkRateLimit_calls (identifier : string) (options : RateLimit)
    (times : list Z) (requestCounts : gmap string Counter.t)
  : list Verdict.t * gmap string Counter.t :=
  match times with
  | [] => ([], requestCounts)
  | now :: times' =>
      let '(verdict, requestCounts) :=
        checkRateLimit identifier options now requestCounts in
      let '(verdicts, requestCounts) :=
        checkRateLimit_calls identifier options times' requestCounts in
      (verdict :: verdicts, requestCounts)
  end.

(** ** Requests and responses *)

(** What the helpers read of a request: the two address headers, the
    address of the connection ([None] also when there is no connection) and
    the method. *)
Record Request : Type := mkRequest {
  x_forwarded_for : option string;
  x_real_ip : option string;
  remoteAddress : option string;
  method : string
}.

(** [s.split(',')[0]] *)
Fixpoint split_comma_head (s : string) : string :=
  match s with
  | EmptyString => EmptyString
  | String c s' => if Ascii.eqb c "," then EmptyString else String c (split_comma_head s')
  end.

Definition getClientIdentifier (req : Request) : string :=
  match x_forwarded_for req with
  | Some forwarded =>
      if negb (Str.is_empty forwarded) then split_comma_head forwarded
      else str_or (x_real_ip req) (str_or (remoteAddress req) "unknown")
  | None => str_or (x_real_ip req) (str_or (remoteAddress req) "unknown")
  end.

(** What the helpers write of a response. *)
Record Response : Type := mkResponse {
  headers : gmap string string;
  statusCode : option Z;
  ended : bool
}.

Definition setHeader (key value : string) (res : Response) : Response :=
  mkResponse (<[key := value]> (headers res)) (statusCode res) (ended res).

(** The initial value of the module object [CORS_HEADERS]. *)
Definition CORS_HEADERS : list (string * string) :=
  [ ("Access-Control-Allow-Origin", "https://bridebuddyv2.vercel.app");
    ("Access-Control-Allow-Methods", "GET, POST, PUT, DELETE, OPTIONS");
    ("Access-Control-Allow-Headers", "Content-Type, Authorization");
    ("Access-Control-Allow-Credentials", "true");
    ("Access-Control-Max-Age", "86400") ].

(** The state is the module object [CORS_HEADERS]. *)
Definition configureCors (origin : option string) (cors : list (string * string))
  : list (string * string) :=
  match origin with
  | Some text =>
      if Str.is_empty text then cors
      else Map_set "Access-Control-Allow-Origin" text cors
  | None => cors
  end.

Definition handleCORS (cors : list (string * string)) (req : Request) (res : Response)
  : bool * Response :=
  let res := foldl (fun res '(key, value) => setHeader key value res) res cors in
  if String.eqb (method req) "OPTIONS"
  then (true, mkResponse (headers res) (Some 200%Z) true)
  else (false, res).

(** ** Escaping ([buddy-core/frontend/security.js]) *)

(** [s.replace(/c/g, replacement)] for a single character [c] and a
    replacement without [$]. *)
Fixpoint replace_char (c : ascii) (replacement : string) (s : string) : string :=
  match s with
  | EmptyString => EmptyString
  | String a s' =>
      if Ascii.eqb a c then replacement +:+ replace_char c replacement s'
      else String a (replace_char c replacement s')
  end.

Definition apostrophe : ascii := "039"%char.
Definition newline : ascii := "010"%char.

(** The argument is a text, or [null]/[undefined]. *)
Definition escapeHtml (unsafe : option string) : string :=
  match unsafe with
  | None => ""
  | Some s =>
      replace_char apostrophe "&#039;"
        (replace_char Json.quote "&quot;"
           (replace_char ">" "&gt;"
              (replace_char "<" "&lt;"
                 (replace_char "&" "&amp;" s))))
  end.

Definition textToHtml (text : option string) : string :=
  if negb (some_nonempty text) then ""
  else replace_char newline "<br>" (escapeHtml text).

Definition dangerousProtocols : list string :=
  [ "javascript:"; "data:"; "vbscript:"; "file:" ].

Definition startsWith (s p : string) : bool := String.prefix p s.

Definition sanitizeUrl (url : option string) : string :=
  match url with
  | None => ""
  | Some text =>
      if Str.is_empty text then "" else
      let trimmed := Str.toLowerCase (Str.trim text) in
      if existsb (startsWith trimmed) dangerousProtocols then ""
      else Str.trim text
  end.

(** [s.replace(re, '')] for a global pattern that matches no empty text:
    [match_len s] is the length of the match at the head of [s], if there
    is one; the search goes on after the end of each match. *)
Fixpoint remove_matches (match_len : string -> option nat) (skip : nat) (s : string)
  : string :=
  match s with
  | EmptyString => EmptyString
  | String c s' =>
      match skip with
      | S skip' => remove_matches match_len skip' s'
      | O =>
          match match_len s with
          | Some (S n) => remove_matches match_len n s'
          | _ => String c (remove_matches match_len 0 s')
          end
      end
  end.

(** A literal pattern of lowercase ASCII with the flag [i]. *)
Definition literal_ci (pattern : string) (s : string) : option nat :=
  if String.prefix pattern (Str.toLowerCase s) then Some (String.length pattern)
  else None.

(** [/on\w+\s*=/i] at the head of [s]: the word and the white space are
    taken greedily, and giving back a character of either cannot make [=]
    match. *)
Definition handler_len (s : string) : option nat :=
  match s with
  | String o (String n rest) =>
      if Ascii.eqb (Str.lower_char o) "o" && Ascii.eqb (Str.lower_char n) "n" then
        let (word, rest) := span Str.is_word rest in
        if Str.is_empty word then None else
        let (blank, rest) := span Str.is_space rest in
        match rest with
        | String "=" _ => Some (2 + String.length word + String.length blank + 1)%nat
        | _ => None
        end
      else None
  | _ => None
  end.

Definition sanitizeAttribute (value : option string) : string :=
  match value with
  | None => ""
  | Some s =>
      remove_matches (literal_ci "</script") 0
        (remove_matches (literal_ci "<script") 0
           (remove_matches (literal_ci "vbscript:") 0
              (remove_matches (literal_ci "javascript:") 0
                 (remove_matches handler_len 0 s))))
  end.

(** * Notions the properties are stated with *)

(** *** Dates *)

(** The year, month and day fields of a text of shape YYYY-MM-DD. *)
Definition date_fields (t : string) : nat * nat * nat :=
  (Str.digits_val (String.substring 0 4 t),
   Str.digits_val (String.substring 5 2 t),
   Str.digits_val (String.substring 8 2 t)).

(** A text of shape YYYY-MM-DD that denotes a day of the calendar. *)
Definition is_calendar_date (t : string) : bool :=
  DATE_REGEX_test t &&
  let '(y, m, d) := date_fields t in
  (1 <=? m)%nat && (m <=? 12)%nat && (1 <=? d)%nat && (d <=? days_in_month y m)%nat.

(** *** Vendors *)

(** The identity of a vendor item: its canonical type and trimmed name. *)
Definition vendor_identity (item : value) : option (string * string) :=
  if is_object item then
    match toTrimmedString (prop item "vendor_name"),
          canonicalizeVendorType (prop item "vendor_type") with
    | Some name, Ok (Some type) => Some (type, name)
    | _, _ => None
    end
  else None.

(** The key under which a vendor item is remembered, if it has an identity. *)
Definition vendor_key (item : value) : option string :=
  (fun '(type, name) => vendorKey type name) <$> vendor_identity item.

(** The key of an emitted vendor. *)
Definition key_of_vendor (v : Vendor.t) : string :=
  vendorKey (Vendor.vendor_type v) (Vendor.vendor_name v).

(** The deposit a vendor item is emitted with. *)
Definition clamped_deposit (total deposit : option Z) : option Z :=
  match total, deposit with
  | Some t, Some d => if (t <? d)%Z then Some t else Some d
  | _, _ => deposit
  end.

(** The raw deposit exceeds the total cost. *)
Definition deposit_exceeds (total deposit : option Z) : bool :=
  match total, deposit with
  | Some t, Some d => (t <? d)%Z
  | _, _ => false
  end.

Definition is_duplicate_warning (w : warning) : bool :=
  match w with
  | W_vendor_duplicate _ _ => true
  | _ => false
  end.

(** The vendors and warnings of [st'] extend those of [st]. *)
Definition vendors_extend (st st' : vendors_state) : Prop :=
  (exists vs, v_sanitized st' = v_sanitized st ++ vs) /\
  (exists ws, v_warnings st' = v_warnings st ++ ws).

(** The deposit of a vendor does not exceed its total cost. *)
Definition clamp_ok (v : Vendor.t) : Prop :=
  forall t d, Vendor.total_cost v = Some t -> Vendor.deposit_amount v = Some d -> (d <= t)%Z.

(** What holds of the state of the vendor loop at every iteration. *)
Record vendors_inv (st : vendors_state) : Prop := {
  inv_seen : v_seen st = list_to_set (key_of_vendor <$> v_sanitized st);
  inv_nodup : NoDup (key_of_vendor <$> v_sanitized st);
  inv_clamp : Forall clamp_ok (v_sanitized st)
}.

Definition count_duplicate_warnings (ws : list warning) : nat :=
  length (List.filter is_duplicate_warning ws).

(** A text without a colon, as every canonical vendor type is. *)
Fixpoint no_colon (s : string) : bool :=
  match s with
  | EmptyString => true
  | String c s' => negb (Ascii.eqb c ":") && no_colon s'
  end.

(** The vendor record built from the fields of one item, whose canonical
    type and trimmed name are [type] and [name]. *)
Definition vendor_of_item (item : value) (type name : string) : Vendor.t :=
  {| Vendor.vendor_type := type;
     Vendor.vendor_name := name;
     Vendor.vendor_contact_name := toTrimmedString (prop item "vendor_contact_name");
     Vendor.vendor_email := validateEmail (prop item "vendor_email");
     Vendor.vendor_phone := validatePhone (prop item "vendor_phone");
     Vendor.total_cost := normalizeCurrency (prop item "total_cost");
     Vendor.deposit_amount :=
       clamped_deposit (normalizeCurrency (prop item "total_cost"))
                       (normalizeCurrency (prop item "deposit_amount"));
     Vendor.deposit_paid := normalizeBoolean (prop item "deposit_paid");
     Vendor.deposit_date := normalizeDate (prop item "deposit_date");
     Vendor.balance_due := normalizeCurrency (prop item "balance_due");
     Vendor.final_payment_date := normalizeDate (prop item "final_payment_date");
     Vendor.final_payment_paid := normalizeBoolean (prop item "final_payment_paid");
     Vendor.status :=
       match lowered_or_null (prop item "status") with
       | Ok status => member_or_null VENDOR_STATUSES status
       | Throw _ => None
       end;
     Vendor.contract_signed := normalizeBoolean (prop item "contract_signed");
     Vendor.contract_date := normalizeDate (prop item "contract_date");
     Vendor.service_date := normalizeDate (prop item "service_date");
     Vendor.notes := toTrimmedString (prop item "notes") |}.

(** *** Tasks *)

(** The due date of a task is absent or has the shape of a date. *)
Definition date_ok (d : option string) : Prop :=
  forall s, d = Some s -> DATE_REGEX_test s = true.

(** The identity of a task item: its trimmed name and validated due date. *)
Definition task_identity (item : value) : option (string * option string) :=
  if is_object item then
    match toTrimmedString (prop item "task_name") with
    | Some name => Some (name, normalizeDate (prop item "due_date"))
    | None => None
    end
  else None.

(** The key under which a task item is remembered, if it has a name. *)
Definition task_key (item : value) : option string :=
  (fun '(name, due) => taskDeterministicId name due) <$> task_identity item.

(** The key of an emitted task. *)
Definition key_of_task (t : Task.t) : string :=
  taskDeterministicId (Task.task_name t) (Task.due_date t).

Definition is_task_duplicate_warning (w : warning) : bool :=
  match w with
  | W_task_duplicate _ _ => true
  | _ => false
  end.

(** The tasks and warnings of [st'] extend those of [st]. *)
Definition tasks_extend (st st' : tasks_state) : Prop :=
  (exists ts, t_sanitized st' = t_sanitized st ++ ts) /\
  (exists ws, t_warnings st' = t_warnings st ++ ws).

(** What holds of the state of the task loop at every iteration. *)
Record tasks_inv (st : tasks_state) : Prop := {
  tinv_seen : t_seen st = list_to_set (key_of_task <$> t_sanitized st);
  tinv_nodup : NoDup (key_of_task <$> t_sanitized st);
  tinv_dates : Forall (fun t => date_ok (Task.due_date t)) (t_sanitized st)
}.

Definition count_task_duplicate_warnings (ws : list warning) : nat :=
  length (List.filter is_task_duplicate_warning ws).

(** The task record built from the fields of one item whose trimmed name
    is [name]. *)
Definition task_of_item (item : value) (name : string) : Task.t :=
  {| Task.task_name := name;
     Task.task_description := toTrimmedString (prop item "task_description");
     Task.category :=
       match canonicalizeTaskCategory (prop item "category") with
       | Ok canonical => or_null canonical
       | Throw _ => None
       end;
     Task.due_date := normalizeDate (prop item "due_date");
     Task.status :=
       match lowered_or_null (prop item "status") with
       | Ok status => member_or_null TASK_STATUSES status
       | Throw _ => None
       end;
     Task.priority :=
       match lowered_or_null (prop item "priority") with
       | Ok priority => member_or_null TASK_PRIORITIES priority
       | Throw _ => None
       end;
     Task.notes := toTrimmedString (prop item "notes") |}.

(** *** Budget items *)

(** The normalized fields of a budget item that passes the category and
    monetary checks. *)
Definition budget_accept (item : value) : option BudgetItem.t :=
  if is_object item then
    match canonicalizeBudgetCategory (prop item "category") with
    | Ok (Some category) =>
        let budgeted := normalizeCurrency (prop item "budgeted_amount") in
        let spent := normalizeCurrency (prop item "spent_amount") in
        let amount := normalizeCurrency (prop item "transaction_amount") in
        match budgeted, spent, amount with
        | None, None, None => None
        | _, _, _ =>
            Some (BudgetItem.mk category budgeted spent
                    (normalizeDate (prop item "transaction_date")) amount
                    (toTrimmedString (prop item "transaction_description"))
                    (toTrimmedString (prop item "notes")))
        end
    | _ => None
    end
  else None.

(** The accepted items of a category, in input order. *)
Definition budget_group (items : list value) (c : string) : list BudgetItem.t :=
  filter (fun a => BudgetItem.category a = c) (omap budget_accept items).

(** The last non-null value of a list. *)
Definition last_some {A : Type} (xs : list (option A)) : option A :=
  last (omap id xs).

(** The sum of the non-null spent amounts, added up from 0 in input order
    as numbers are, null when there is none. *)
Definition spent_total (g : list BudgetItem.t) : option Z :=
  match omap BudgetItem.spent_amount g with
  | [] => None
  | xs => Some (foldl Number_add 0%Z xs)
  end.

(** The exact sum of the non-null spent amounts, null when there is
    none. *)
Definition spent_sum (g : list BudgetItem.t) : option Z :=
  match omap BudgetItem.spent_amount g with
  | [] => None
  | xs => Some (foldr Z.add 0%Z xs)
  end.

(** [out] is the merge of the accepted items [g] of one category. *)
Record merged_of (g : list BudgetItem.t) (out : BudgetItem.t) : Prop := {
  merged_spent : BudgetItem.spent_amount out = spent_total g;
  merged_budgeted :
    BudgetItem.budgeted_amount out = last_some (BudgetItem.budgeted_amount <$> g);
  merged_amount :
    BudgetItem.transaction_amount out = last_some (BudgetItem.transaction_amount <$> g);
  merged_date :
    BudgetItem.transaction_date out = last_some (BudgetItem.transaction_date <$> g);
  merged_description :
    BudgetItem.transaction_description out
    = last_some (BudgetItem.transaction_description <$> g);
  merged_notes : BudgetItem.notes out = last_some (BudgetItem.notes <$> g)
}.

(** The merged-duplicate notice of category [c]. *)
Definition is_merged_warning (c : string) (w : warning) : bool :=
  match w with
  | W_budget_merged c' => String.eqb c' c
  | _ => false
  end.

Definition count_merged_warnings (c : string) (ws : list warning) : nat :=
  length (List.filter (is_merged_warning c) ws).

(** The item the accumulator holds after merging [a] into [existing]. *)
Definition budget_merge (existing a : BudgetItem.t) : BudgetItem.t :=
  {| BudgetItem.category := BudgetItem.category existing;
     BudgetItem.budgeted_amount :=
       overwrite (BudgetItem.budgeted_amount a) (BudgetItem.budgeted_amount existing);
     BudgetItem.spent_amount :=
       match BudgetItem.spent_amount a with
       | Some spent =>
           Some (Number_add (num_or_zero (BudgetItem.spent_amount existing)) spent)
       | None => BudgetItem.spent_amount existing
       end;
     BudgetItem.transaction_date :=
       overwrite (BudgetItem.transaction_date a) (BudgetItem.transaction_date existing);
     BudgetItem.transaction_amount :=
       overwrite (BudgetItem.transaction_amount a) (BudgetItem.transaction_amount existing);
     BudgetItem.transaction_description :=
       overwrite (BudgetItem.transaction_description a)
                 (BudgetItem.transaction_description existing);
     BudgetItem.notes := overwrite (BudgetItem.notes a) (BudgetItem.notes existing) |}.

(** What holds of the accumulator and the warnings after the items
    [items]. *)
Record budget_inv (items : list value) (st : budget_state) : Prop := {
  binv_absent : forall c, Map_get c st.1 = None <-> budget_group items c = [];
  binv_merged : forall c b,
      Map_get c st.1 = Some b ->
      BudgetItem.category b = c /\ merged_of (budget_group items c) b;
  binv_nodup : NoDup st.1.*1;
  binv_warned : forall c,
      count_merged_warnings c st.2 = pred (length (budget_group items c))
}.

(** *** Profile fragment *)

Definition checked_keys : list string :=
  [ "wedding_date"; "wedding_time"; "expected_guest_count"; "total_budget";
    "venue_cost" ].

(** The normalizer of a recognized key, applied to its raw value. *)
Definition validate (key : string) (raw : value) : option field :=
  if String.eqb key "wedding_date" then FStr <$> normalizeDate raw
  else if String.eqb key "wedding_time" then FStr <$> formatWeddingTimeForSupabase raw
  else if String.eqb key "expected_guest_count" then FNum <$> normalizeInteger raw
  else if String.eqb key "total_budget" then FNum <$> normalizeCurrency raw
  else if String.eqb key "venue_cost" then FNum <$> normalizeCurrency raw
  else if Str.includes text_keys key then FStr <$> toTrimmedString raw
  else None.

(** The warning that names a checked key and the raw value it received. *)
Definition rejection_warning (key : string) (raw : value) : option warning :=
  if String.eqb key "wedding_date" then Some (W_wedding_date raw)
  else if String.eqb key "wedding_time" then Some (W_wedding_time raw)
  else if String.eqb key "expected_guest_count" then Some (W_expected_guest_count raw)
  else if String.eqb key "total_budget" then Some (W_total_budget raw)
  else if String.eqb key "venue_cost" then Some (W_venue_cost raw)
  else None.

(** The warning an entry is answered with, if any. *)
Definition entry_warning (entry : string * value) : option warning :=
  if is_blank entry.2 then None else
  match validate entry.1 entry.2 with
  | Some _ => None
  | None => rejection_warning entry.1 entry.2
  end.

(** What a run over the entries of an object with distinct keys leaves. *)
Record profile_inv (entries : list (string * value))
    (st : gmap string field * list warning) : Prop := {
  pinv_fields : forall key f,
      st.1 !! key = Some f <->
      exists raw, (key, raw) ∈ entries /\ is_blank raw = false /\ validate key raw = Some f;
  pinv_warnings : st.2 = omap entry_warning entries
}.

(** *** Orchestrator and time of day *)

(** [HH:MM] with the hour in 00..23 and the minutes in 00..59. *)
Definition is_HHMM (s : string) : bool :=
  match s with
  | String h1 (String h2 (String ":" (String m1 (String m2 EmptyString)))) =>
      Str.is_digit h1 && Str.is_digit h2 && (Str.digits_val (str2 h1 h2) <=? 23)%nat
      && Str.between 48 53 m1 && Str.is_digit m2
  | _ => false
  end.

(** Documents with a number where the pipeline expects text. *)
Definition payload_numeric_vendor_type : string :=
  Json.quoted "{'vendors':[{'vendor_name':'Lens & Co','vendor_type':5}]}".
Definition payload_numeric_status : string :=
  Json.quoted "{'vendors':[{'vendor_name':'Lens & Co','vendor_type':'photo','status':1}]}".
Definition payload_numeric_priority : string :=
  Json.quoted "{'tasks':[{'task_name':'Send invites','priority':2}]}".
Definition payload_numeric_category : string :=
  Json.quoted "{'budget_items':[{'category':7,'spent_amount':450}]}".

Definition ex_profile : value :=
  VObj [ ("wedding_date", VStr "next spring"); ("wedding_time", VStr "5:30pm");
         ("partner1_name", VStr " Alex "); ("favorite_color", VStr "teal");
         ("total_budget", VStr "") ].

Definition ex_profile_fields : gmap string field :=
  {[ "wedding_time" := FStr "17:30"; "partner1_name" := FStr "Alex" ]}.

(** *** The branches of the time normalizer that bound their fields *)

(** One or two digits that denote an hour of the day. *)
Definition is_hour24 (h : string) : Prop :=
  (exists a, h = str1 a /\ Str.is_digit a = true) \/
  (exists a b, h = str2 a b /\ Str.is_digit a = true /\ Str.is_digit b = true /\
               (Str.digits_val (str2 a b) <= 23)%nat).

(** Two digits that denote the minutes of an hour. *)
Definition is_minutes (m : string) : Prop :=
  exists a b, m = str2 a b /\ Str.between 48 53 a = true /\ Str.is_digit b = true.

(** *** Inputs on which the sanitizers return *)

(** A value that is falsy or a string: [v.trim()] is not reached or is
    defined. *)
Definition trimmable (v : value) : bool :=
  negb (truthy v) ||
  match v with
  | VStr _ => true
  | _ => false
  end.

Definition vendor_item_safe (item : value) : bool :=
  trimmable (prop item "vendor_type") && trimmable (prop item "status").

Definition budget_item_safe (item : value) : bool :=
  trimmable (prop item "category").

Definition task_item_safe (item : value) : bool :=
  trimmable (prop item "category") && trimmable (prop item "status")
  && trimmable (prop item "priority").

(** *** Deduplication and merging *)

(** The identity of an emitted vendor. *)
Definition identity_of_vendor (v : Vendor.t) : string * string :=
  (Vendor.vendor_type v, Str.toLowerCase (Vendor.vendor_name v)).

(** The identity of an emitted task. *)
Definition identity_of_task (t : Task.t) : string * option string :=
  (Str.toLowerCase (Task.task_name t), Task.due_date t).

(** *** Concrete inputs *)

Definition ex_vendor (type name : string) (total deposit : value) : value :=
  VObj [ ("vendor_type", VStr type); ("vendor_name", VStr name);
         ("total_cost", total); ("deposit_amount", deposit) ].

Definition ex_vendors : list value :=
  [ ex_vendor "photo" "Lens & Co" (VStr "$3000") (VNum 4000);
    ex_vendor "florist" "Bloom" VNull VNull;
    ex_vendor "Photographer" " LENS & CO " VNull VNull ].

Definition ex_vendor_record (type name : string) (total deposit : option Z) : Vendor.t :=
  Vendor.mk type name None None None total deposit None None None None None None None
    None None None.

Definition ex_vendors_sanitized : list Vendor.t :=
  [ ex_vendor_record "photographer" "Lens & Co" (Some 3000%Z) (Some 3000%Z);
    ex_vendor_record "florist" "Bloom" None None ].

Definition ex_vendors_warnings : list warning :=
  [ W_vendor_deposit_adjusted "Lens & Co";
    W_vendor_duplicate "LENS & CO" "photographer" ].

Definition ex_task (name : string) (due : value) : value :=
  VObj [ ("task_name", VStr name); ("due_date", due) ].

Definition ex_tasks : list value :=
  [ ex_task "Send invites" (VStr "2025-05-01");
    ex_task "send invites" (VStr "2025-05-01");
    ex_task "Send invites" (VStr "2025-06-01");
    ex_task "Send invites" VNull ].

Definition ex_task_record (name : string) (due : option string) : Task.t :=
  Task.mk name None None due None None None.

Definition ex_tasks_sanitized : list Task.t :=
  [ ex_task_record "Send invites" (Some "2025-05-01");
    ex_task_record "Send invites" (Some "2025-06-01");
    ex_task_record "Send invites" None ].

Definition ex_tasks_warnings : list warning :=
  [ W_task_duplicate "send invites" "2025-05-01" ].

Definition ex_budget_items : list value :=
  [ VObj [ ("category", VStr "flowers"); ("spent_amount", VNum 200) ];
    VObj [ ("category", VStr "flowers"); ("spent_amount", VNum 250) ] ].

Definition ex_budget_sanitized : list BudgetItem.t :=
  [ BudgetItem.mk "flowers" None (Some 450%Z) None None None None ].

Definition ex_budget_warnings : list warning := [ W_budget_merged "flowers" ].

(** The payload of [scripts/test-process-claude-payload.js]. *)
Definition test_payload : string :=
  Json.quoted
    ("{'wedding_info':{'wedding_time':'5:30pm','wedding_date':'2025-09-20',"
     +:+ "'expected_guest_count':'150','total_budget':'$25,000'},"
     +:+ "'vendors':[{'vendor_type':'photo','vendor_name':'Lens & Co',"
     +:+ "'total_cost':'$3000','status':'Booked'}],"
     +:+ "'budget_items':[{'category':'flowers','spent_amount':'$450'}],"
     +:+ "'tasks':[{'task_name':'Send invites','category':'invitations',"
     +:+ "'status':'in_progress','due_date':'2025-05-01'},"
     +:+ "{'task_name':'Send invites','category':'invitations',"
     +:+ "'status':'in_progress','due_date':'2025-05-01'}]}").

Definition test_payload_result : SanitizationResult :=
  {| weddingInfo :=
       {[ "wedding_time" := FStr "17:30"; "wedding_date" := FStr "2025-09-20";
          "expected_guest_count" := FNum 150; "total_budget" := FNum 25000 ]};
     vendors :=
       [ Vendor.mk "photographer" "Lens & Co" None None None (Some 3000%Z) None None
           None None None None (Some "booked") None None None None ];
     budgetItems := [ BudgetItem.mk "flowers" None (Some 450%Z) None None None None ];
     tasks :=
       [ Task.mk "Send invites" None (Some "invitations") (Some "2025-05-01")
           (Some "in_progress") None None ];
     warnings := [ W_task_duplicate "Send invites" "2025-05-01" ];
     parseError := None |}.

(** *** Trimming and the primitive normalizers *)

(** The first character of a text. *)
Definition first_char (s : string) : option ascii :=
  match s with
  | EmptyString => None
  | String c _ => Some c
  end.

(** A text with no white space at either end. *)
Definition is_trimmed (s : string) : Prop :=
  (forall c, first_char s = Some c -> Str.is_space c = false) /\
  (forall c, last_char s = Some c -> Str.is_space c = false).

(** *** Canonical tokens and contact fields *)

(** The language of [EMAIL_REGEX]: a local part, [@], a host, [.] and a
    last label, each non-empty and free of white space and [@]. *)
Definition email_shape (s : string) : Prop :=
  exists local host tld,
    s = local +:+ "@" +:+ host +:+ "." +:+ tld /\
    local <> "" /\ host <> "" /\ tld <> "" /\
    Str.all email_char local = true /\
    Str.all email_char host = true /\
    Str.all email_char tld = true.

(** *** The shape of the sanitized records *)

(** A nullable amount is not negative. *)
Definition amount_ok (a : option Z) : Prop :=
  forall z, a = Some z -> (0 <= z)%Z.

(** A nullable text is non-empty and trimmed. *)
Definition text_ok (a : option string) : Prop :=
  forall t, a = Some t -> t <> "" /\ is_trimmed t.

(** A nullable date is a day of the calendar in the form YYYY-MM-DD. *)
Definition calendar_ok (a : option string) : Prop :=
  forall d, a = Some d -> is_calendar_date d = true.

(** A nullable token belongs to a list of allowed tokens. *)
Definition token_ok (allowed : list string) (a : option string) : Prop :=
  forall s, a = Some s -> s ∈ allowed.

Record vendor_schema (v : Vendor.t) : Prop := {
  vs_type : Vendor.vendor_type v ∈ vendorTypes_list;
  vs_name : text_ok (Some (Vendor.vendor_name v));
  vs_contact : text_ok (Vendor.vendor_contact_name v);
  vs_email : forall e, Vendor.vendor_email v = Some e -> email_shape e;
  vs_phone : forall p, Vendor.vendor_phone v = Some p -> PHONE_REGEX_test p = true;
  vs_total : amount_ok (Vendor.total_cost v);
  vs_deposit : amount_ok (Vendor.deposit_amount v);
  vs_balance : amount_ok (Vendor.balance_due v);
  vs_deposit_date : calendar_ok (Vendor.deposit_date v);
  vs_final_date : calendar_ok (Vendor.final_payment_date v);
  vs_contract_date : calendar_ok (Vendor.contract_date v);
  vs_service_date : calendar_ok (Vendor.service_date v);
  vs_status : forall s, Vendor.status v = Some s -> s ∈ VENDOR_STATUSES;
  vs_notes : text_ok (Vendor.notes v)
}.

Record task_schema (t : Task.t) : Prop := {
  ts_name : text_ok (Some (Task.task_name t));
  ts_description : text_ok (Task.task_description t);
  ts_category : token_ok (taskCategories_list.*2) (Task.category t);
  ts_due : calendar_ok (Task.due_date t);
  ts_status : forall s, Task.status t = Some s -> s ∈ TASK_STATUSES;
  ts_priority : forall s, Task.priority t = Some s -> s ∈ TASK_PRIORITIES;
  ts_notes : text_ok (Task.notes t)
}.

Record budget_schema (b : BudgetItem.t) : Prop := {
  bs_category : BudgetItem.category b ∈ budgetCategories_list.*2;
  bs_budgeted : amount_ok (BudgetItem.budgeted_amount b);
  bs_spent : amount_ok (BudgetItem.spent_amount b);
  bs_amount : amount_ok (BudgetItem.transaction_amount b);
  bs_monetary : BudgetItem.budgeted_amount b <> None \/
                BudgetItem.spent_amount b <> None \/
                BudgetItem.transaction_amount b <> None;
  bs_date : calendar_ok (BudgetItem.transaction_date b);
  bs_description : text_ok (BudgetItem.transaction_description b);
  bs_notes : text_ok (BudgetItem.notes b)
}.

(** *** Where the skipped items are *)

(** [!a] for a nullable non-empty string. *)
Definition missing {A : Type} (a : option A) : bool :=
  match a with
  | Some _ => false
  | None => true
  end.

(** An item of a vendor list that is an object without a usable name. *)
Definition vendor_nameless (item : value) : bool :=
  is_object item && missing (toTrimmedString (prop item "vendor_name")).

(** An item of a task list that is an object without a usable name. *)
Definition task_nameless (item : value) : bool :=
  is_object item && missing (toTrimmedString (prop item "task_name")).

Definition ex_vendors_skipped : list value :=
  [ ex_vendor "florist" "Bloom" VNull VNull; VNum 7;
    VObj [ ("vendor_type", VStr "dj") ] ].

(** *** The shape of the sanitized profile *)

(** What the value stored under a profile key looks like. *)
Definition field_schema (key : string) (f : field) : Prop :=
  if String.eqb key "wedding_date"
  then exists d, f = FStr d /\ is_calendar_date d = true
  else if String.eqb key "wedding_time" then exists t, f = FStr t
  else if Str.includes checked_keys key then exists n, f = FNum n /\ (0 <= n)%Z
  else Str.includes text_keys key = true /\
       exists t, f = FStr t /\ t <> "" /\ is_trimmed t.

(** *** The twelve-hour clock and documents without sections *)

(** A time of the twelve-hour clock as it is written: the hour, the minutes
    on two digits, an optional blank and the modifier. *)
Definition clock12 (h m : nat) (blank pm : bool) : string :=
  Str.nat_to_string h +:+ ":" +:+ Str.padStart0 2 (Str.nat_to_string m)
  +:+ (if blank then " " else "") +:+ (if pm then "pm" else "am").

(** The same time on the twenty-four-hour clock. *)
Definition clock24 (h m : nat) (pm : bool) : string :=
  Str.padStart0 2 (Str.nat_to_string (h mod 12 + (if pm then 12 else 0)))
  +:+ ":" +:+ Str.padStart0 2 (Str.nat_to_string m).

Definition clock12_converts (h m : nat) (blank pm : bool) : bool :=
  bool_decide (formatWeddingTimeForSupabase (VStr (clock12 h m blank pm))
               = Some (clock24 h m pm)) &&
  is_HHMM (clock24 h m pm).

Definition section_keys : list string :=
  [ "wedding_info"; "vendors"; "budget_items"; "tasks" ].

(** A parsed document that is not an object ([null] apart): a number, a
    text, a boolean or an array. *)
Definition is_scalar_or_array (parsed : value) : bool :=
  match parsed with
  | VBool _ | VNum _ | VStr _ | VArr _ => true
  | _ => false
  end.

(** *** Session storage and the client singleton *)

(** [id ? id : old]: what is stored under a key after [storeSession]. *)
Definition stored_id (id old : option string) : option string :=
  if some_nonempty id then id else old.

Definition ex_storage : gmap string string :=
  {[ "user_id" := "u1"; "wedding_id" := "w1"; "theme" := "dark" ]}.

Definition ex_lib : Supabase.Lib nat :=
  fun url key => if String.eqb key "anon" then inl (Some (String.length url)) else inr "bad key".

Definition ex_calls : list (Supabase.Options nat * Supabase.Env nat) :=
  [ (Supabase.mkOptions None None None, Supabase.mkEnv None None None None);
    (Supabase.mkOptions (Some "https://a.example") (Some "anon") (Some ex_lib),
     Supabase.mkEnv None None None None);
    (Supabase.mkOptions (Some "https://other.example") (Some "wrong") None,
     Supabase.mkEnv None None None None) ].

(** *** Rate limiter *)

(** The client has no open window at [now]: no entry, or an entry whose
    reset time has passed. *)
Definition window_closed (identifier : string) (now : Z)
    (requestCounts : gmap string Counter.t) : Prop :=
  match requestCounts !! identifier with
  | None => True
  | Some data => (Counter.resetTime data < now)%Z
  end.

(** The answer to the call number [n] (from 1) of a window that closes at
    [reset]. *)
Definition verdict_of_call (options : RateLimit) (reset : Z) (n : Z) : Verdict.t :=
  if (n =? 1)%Z || (n <=? maxRequests options)%Z
  then Verdict.mk true (maxRequests options - n) reset
  else Verdict.mk false 0 reset.

Definition ex_limit : RateLimit := mkRateLimit 2 1000.

Definition ex_counts : gmap string Counter.t :=
  {[ "10.0.0.1" := Counter.mk 3 6000; "10.0.0.2" := Counter.mk 1 9000 ]}.

(** *** CORS and the client identifier *)

(** The origin in force after the origins [origins] were configured in
    turn: the last one that is a non-empty text, or the one before. *)
Definition origin_in_force (origins : list (option string)) (initial : string) : string :=
  foldl (fun origin configured => str_or configured origin) initial origins.

Definition configureCors_calls (origins : list (option string))
    (cors : list (string * string)) : list (string * string) :=
  foldl (fun cors origin => configureCors origin cors) cors origins.

(** A text without a comma. *)
Fixpoint no_comma (s : string) : bool :=
  match s with
  | EmptyString => true
  | String c s' => negb (Ascii.eqb c ",") && no_comma s'
  end.

(** *** Escaping and URLs *)

(** The five characters that [escapeHtml] replaces. *)
Definition html_special (c : ascii) : bool :=
  Ascii.eqb c "&" || Ascii.eqb c "<" || Ascii.eqb c ">" || Ascii.eqb c Json.quote
  || Ascii.eqb c apostrophe.

(** The entity of a character, or the character itself. *)
Definition escape_char (c : ascii) : string :=
  if Ascii.eqb c "&" then "&amp;"
  else if Ascii.eqb c "<" then "&lt;"
  else if Ascii.eqb c ">" then "&gt;"
  else if Ascii.eqb c Json.quote then "&quot;"
  else if Ascii.eqb c apostrophe then "&#039;"
  else String c "".

(** The text escaped character by character, in one pass. *)
Fixpoint escape_each (s : string) : string :=
  match s with
  | EmptyString => EmptyString
  | String c s' => escape_char c +:+ escape_each s'
  end.

(** A character that cannot open or close a tag or an attribute value. *)
Definition html_inert (c : ascii) : bool :=
  negb (Ascii.eqb c "<" || Ascii.eqb c ">" || Ascii.eqb c Json.quote
        || Ascii.eqb c apostrophe).

(** The text escaped for a block of lines, in one pass: a line feed becomes
    a break, a special character its entity. *)
Fixpoint escape_lines (s : string) : string :=
  match s with
  | EmptyString => EmptyString
  | String c s' =>
      (if Ascii.eqb c newline then "<br>" else escape_char c) +:+ escape_lines s'
  end.

(** The number of occurrences of a character. *)
Fixpoint occurrences (c : ascii) (s : string) : nat :=
  match s with
  | EmptyString => 0
  | String a s' => (if Ascii.eqb a c then 1 else 0) + occurrences c s'
  end.

(** * Properties *)

#[local] Set Warnings "-clear-no-such-hyp".

(** *** Dates *)

Lemma digit_not_dash c : Str.is_digit c = true -> Ascii.eqb c "-" = false.
Proof.
  destruct (Ascii.eqb_spec c "-") as [->|]; [vm_compute; discriminate | reflexivity].
Qed.

Lemma days_in_month_le y m : (days_in_month y m <= 31)%nat.
Proof.
  unfold days_in_month.
  do 13 (destruct m as [|m]; [try destruct (is_leap y); lia|]). lia.
Qed.

Lemma DATE_REGEX_shape t :
  DATE_REGEX_test t = true ->
  exists y1 y2 y3 y4 m1 m2 d1 d2,
    t = String y1 (String y2 (String y3 (String y4 (String "-"
          (String m1 (String m2 (String "-" (String d1 (String d2 ""))))))))) /\
    Forall (fun c => Str.is_digit c = true) [y1; y2; y3; y4; m1; m2; d1; d2].
Proof.
  unfold DATE_REGEX_test.
  do 10 (destruct t as [|? t]; cbn [list_ascii_of_string]; try discriminate).
  destruct t; cbn [list_ascii_of_string]; try discriminate.
  cbn [forallb]. rewrite !andb_true_iff, !Ascii.eqb_eq.
  intros [[(? & ? & ? & ? & ? & ? & ? & ? & _) ->] ->].
  do 8 eexists. split; [reflexivity|].
  repeat constructor; assumption.
Qed.

Lemma split_dash_date y1 y2 y3 y4 m1 m2 d1 d2 :
  Forall (fun c => Str.is_digit c = true) [y1; y2; y3; y4; m1; m2; d1; d2] ->
  split_dash (String y1 (String y2 (String y3 (String y4 (String "-"
          (String m1 (String m2 (String "-" (String d1 (String d2 ""))))))))))
  = [ String y1 (String y2 (String y3 (String y4 ""))); str2 m1 m2; str2 d1 d2 ].
Proof.
  intros H. repeat (apply Forall_cons in H; destruct H as [?%digit_not_dash H]).
  cbn [split_dash]. repeat match goal with H : Ascii.eqb _ _ = false |- _ => rewrite H; clear H end.
  reflexivity.
Qed.

Theorem normalizeDate_trimmed_roundtrip (s : string) :
  normalizeDate (VStr s)
  = (if is_calendar_date (Str.trim s) then Some (Str.trim s) else None).
Proof.
  unfold normalizeDate, is_calendar_date. cbn [truthy]. rewrite negb_involutive.
  destruct s as [|c s].
  { reflexivity. }
  cbn [Str.is_empty]. set (t := Str.trim (String c s)).
  destruct (Str.is_empty t) eqn:Ht.
  { destruct t; [reflexivity | discriminate]. }
  destruct (DATE_REGEX_test t) eqn:Hre; [|reflexivity].
  cbn [negb andb].
  destruct (DATE_REGEX_shape _ Hre) as (y1&y2&y3&y4&m1&m2&d1&d2&->&Hd).
  unfold Date_new, date_fields. rewrite (split_dash_date _ _ _ _ _ _ _ _ Hd).
  cbn [String.substring].
  change (String m1 (String m2 "")) with (str2 m1 m2).
  change (String d1 (String d2 "")) with (str2 d1 d2).
  set (y := Str.digits_val (String y1 (String y2 (String y3 (String y4 ""))))).
  set (m := Str.digits_val (str2 m1 m2)). set (d := Str.digits_val (str2 d1 d2)).
  pose proof (days_in_month_le y m) as Hle.
  assert (Hdec : m = 12%nat -> days_in_month y m = 31%nat) by (intros ->; reflexivity).
  destruct (1 <=? m)%nat eqn:E1, (m <=? 12)%nat eqn:E2, (1 <=? d)%nat eqn:E3; cbn [andb];
    try reflexivity.
  - destruct (d <=? 31)%nat eqn:E4; cbn [andb].
    + destruct (d <=? days_in_month y m)%nat eqn:E5.
      * cbn [getUTCFullYear getUTCMonth getUTCDate].
        apply Nat.leb_le in E1.
        replace (m - 1 + 1)%nat with m by lia.
        rewrite !Nat.eqb_refl. cbn [negb orb]. reflexivity.
      * destruct (m =? 12)%nat eqn:E6.
        { apply Nat.eqb_eq in E6. apply Nat.leb_gt in E5. apply Nat.leb_le in E4.
          rewrite (Hdec E6) in E5. lia. }
        cbn [getUTCFullYear getUTCMonth getUTCDate].
        rewrite Nat.eqb_refl. cbn [negb orb].
        replace (m + 1 =? m)%nat with false by (symmetry; apply Nat.eqb_neq; lia).
        reflexivity.
    + replace (d <=? days_in_month y m)%nat with false; [reflexivity|].
      symmetry. apply Nat.leb_gt. apply Nat.leb_gt in E4. lia.
Qed.

Lemma normalizeDate_Some v d :
  normalizeDate v = Some d ->
  exists s, v = VStr s /\ d = Str.trim s /\ is_calendar_date d = true.
Proof.
  destruct v as [| |b|q|s|l|o]; try (unfold normalizeDate; cbn; discriminate).
  - unfold normalizeDate; cbn. destruct b; discriminate.
  - unfold normalizeDate; cbn. destruct (negb (negb _)); discriminate.
  - rewrite normalizeDate_trimmed_roundtrip.
    destruct (is_calendar_date (Str.trim s)) eqn:E; [|discriminate].
    intros [= <-]. eauto.
Qed.

Lemma normalizeDate_shape v d :
  normalizeDate v = Some d -> DATE_REGEX_test d = true.
Proof.
  intros (s & _ & _ & H)%normalizeDate_Some.
  unfold is_calendar_date in H. apply andb_prop in H as [H _]. exact H.
Qed.

Lemma digit_not_space c : Str.is_digit c = true -> Str.is_space c = false.
Proof.
  unfold Str.is_digit, Str.is_space, Str.between.
  intros [H1%Nat.leb_le H2%Nat.leb_le]%andb_prop.
  rewrite !orb_false_iff, andb_false_iff, !Nat.leb_gt, !Nat.eqb_neq. lia.
Qed.

Lemma DATE_REGEX_trim t : DATE_REGEX_test t = true -> Str.trim t = t.
Proof.
  intros (y1&y2&y3&y4&m1&m2&d1&d2&->&Hd)%DATE_REGEX_shape.
  apply Forall_cons in Hd as [Hy1%digit_not_space Hd].
  do 6 (apply Forall_cons in Hd as [_ Hd]).
  apply Forall_cons in Hd as [Hd2%digit_not_space _].
  unfold Str.trim. cbn [Str.trimStart]. rewrite Hy1.
  cbn [Str.trimEnd Str.is_empty]. rewrite Hd2. cbn [andb].
  rewrite !andb_false_r. reflexivity.
Qed.

(** Claim C9, amended.  The date normalizer trims its argument first: it
    returns the trimmed text when that text has the shape YYYY-MM-DD and
    denotes a real calendar date, and no value otherwise (wrong shape after
    trimming, month outside 1..12, day outside the month).  On a string that
    itself is such a date the result is the identical string. *)
Theorem normalizeDate_roundtrip_after_trim (s : string) :
  normalizeDate (VStr s)
  = (if is_calendar_date (Str.trim s) then Some (Str.trim s) else None)
  /\ (is_calendar_date s = true -> normalizeDate (VStr s) = Some s).
Proof.
  split; [apply normalizeDate_trimmed_roundtrip|].
  intros H. rewrite normalizeDate_trimmed_roundtrip.
  assert (Str.trim s = s) as ->.
  { apply DATE_REGEX_trim. unfold is_calendar_date in H.
    apply andb_prop in H as [H _]. exact H. }
  rewrite H. reflexivity.
Qed.

Lemma normalizeDate_roundtrip_witness :
  normalizeDate (VStr "2024-02-29") = Some "2024-02-29".
Proof.
  apply (normalizeDate_roundtrip_after_trim "2024-02-29"). vm_compute. reflexivity.
Defined.

(** Claim C9 as stated fails: a string with a leading space does not match
    the pattern of four digits, two digits and two digits, yet the
    normalizer returns a value for it. *)
Lemma normalizeDate_accepts_padded_date :
  DATE_REGEX_test " 2025-09-20" = false /\
  normalizeDate (VStr " 2025-09-20") = Some "2025-09-20".
Proof. split; vm_compute; reflexivity. Qed.

(** *** Vendors *)

Lemma bind_Ok_inv {A B : Type} (r : result A) (k : A -> result B) (b : B) :
  r ≫= k = Ok b -> exists a, r = Ok a /\ k a = Ok b.
Proof. destruct r as [a|e]; cbn; [eauto | discriminate]. Qed.

Lemma forEach_app {St : Type} (body : St -> nat -> value -> result St)
    (l1 l2 : list value) (i : nat) (st : St) :
  forEach body i (l1 ++ l2) st
  = forEach body i l1 st ≫= forEach body (i + length l1) l2.
Proof.
  revert i st. induction l1 as [|x l1 IH]; intros i st; cbn [forEach app length].
  - rewrite Nat.add_0_r. reflexivity.
  - destruct (body st i x) as [st'|e]; cbn; [|reflexivity].
    rewrite IH. replace (S i + length l1)%nat with (i + S (length l1))%nat by lia.
    reflexivity.
Qed.

Lemma forEach_split {St : Type} (body : St -> nat -> value -> result St)
    (pre post : list value) (x : value) (i : nat) (st st' : St) :
  forEach body i (pre ++ x :: post) st = Ok st' ->
  exists st1 st2,
    forEach body i pre st = Ok st1 /\
    body st1 (i + length pre)%nat x = Ok st2 /\
    forEach body (S (i + length pre)) post st2 = Ok st'.
Proof.
  rewrite forEach_app. intros (st1 & H1 & H2)%bind_Ok_inv.
  cbn [forEach] in H2. apply bind_Ok_inv in H2 as (st2 & H2 & H3).
  eauto.
Qed.

Lemma sanitizeVendors_item_cases st index item st' :
  sanitizeVendors_item st index item = Ok st' ->
  match vendor_identity item with
  | None =>
      exists w, st' = v_warn st w /\ is_duplicate_warning w = false
  | Some (type, name) =>
      if bool_decide (vendorKey type name ∈ v_seen st)
      then st' = v_warn st (W_vendor_duplicate name type)
      else exists v ws,
          st' = mkVendors (v_sanitized st ++ [v]) (v_warnings st ++ ws)
                  ({[vendorKey type name]} ∪ v_seen st) /\
          Vendor.vendor_type v = type /\ Vendor.vendor_name v = name /\
          Vendor.total_cost v = normalizeCurrency (prop item "total_cost") /\
          Vendor.deposit_amount v =
            clamped_deposit (normalizeCurrency (prop item "total_cost"))
                            (normalizeCurrency (prop item "deposit_amount")) /\
          (deposit_exceeds (normalizeCurrency (prop item "total_cost"))
                           (normalizeCurrency (prop item "deposit_amount")) = true ->
           W_vendor_deposit_adjusted name ∈ ws) /\
          List.filter is_duplicate_warning ws = []
  end.
Proof.
  unfold sanitizeVendors_item, vendor_identity.
  destruct (is_object item); cbn [negb].
  2:{ intros [= <-]. eexists; split; reflexivity. }
  destruct (canonicalizeVendorType (prop item "vendor_type")) as [vt|e]; cbn;
    [|discriminate].
  destruct (toTrimmedString (prop item "vendor_name")) as [name|].
  2:{ intros [= <-]. eexists; split; reflexivity. }
  destruct vt as [type|].
  2:{ intros [= <-]. eexists; split; reflexivity. }
  destruct (bool_decide (vendorKey type name ∈ v_seen st)).
  { intros [= <-]. reflexivity. }
  set (total := normalizeCurrency (prop item "total_cost")).
  set (deposit := normalizeCurrency (prop item "deposit_amount")).
  destruct (lowered_or_null (prop item "status")) as [status|e]; cbn.
  2:{ destruct total, deposit; try destruct (_ <? _)%Z; cbn; discriminate. }
  intros H.
  set (ws1 := if deposit_exceeds total deposit
              then [W_vendor_deposit_adjusted name] else []).
  set (ws2 := if some_nonempty status
                 && negb (some_nonempty (member_or_null VENDOR_STATUSES status))
              then [W_vendor_status_dropped (prop item "status") name] else []).
  assert (st' = mkVendors
              (v_sanitized st ++
                 [ {| Vendor.vendor_type := type;
           Vendor.vendor_name := name;
           Vendor.vendor_contact_name := toTrimmedString (prop item "vendor_contact_name");
           Vendor.vendor_email := validateEmail (prop item "vendor_email");
           Vendor.vendor_phone := validatePhone (prop item "vendor_phone");
           Vendor.total_cost := total;
           Vendor.deposit_amount := clamped_deposit total deposit;
           Vendor.deposit_paid := normalizeBoolean (prop item "deposit_paid");
           Vendor.deposit_date := normalizeDate (prop item "deposit_date");
           Vendor.balance_due := normalizeCurrency (prop item "balance_due");
           Vendor.final_payment_date := normalizeDate (prop item "final_payment_date");
           Vendor.final_payment_paid := normalizeBoolean (prop item "final_payment_paid");
           Vendor.status := member_or_null VENDOR_STATUSES status;
           Vendor.contract_signed := normalizeBoolean (prop item "contract_signed");
           Vendor.contract_date := normalizeDate (prop item "contract_date");
           Vendor.service_date := normalizeDate (prop item "service_date");
           Vendor.notes := toTrimmedString (prop item "notes") |} ])
              (v_warnings st ++ ws1 ++ ws2) ({[vendorKey type name]} ∪ v_seen st)) as ->.
  { subst ws1 ws2. unfold clamped_deposit, deposit_exceeds.
    destruct total as [t|], deposit as [d|]; try destruct (t <? d)%Z;
      destruct (some_nonempty status && _); injection H as <-;
      rewrite <- ?app_assoc, ?app_nil_r; reflexivity. }
  eexists _, (ws1 ++ ws2). split; [reflexivity|].
  repeat split; try reflexivity.
  - intros Hex. apply elem_of_app. left. subst ws1. rewrite Hex.
    apply list_elem_of_singleton. reflexivity.
  - subst ws1 ws2.
    destruct (deposit_exceeds total deposit), (some_nonempty status && _); reflexivity.
Qed.

Lemma forEach_invariant {St : Type} (body : St -> nat -> value -> result St)
    (P : St -> Prop) :
  (forall st i x st', P st -> body st i x = Ok st' -> P st') ->
  forall items i st st', P st -> forEach body i items st = Ok st' -> P st'.
Proof.
  intros Hstep items. induction items as [|x items IH]; intros i st st' HP; cbn [forEach].
  - intros [= <-]. exact HP.
  - intros (st1 & H1 & H2)%bind_Ok_inv. eauto.
Qed.

Lemma forEach_relation {St : Type} (body : St -> nat -> value -> result St)
    (R : St -> St -> Prop) :
  (forall st, R st st) ->
  (forall st1 st2 st3, R st1 st2 -> R st2 st3 -> R st1 st3) ->
  (forall st i x st', body st i x = Ok st' -> R st st') ->
  forall items i st st', forEach body i items st = Ok st' -> R st st'.
Proof.
  intros Hrefl Htrans Hstep items.
  induction items as [|x items IH]; intros i st st'; cbn [forEach].
  - intros [= <-]. apply Hrefl.
  - intros (st1 & H1 & H2)%bind_Ok_inv. eauto.
Qed.

Lemma vendors_extend_refl st : vendors_extend st st.
Proof. split; exists []; rewrite app_nil_r; reflexivity. Qed.

Lemma vendors_extend_trans st1 st2 st3 :
  vendors_extend st1 st2 -> vendors_extend st2 st3 -> vendors_extend st1 st3.
Proof.
  intros [[vs1 Hv1] [ws1 Hw1]] [[vs2 Hv2] [ws2 Hw2]]. split.
  - exists (vs1 ++ vs2). rewrite Hv2, Hv1, app_assoc. reflexivity.
  - exists (ws1 ++ ws2). rewrite Hw2, Hw1, app_assoc. reflexivity.
Qed.

Lemma sanitizeVendors_item_extend st i item st' :
  sanitizeVendors_item st i item = Ok st' -> vendors_extend st st'.
Proof.
  intros H%sanitizeVendors_item_cases.
  destruct (vendor_identity item) as [[type name]|].
  - destruct (bool_decide _).
    + subst st'. split; [exists []; cbn; rewrite app_nil_r | eexists]; reflexivity.
    + destruct H as (v & ws & -> & _). split; eexists; reflexivity.
  - destruct H as (w & -> & _).
    split; [exists []; cbn; rewrite app_nil_r | eexists]; reflexivity.
Qed.

Lemma sanitizeVendors_forEach_extend items i st st' :
  forEach sanitizeVendors_item i items st = Ok st' -> vendors_extend st st'.
Proof.
  apply forEach_relation.
  - apply vendors_extend_refl.
  - apply vendors_extend_trans.
  - apply sanitizeVendors_item_extend.
Qed.

(** The keys seen after a run are those seen before and those of the items
    that have an identity. *)
Lemma sanitizeVendors_forEach_seen items i st st' :
  forEach sanitizeVendors_item i items st = Ok st' ->
  v_seen st' = v_seen st ∪ list_to_set (omap vendor_key items).
Proof.
  revert i st. induction items as [|x items IH]; intros i st; cbn [forEach].
  - intros [= <-]. cbn. set_solver.
  - intros (st1 & H1 & H2)%bind_Ok_inv. rewrite (IH _ _ H2).
    apply sanitizeVendors_item_cases in H1. cbn [omap list_omap].
    unfold vendor_key at 2.
    destruct (vendor_identity x) as [[type name]|]; cbn [fmap option_fmap option_map].
    + destruct (bool_decide _) eqn:Hseen.
      * subst st1. cbn. apply bool_decide_eq_true in Hseen. set_solver.
      * destruct H1 as (v & ws & -> & _). cbn. set_solver.
    + destruct H1 as (w & -> & _). reflexivity.
Qed.

Lemma clamped_deposit_le total deposit t d :
  total = Some t -> clamped_deposit total deposit = Some d -> (d <= t)%Z.
Proof.
  intros ->. unfold clamped_deposit. destruct deposit as [d'|]; [|discriminate].
  destruct (Z.ltb_spec t d'); intros [= <-]; lia.
Qed.

Lemma sanitizeVendors_item_inv st i item st' :
  vendors_inv st -> sanitizeVendors_item st i item = Ok st' -> vendors_inv st'.
Proof.
  intros [Hseen Hnd Hcl] H%sanitizeVendors_item_cases.
  destruct (vendor_identity item) as [[type name]|].
  - destruct (bool_decide _) eqn:Hin.
    + subst st'. split; assumption.
    + destruct H as (v & ws & -> & Ht & Hn & Htot & Hdep & _).
      apply bool_decide_eq_false in Hin.
      assert (Hkey : key_of_vendor v = vendorKey type name)
        by (unfold key_of_vendor; rewrite Ht, Hn; reflexivity).
      split; cbn.
      * rewrite fmap_app, list_to_set_app_L, Hseen. cbn. rewrite Hkey. set_solver.
      * rewrite fmap_app. apply NoDup_app. split; [assumption|]. split.
        -- intros k Hk [->|[]%elem_of_nil]%elem_of_cons.
           apply Hin. rewrite Hseen, <- Hkey. apply elem_of_list_to_set. exact Hk.
        -- apply NoDup_singleton.
      * apply Forall_app. split; [assumption|]. constructor; [|constructor].
        intros t d Et Ed. rewrite Htot in Et. rewrite Hdep in Ed.
        eapply clamped_deposit_le; eassumption.
  - destruct H as (w & -> & _). split; assumption.
Qed.

Lemma sanitizeVendors_forEach_inv items i st st' :
  vendors_inv st -> forEach sanitizeVendors_item i items st = Ok st' -> vendors_inv st'.
Proof. apply forEach_invariant. intros. eapply sanitizeVendors_item_inv; eauto. Qed.

Lemma vendors_inv_init : vendors_inv (mkVendors [] [] ∅).
Proof. split; cbn; [reflexivity | constructor | constructor]. Qed.

Lemma sanitizeVendors_inv_array vendors san ws :
  sanitizeVendors vendors = Ok (san, ws) ->
  exists items st,
    forEach sanitizeVendors_item 0 items (mkVendors [] [] ∅) = Ok st /\
    san = v_sanitized st /\ ws = v_warnings st /\
    (forall l, vendors = VArr l -> l = items).
Proof.
  unfold sanitizeVendors. destruct (nonempty_array vendors) as [items|] eqn:Hne.
  - intros (st & Hst & [= <- <-])%bind_Ok_inv. exists items, st.
    repeat split; try assumption.
    intros l ->. destruct l; cbn in Hne; [discriminate|]. injection Hne as <-. reflexivity.
  - intros [= <- <-]. exists [], (mkVendors [] [] ∅). repeat split.
    intros l ->. destruct l; [reflexivity | discriminate].
Qed.

(** An item with an identity whose key no earlier item has is emitted, with
    its deposit clamped. *)
Lemma sanitizeVendors_first_emitted pre item post type name san ws :
  sanitizeVendors (VArr (pre ++ item :: post)) = Ok (san, ws) ->
  vendor_identity item = Some (type, name) ->
  (forall x, x ∈ pre -> vendor_key x <> Some (vendorKey type name)) ->
  exists v,
    v ∈ san /\ Vendor.vendor_type v = type /\ Vendor.vendor_name v = name /\
    Vendor.total_cost v = normalizeCurrency (prop item "total_cost") /\
    Vendor.deposit_amount v =
      clamped_deposit (normalizeCurrency (prop item "total_cost"))
                      (normalizeCurrency (prop item "deposit_amount")) /\
    (deposit_exceeds (normalizeCurrency (prop item "total_cost"))
                     (normalizeCurrency (prop item "deposit_amount")) = true ->
     W_vendor_deposit_adjusted name ∈ ws).
Proof.
  intros (items & st & Hrun & -> & -> & Hitems)%sanitizeVendors_inv_array Hid Hfresh.
  rewrite <- (Hitems _ eq_refl) in Hrun.
  apply forEach_split in Hrun as (st1 & st2 & H1 & H2 & H3).
  apply sanitizeVendors_forEach_seen in H1 as Hseen. cbn in Hseen.
  apply sanitizeVendors_item_cases in H2. rewrite Hid in H2.
  rewrite bool_decide_eq_false_2 in H2.
  2:{ rewrite Hseen. intros Hin. apply elem_of_union in Hin as [Hin|Hin]; [set_solver|].
      apply elem_of_list_to_set, list_elem_of_omap in Hin as (x & Hx & Hk).
      exact (Hfresh x Hx Hk). }
  destruct H2 as (v & ws2 & -> & Ht & Hn & Htot & Hdep & Hadj & _).
  apply sanitizeVendors_forEach_extend in H3 as [[vs Hvs] [ws3 Hws]]. cbn in Hvs, Hws.
  exists v. rewrite Hvs, Hws. repeat split; try assumption.
  - rewrite !elem_of_app, list_elem_of_singleton. auto.
  - intros Hex. rewrite !elem_of_app. auto.
Qed.

(** An item whose key an earlier item has is answered by a duplicate
    warning. *)
Lemma sanitizeVendors_later_warned pre item post type name san ws :
  sanitizeVendors (VArr (pre ++ item :: post)) = Ok (san, ws) ->
  vendor_identity item = Some (type, name) ->
  (exists x, x ∈ pre /\ vendor_key x = Some (vendorKey type name)) ->
  W_vendor_duplicate name type ∈ ws.
Proof.
  intros (items & st & Hrun & -> & -> & Hitems)%sanitizeVendors_inv_array Hid (x & Hx & Hk).
  rewrite <- (Hitems _ eq_refl) in Hrun.
  apply forEach_split in Hrun as (st1 & st2 & H1 & H2 & H3).
  apply sanitizeVendors_forEach_seen in H1 as Hseen. cbn in Hseen.
  apply sanitizeVendors_item_cases in H2. rewrite Hid in H2.
  rewrite bool_decide_eq_true_2 in H2.
  2:{ rewrite Hseen. apply elem_of_union_r, elem_of_list_to_set, list_elem_of_omap. eauto. }
  subst st2.
  apply sanitizeVendors_forEach_extend in H3 as [_ [ws3 Hws]]. cbn in Hws.
  rewrite Hws, !elem_of_app, list_elem_of_singleton. auto.
Qed.

(** Every item with an identity is emitted or answered by a duplicate
    warning. *)
Lemma sanitizeVendors_forEach_accounting items i st st' :
  forEach sanitizeVendors_item i items st = Ok st' ->
  (length (v_sanitized st') + count_duplicate_warnings (v_warnings st')
   = length (v_sanitized st) + count_duplicate_warnings (v_warnings st)
     + length (omap vendor_identity items))%nat.
Proof.
  revert i st. induction items as [|x items IH]; intros i st; cbn [forEach].
  - intros [= <-]. cbn. lia.
  - intros (st1 & H1 & H2)%bind_Ok_inv. rewrite (IH _ _ H2).
    apply sanitizeVendors_item_cases in H1. cbn [omap list_omap].
    unfold count_duplicate_warnings.
    destruct (vendor_identity x) as [[type name]|].
    + destruct (bool_decide _).
      * subst st1. cbn [v_warn v_sanitized v_warnings].
        rewrite List.filter_app, !length_app. cbn. lia.
      * destruct H1 as (v & ws & -> & _ & _ & _ & _ & _ & Hnd).
        cbn [v_sanitized v_warnings].
        rewrite List.filter_app, !length_app, Hnd. cbn. lia.
    + destruct H1 as (w & -> & Hw). cbn [v_warn v_sanitized v_warnings].
      rewrite List.filter_app, !length_app. cbn. rewrite Hw. cbn. lia.
Qed.

Lemma vendorKey_inj t1 t2 n1 n2 :
  no_colon t1 = true -> no_colon t2 = true ->
  vendorKey t1 n1 = vendorKey t2 n2 ->
  t1 = t2 /\ Str.toLowerCase n1 = Str.toLowerCase n2.
Proof.
  unfold vendorKey. revert t2.
  induction t1 as [|c1 t1 IH]; intros [|c2 t2]; cbn [no_colon String.append].
  - intros _ _ [= H]. auto.
  - intros _ [Hc _]%andb_prop [= <- _]. discriminate.
  - intros [Hc _]%andb_prop _ [= -> _]. discriminate.
  - intros [_ H1]%andb_prop [_ H2]%andb_prop [= -> Heq].
    destruct (IH _ H1 H2 Heq) as [-> ?]. auto.
Qed.

Lemma Map_of_lookup entries k v :
  Map_of entries !! k = Some v -> (k, v) ∈ entries.
Proof.
  unfold Map_of.
  assert (forall m : gmap string string,
             foldl (fun m e => <[e.1 := e.2]> m) m entries !! k = Some v ->
                    m !! k = Some v \/ (k, v) ∈ entries) as H.
  { induction entries as [|[k' v'] entries IH]; intros m; cbn [foldl].
    - auto.
    - intros [Hm|Hin]%IH.
      + cbn in Hm. apply lookup_insert_Some in Hm as [[<- <-]|[_ Hm]].
        * right. left.
        * auto.
      + right. right. exact Hin. }
  intros [Hm|Hin]%H; [|exact Hin]. rewrite lookup_empty in Hm. discriminate.
Qed.

Lemma canonical_vendor_type_no_colon raw type :
  canonicalizeVendorType raw = Ok (Some type) -> no_colon type = true.
Proof.
  unfold canonicalizeVendorType.
  destruct (negb (truthy raw)); [discriminate|].
  destruct (call_trim raw) as [trimmed|]; unfold mbind, result_bind; [|discriminate].
  destruct (Str.is_empty _); [discriminate|].
  destruct (bool_decide _) eqn:Hin.
  - intros [= <-]. apply bool_decide_eq_true in Hin.
    unfold VENDOR_TYPES, Set_of in Hin. apply elem_of_list_to_set in Hin.
    revert Hin. generalize (Str.toLowerCase trimmed). apply Forall_forall.
    unfold vendorTypes_list. repeat constructor.
  - unfold Map_get_or_null.
    destruct (VENDOR_TYPE_ALIASES !! _) as [v|] eqn:Hl; [|discriminate].
    destruct (Str.is_empty v); [discriminate|]. intros [= ->].
    apply Map_of_lookup in Hl.
    assert (Forall (fun e : string * string => no_colon e.2 = true) vendorTypeAliases_list) as Hall
      by (unfold vendorTypeAliases_list; repeat constructor).
    rewrite Forall_forall in Hall. exact (Hall _ Hl).
Qed.

Lemma vendor_identity_no_colon item type name :
  vendor_identity item = Some (type, name) -> no_colon type = true.
Proof.
  unfold vendor_identity. destruct (is_object item); [|discriminate].
  destruct (toTrimmedString _); [|discriminate].
  destruct (canonicalizeVendorType _) as [[ty|]|] eqn:Hc; try discriminate.
  intros [= <- _]. eapply canonical_vendor_type_no_colon; eassumption.
Qed.

(** What an iteration does to the list of emitted vendors: nothing, or it
    appends the record of its own item. *)
Lemma sanitizeVendors_item_record st index item st' :
  sanitizeVendors_item st index item = Ok st' ->
  match vendor_identity item with
  | Some (type, name) =>
      if bool_decide (vendorKey type name ∈ v_seen st)
      then v_sanitized st' = v_sanitized st
      else v_sanitized st' = v_sanitized st ++ [vendor_of_item item type name]
  | None => v_sanitized st' = v_sanitized st
  end.
Proof.
  unfold sanitizeVendors_item, vendor_identity, vendor_of_item.
  destruct (is_object item); cbn [negb].
  2:{ intros [= <-]. reflexivity. }
  destruct (canonicalizeVendorType (prop item "vendor_type")) as [vt|e]; cbn;
    [|discriminate].
  destruct (toTrimmedString (prop item "vendor_name")) as [name|].
  2:{ intros [= <-]. reflexivity. }
  destruct vt as [type|].
  2:{ intros [= <-]. reflexivity. }
  destruct (bool_decide (vendorKey type name ∈ v_seen st)).
  { intros [= <-]. reflexivity. }
  destruct (lowered_or_null (prop item "status")) as [status|e]; cbn.
  2:{ destruct (normalizeCurrency (prop item "total_cost")),
               (normalizeCurrency (prop item "deposit_amount"));
        try destruct (_ <? _)%Z; cbn; discriminate. }
  unfold clamped_deposit.
  destruct (normalizeCurrency (prop item "total_cost")) as [t|],
           (normalizeCurrency (prop item "deposit_amount")) as [d|];
    try destruct (t <? d)%Z; destruct (some_nonempty status && _);
    intros [= <-]; reflexivity.
Qed.

(** The first item of an identity is emitted as the record built from
    its own fields. *)
Lemma sanitizeVendors_first_record pre item post type name san ws :
  sanitizeVendors (VArr (pre ++ item :: post)) = Ok (san, ws) ->
  vendor_identity item = Some (type, name) ->
  (forall x, x ∈ pre -> vendor_key x <> Some (vendorKey type name)) ->
  vendor_of_item item type name ∈ san.
Proof.
  intros (items & st & Hrun & -> & -> & Hitems)%sanitizeVendors_inv_array Hid Hfresh.
  rewrite <- (Hitems _ eq_refl) in Hrun.
  apply forEach_split in Hrun as (st1 & st2 & H1 & H2 & H3).
  apply sanitizeVendors_forEach_seen in H1 as Hseen. cbn in Hseen.
  apply sanitizeVendors_item_record in H2. rewrite Hid in H2.
  rewrite bool_decide_eq_false_2 in H2.
  2:{ rewrite Hseen. intros Hin. apply elem_of_union in Hin as [Hin|Hin]; [set_solver|].
      apply elem_of_list_to_set, list_elem_of_omap in Hin as (x & Hx & Hk).
      exact (Hfresh x Hx Hk). }
  apply sanitizeVendors_forEach_extend in H3 as [[vs Hvs] _].
  rewrite Hvs, H2, !elem_of_app, list_elem_of_singleton. auto.
Qed.

(** Every emitted vendor is the record of an item of the list. *)
Lemma sanitizeVendors_emitted_record items san ws v :
  sanitizeVendors (VArr items) = Ok (san, ws) ->
  v ∈ san ->
  exists item type name,
    item ∈ items /\ vendor_identity item = Some (type, name) /\
    v = vendor_of_item item type name.
Proof.
  intros (items' & st & Hrun & -> & _ & Hitems)%sanitizeVendors_inv_array.
  rewrite <- (Hitems _ eq_refl) in Hrun. clear Hitems. revert v.
  assert (forall items0 i st0 st1,
            forEach sanitizeVendors_item i items0 st0 = Ok st1 ->
            forall v, v ∈ v_sanitized st1 ->
              v ∈ v_sanitized st0 \/
              exists item type name,
                item ∈ items0 /\ vendor_identity item = Some (type, name) /\
                v = vendor_of_item item type name) as Hgen.
  { clear. induction items0 as [|x items0 IH]; intros i st0 st1; cbn [forEach].
    - intros [= <-] v Hv. left. exact Hv.
    - intros (st' & H1 & H2)%bind_Ok_inv v Hv.
      destruct (IH _ _ _ H2 v Hv) as [Hin | (item & type & name & Hi & Hid & ->)].
      + apply sanitizeVendors_item_record in H1.
        destruct (vendor_identity x) as [[type name]|] eqn:Hid.
        * destruct (bool_decide _); rewrite H1 in Hin; [left; exact Hin|].
          apply elem_of_app in Hin as [Hin | ->%list_elem_of_singleton]; [left; exact Hin|].
          right. exists x, type, name. split; [apply elem_of_cons; auto | auto].
        * rewrite H1 in Hin. left. exact Hin.
      + right. exists item, type, name. split; [apply elem_of_cons; auto | auto]. }
  intros v Hv. destruct (Hgen _ _ _ _ Hrun v Hv) as [[]%elem_of_nil | H]. exact H.
Qed.

(** *** Tasks *)

Lemma append_length (a b : string) :
  String.length (a +:+ b) = (String.length a + String.length b)%nat.
Proof.
  induction a as [|c a IH]; [reflexivity|].
  change (S (String.length (a +:+ b)) = S (String.length a + String.length b)).
  rewrite IH. reflexivity.
Qed.

Lemma append_inj_length (a b x y : string) :
  String.length a = String.length b -> a +:+ x = b +:+ y -> a = b /\ x = y.
Proof.
  revert b. induction a as [|c a IH]; intros [|c' b]; cbn; try discriminate.
  - auto.
  - intros [= Hl] [= -> Heq]. destruct (IH _ Hl Heq) as [-> ->]. auto.
Qed.

Lemma last_char_append (a x : string) :
  x <> "" -> last_char (a +:+ x) = last_char x.
Proof.
  intros Hx. induction a as [|c a IH]; [reflexivity|].
  change (String c a +:+ x) with (String c (a +:+ x)).
  cbn [last_char]. rewrite IH.
  destruct (a +:+ x) eqn:E; [|reflexivity].
  destruct a; [contradiction | discriminate].
Qed.

Lemma date_shape_facts s :
  DATE_REGEX_test s = true ->
  String.length s = 10%nat /\ exists c, last_char s = Some c /\ Str.is_digit c = true.
Proof.
  intros (y1&y2&y3&y4&m1&m2&d1&d2&->&Hd)%DATE_REGEX_shape.
  split; [reflexivity|]. exists d2. split; [reflexivity|].
  rewrite Forall_forall in Hd. apply Hd. do 7 right. left.
Qed.

Lemma str_or_date_ok d :
  date_ok d ->
  (d = None /\ str_or d "none" = "none") \/
  (exists s, d = Some s /\ str_or d "none" = s /\ DATE_REGEX_test s = true).
Proof.
  intros H. destruct d as [s|]; [right | left; auto].
  exists s. pose proof (H s eq_refl) as Hs. repeat split; [|exact Hs].
  destruct s; [discriminate | reflexivity].
Qed.

Lemma taskDeterministicId_inj n1 n2 d1 d2 :
  date_ok d1 -> date_ok d2 ->
  taskDeterministicId n1 d1 = taskDeterministicId n2 d2 ->
  Str.toLowerCase n1 = Str.toLowerCase n2 /\ d1 = d2.
Proof.
  unfold taskDeterministicId. intros H1 H2 Heq.
  destruct (str_or_date_ok _ H1) as [[-> E1]|(s1 & -> & E1 & S1)],
           (str_or_date_ok _ H2) as [[-> E2]|(s2 & -> & E2 & S2)];
    rewrite ?E1, ?E2 in Heq; clear E1 E2;
    assert (Hlen := f_equal String.length Heq);
    rewrite !append_length in Hlen; cbn in Hlen;
    assert (Hlast := f_equal last_char Heq).
  - apply append_inj_length in Heq as [? _]; [auto | lia].
  - exfalso. apply date_shape_facts in S2 as (_ & c & Hc & Hd).
    rewrite (last_char_append _ ("::" +:+ "none")) in Hlast by discriminate.
    rewrite (last_char_append _ ("::" +:+ s2)) in Hlast
      by (destruct s2; discriminate).
    rewrite (last_char_append "::" s2) in Hlast by (intros ->; discriminate).
    rewrite Hc in Hlast. cbn in Hlast. injection Hlast as <-. discriminate.
  - exfalso. apply date_shape_facts in S1 as (_ & c & Hc & Hd).
    rewrite (last_char_append _ ("::" +:+ "none")) in Hlast by discriminate.
    rewrite (last_char_append _ ("::" +:+ s1)) in Hlast
      by (destruct s1; discriminate).
    rewrite (last_char_append "::" s1) in Hlast by (intros ->; discriminate).
    rewrite Hc in Hlast. cbn in Hlast. injection Hlast as ->. discriminate.
  - apply date_shape_facts in S1 as (L1 & _). apply date_shape_facts in S2 as (L2 & _).
    apply append_inj_length in Heq as [? Heq]; [|lia].
    apply (append_inj_length "::" "::") in Heq as [_ ->]; [auto | reflexivity].
Qed.

Lemma sanitizeTasks_item_cases st index item st' :
  sanitizeTasks_item st index item = Ok st' ->
  match task_identity item with
  | None =>
      exists w, st' = mkTasks (t_sanitized st) (t_warnings st ++ [w]) (t_seen st) /\
                is_task_duplicate_warning w = false
  | Some (name, due) =>
      exists ws0, List.filter is_task_duplicate_warning ws0 = [] /\
        if bool_decide (taskDeterministicId name due ∈ t_seen st)
        then st' = mkTasks (t_sanitized st)
                     (t_warnings st ++ ws0 ++ [W_task_duplicate name (str_or due "unspecified")])
                     (t_seen st)
        else exists t,
            st' = mkTasks (t_sanitized st ++ [t]) (t_warnings st ++ ws0)
                    ({[taskDeterministicId name due]} ∪ t_seen st) /\
            Task.task_name t = name /\ Task.due_date t = due
  end.
Proof.
  unfold sanitizeTasks_item, task_identity.
  destruct (is_object item); cbn [negb].
  2:{ intros [= <-]. eexists; split; reflexivity. }
  destruct (toTrimmedString (prop item "task_name")) as [name|].
  2:{ intros [= <-]. eexists; split; reflexivity. }
  set (due := normalizeDate (prop item "due_date")).
  destruct (canonicalizeTaskCategory (prop item "category")) as [canonical|e];
    unfold mbind at 1, result_bind at 1; [|discriminate].
  destruct (lowered_or_null (prop item "status")) as [status|e];
    unfold mbind at 1, result_bind at 1; [|discriminate].
  destruct (lowered_or_null (prop item "priority")) as [priority|e];
    unfold mbind at 1, result_bind at 1; [|discriminate].
  set (w1 := if truthy (prop item "due_date") && negb (some_nonempty due)
             then [W_task_invalid_due_date name] else []).
  set (w2 := if truthy (prop item "category") && negb (some_nonempty (or_null canonical))
             then [W_task_category_dropped (prop item "category") name] else []).
  set (w3 := if some_nonempty status
                && negb (some_nonempty (member_or_null TASK_STATUSES status))
             then [W_task_status_dropped (prop item "status") name] else []).
  set (w4 := if some_nonempty priority
                && negb (some_nonempty (member_or_null TASK_PRIORITIES priority))
             then [W_task_priority_dropped (prop item "priority") name] else []).
  intros H. exists (w1 ++ w2 ++ w3 ++ w4). split.
  { subst w1 w2 w3 w4.
    repeat match goal with |- context [if ?c then _ else _] => destruct c end; reflexivity. }
  destruct (bool_decide (taskDeterministicId name due ∈ t_seen st)).
  - injection H as <-. f_equal. subst w1 w2 w3 w4.
    repeat match goal with |- context [if ?c then _ else _] => destruct c end;
      cbn [app]; rewrite <- ?app_assoc; reflexivity.
  - injection H as <-. eexists. split.
    { f_equal; try reflexivity. subst w1 w2 w3 w4.
      repeat match goal with |- context [if ?c then _ else _] => destruct c end;
        cbn [app]; rewrite <- ?app_assoc, ?app_nil_r; reflexivity. }
    split; reflexivity.
Qed.

Lemma tasks_extend_refl st : tasks_extend st st.
Proof. split; exists []; rewrite app_nil_r; reflexivity. Qed.

Lemma tasks_extend_trans st1 st2 st3 :
  tasks_extend st1 st2 -> tasks_extend st2 st3 -> tasks_extend st1 st3.
Proof.
  intros [[ts1 Ht1] [ws1 Hw1]] [[ts2 Ht2] [ws2 Hw2]]. split.
  - exists (ts1 ++ ts2). rewrite Ht2, Ht1, app_assoc. reflexivity.
  - exists (ws1 ++ ws2). rewrite Hw2, Hw1, app_assoc. reflexivity.
Qed.

Lemma sanitizeTasks_item_extend st i item st' :
  sanitizeTasks_item st i item = Ok st' -> tasks_extend st st'.
Proof.
  intros H%sanitizeTasks_item_cases.
  destruct (task_identity item) as [[name due]|].
  - destruct H as (ws0 & _ & H). destruct (bool_decide _).
    + subst st'. split; [exists []; cbn; rewrite app_nil_r | eexists]; reflexivity.
    + destruct H as (t & -> & _). split; eexists; reflexivity.
  - destruct H as (w & -> & _).
    split; [exists []; cbn; rewrite app_nil_r | eexists]; reflexivity.
Qed.

Lemma sanitizeTasks_forEach_extend items i st st' :
  forEach sanitizeTasks_item i items st = Ok st' -> tasks_extend st st'.
Proof.
  apply forEach_relation.
  - apply tasks_extend_refl.
  - apply tasks_extend_trans.
  - apply sanitizeTasks_item_extend.
Qed.

Lemma sanitizeTasks_forEach_seen items i st st' :
  forEach sanitizeTasks_item i items st = Ok st' ->
  t_seen st' = t_seen st ∪ list_to_set (omap task_key items).
Proof.
  revert i st. induction items as [|x items IH]; intros i st; cbn [forEach].
  - intros [= <-]. cbn. set_solver.
  - intros (st1 & H1 & H2)%bind_Ok_inv. rewrite (IH _ _ H2).
    apply sanitizeTasks_item_cases in H1. cbn [omap list_omap].
    unfold task_key at 2.
    destruct (task_identity x) as [[name due]|]; cbn [fmap option_fmap option_map].
    + destruct H1 as (ws0 & _ & H1). destruct (bool_decide _) eqn:Hseen.
      * subst st1. cbn. apply bool_decide_eq_true in Hseen. set_solver.
      * destruct H1 as (t & -> & _). cbn. set_solver.
    + destruct H1 as (w & -> & _). reflexivity.
Qed.

Lemma task_identity_date_ok item name due :
  task_identity item = Some (name, due) -> date_ok due.
Proof.
  unfold task_identity. destruct (is_object item); [|discriminate].
  destruct (toTrimmedString _) as [trimmed|]; [|discriminate].
  intros [= _ <-] d Hd. eapply normalizeDate_shape; eassumption.
Qed.

Lemma sanitizeTasks_item_inv st i item st' :
  tasks_inv st -> sanitizeTasks_item st i item = Ok st' -> tasks_inv st'.
Proof.
  intros [Hseen Hnd Hdt] H%sanitizeTasks_item_cases.
  destruct (task_identity item) as [[name due]|] eqn:Hid.
  - destruct H as (ws0 & _ & H). destruct (bool_decide _) eqn:Hin.
    + subst st'. split; assumption.
    + destruct H as (t & -> & Hn & Hd).
      apply bool_decide_eq_false in Hin.
      assert (Hkey : key_of_task t = taskDeterministicId name due)
        by (unfold key_of_task; rewrite Hn, Hd; reflexivity).
      split; cbn.
      * rewrite fmap_app, list_to_set_app_L, Hseen. cbn. rewrite Hkey. set_solver.
      * rewrite fmap_app. apply NoDup_app. split; [assumption|]. split.
        -- intros k Hk [->|[]%elem_of_nil]%elem_of_cons.
           apply Hin. rewrite Hseen, <- Hkey. apply elem_of_list_to_set. exact Hk.
        -- apply NoDup_singleton.
      * apply Forall_app. split; [assumption|]. constructor; [|constructor].
        rewrite Hd. eapply task_identity_date_ok; eassumption.
  - destruct H as (w & -> & _). split; assumption.
Qed.

Lemma sanitizeTasks_forEach_inv items i st st' :
  tasks_inv st -> forEach sanitizeTasks_item i items st = Ok st' -> tasks_inv st'.
Proof. apply forEach_invariant. intros. eapply sanitizeTasks_item_inv; eauto. Qed.

Lemma tasks_inv_init : tasks_inv (mkTasks [] [] ∅).
Proof. split; cbn; [reflexivity | constructor | constructor]. Qed.

Lemma sanitizeTasks_inv_array tasks san ws :
  sanitizeTasks tasks = Ok (san, ws) ->
  exists items st,
    forEach sanitizeTasks_item 0 items (mkTasks [] [] ∅) = Ok st /\
    san = t_sanitized st /\ ws = t_warnings st /\
    (forall l, tasks = VArr l -> l = items).
Proof.
  unfold sanitizeTasks. destruct (nonempty_array tasks) as [items|] eqn:Hne.
  - intros (st & Hst & [= <- <-])%bind_Ok_inv. exists items, st.
    repeat split; try assumption.
    intros l ->. destruct l; cbn in Hne; [discriminate|]. injection Hne as <-. reflexivity.
  - intros [= <- <-]. exists [], (mkTasks [] [] ∅). repeat split.
    intros l ->. destruct l; [reflexivity | discriminate].
Qed.

Lemma sanitizeTasks_forEach_accounting items i st st' :
  forEach sanitizeTasks_item i items st = Ok st' ->
  (length (t_sanitized st') + count_task_duplicate_warnings (t_warnings st')
   = length (t_sanitized st) + count_task_duplicate_warnings (t_warnings st)
     + length (omap task_identity items))%nat.
Proof.
  revert i st. induction items as [|x items IH]; intros i st; cbn [forEach].
  - intros [= <-]. cbn. lia.
  - intros (st1 & H1 & H2)%bind_Ok_inv. rewrite (IH _ _ H2).
    apply sanitizeTasks_item_cases in H1. cbn [omap list_omap].
    unfold count_task_duplicate_warnings.
    destruct (task_identity x) as [[name due]|].
    + destruct H1 as (ws0 & Hnd & H1). destruct (bool_decide _).
      * subst st1. cbn [t_sanitized t_warnings].
        rewrite !List.filter_app, !length_app, Hnd. cbn. lia.
      * destruct H1 as (t & -> & _). cbn [t_sanitized t_warnings].
        rewrite List.filter_app, !length_app, Hnd. cbn. lia.
    + destruct H1 as (w & -> & Hw). cbn [t_sanitized t_warnings].
      rewrite List.filter_app, !length_app. cbn. rewrite Hw. cbn. lia.
Qed.

(** A task item whose key no earlier item has is emitted. *)
Lemma sanitizeTasks_first_emitted pre item post name due san ws :
  sanitizeTasks (VArr (pre ++ item :: post)) = Ok (san, ws) ->
  task_identity item = Some (name, due) ->
  (forall x, x ∈ pre -> task_key x <> Some (taskDeterministicId name due)) ->
  exists t, t ∈ san /\ Task.task_name t = name /\ Task.due_date t = due.
Proof.
  intros (items & st & Hrun & -> & -> & Hitems)%sanitizeTasks_inv_array Hid Hfresh.
  rewrite <- (Hitems _ eq_refl) in Hrun.
  apply forEach_split in Hrun as (st1 & st2 & H1 & H2 & H3).
  apply sanitizeTasks_forEach_seen in H1 as Hseen. cbn in Hseen.
  apply sanitizeTasks_item_cases in H2. rewrite Hid in H2.
  destruct H2 as (ws0 & _ & H2).
  rewrite bool_decide_eq_false_2 in H2.
  2:{ rewrite Hseen. intros Hin. apply elem_of_union in Hin as [Hin|Hin]; [set_solver|].
      apply elem_of_list_to_set, list_elem_of_omap in Hin as (x & Hx & Hk).
      exact (Hfresh x Hx Hk). }
  destruct H2 as (t & -> & Hn & Hd).
  apply sanitizeTasks_forEach_extend in H3 as [[ts Hts] _]. cbn in Hts.
  exists t. rewrite Hts. repeat split; try assumption.
  rewrite !elem_of_app, list_elem_of_singleton. auto.
Qed.

(** A task item whose key an earlier item has is answered by a duplicate
    warning. *)
Lemma sanitizeTasks_later_warned pre item post name due san ws :
  sanitizeTasks (VArr (pre ++ item :: post)) = Ok (san, ws) ->
  task_identity item = Some (name, due) ->
  (exists x, x ∈ pre /\ task_key x = Some (taskDeterministicId name due)) ->
  W_task_duplicate name (str_or due "unspecified") ∈ ws.
Proof.
  intros (items & st & Hrun & -> & -> & Hitems)%sanitizeTasks_inv_array Hid (x & Hx & Hk).
  rewrite <- (Hitems _ eq_refl) in Hrun.
  apply forEach_split in Hrun as (st1 & st2 & H1 & H2 & H3).
  apply sanitizeTasks_forEach_seen in H1 as Hseen. cbn in Hseen.
  apply sanitizeTasks_item_cases in H2. rewrite Hid in H2.
  destruct H2 as (ws0 & _ & H2).
  rewrite bool_decide_eq_true_2 in H2.
  2:{ rewrite Hseen. apply elem_of_union_r, elem_of_list_to_set, list_elem_of_omap. eauto. }
  subst st2.
  apply sanitizeTasks_forEach_extend in H3 as [_ [ws3 Hws]]. cbn in Hws.
  rewrite Hws, !elem_of_app, list_elem_of_singleton. auto.
Qed.

(** Every identity among the items is the identity of an emitted task. *)
Lemma sanitizeTasks_identity_represented items item name due san ws :
  sanitizeTasks (VArr items) = Ok (san, ws) ->
  item ∈ items ->
  task_identity item = Some (name, due) ->
  exists t, t ∈ san /\
    Str.toLowerCase (Task.task_name t) = Str.toLowerCase name /\ Task.due_date t = due.
Proof.
  intros (items' & st & Hrun & -> & -> & Hitems)%sanitizeTasks_inv_array Hin Hid.
  rewrite <- (Hitems _ eq_refl) in Hrun.
  apply sanitizeTasks_forEach_seen in Hrun as Hseen. cbn in Hseen.
  apply sanitizeTasks_forEach_inv in Hrun as [Hs _ Hdt]; [|apply tasks_inv_init].
  assert (taskDeterministicId name due ∈ t_seen st) as Hk.
  { rewrite Hseen. apply elem_of_union_r, elem_of_list_to_set, list_elem_of_omap.
    exists item. split; [exact Hin|]. unfold task_key. rewrite Hid. reflexivity. }
  rewrite Hs in Hk. apply elem_of_list_to_set, list_elem_of_fmap in Hk as (t & Hk & Ht).
  exists t. split; [exact Ht|].
  rewrite Forall_forall in Hdt. symmetry in Hk.
  apply taskDeterministicId_inj in Hk; [exact Hk | apply Hdt; exact Ht |].
  eapply task_identity_date_ok; eassumption.
Qed.

(** What an iteration does to the list of emitted tasks: nothing, or it
    appends the record of its own item. *)
Lemma sanitizeTasks_item_record st index item st' :
  sanitizeTasks_item st index item = Ok st' ->
  match task_identity item with
  | Some (name, due) =>
      if bool_decide (taskDeterministicId name due ∈ t_seen st)
      then t_sanitized st' = t_sanitized st
      else t_sanitized st' = t_sanitized st ++ [task_of_item item name]
  | None => t_sanitized st' = t_sanitized st
  end.
Proof.
  unfold sanitizeTasks_item, task_identity, task_of_item.
  destruct (is_object item); cbn [negb].
  2:{ intros [= <-]. reflexivity. }
  destruct (toTrimmedString (prop item "task_name")) as [name|].
  2:{ intros [= <-]. reflexivity. }
  destruct (canonicalizeTaskCategory (prop item "category")) as [canonical|e];
    unfold mbind, result_bind; [|discriminate].
  destruct (lowered_or_null (prop item "status")) as [status|e]; [|discriminate].
  destruct (lowered_or_null (prop item "priority")) as [priority|e]; [|discriminate].
  destruct (bool_decide _); intros [= <-]; reflexivity.
Qed.

(** The first item of an identity is emitted as the record built from
    its own fields. *)
Lemma sanitizeTasks_first_record pre item post name due san ws :
  sanitizeTasks (VArr (pre ++ item :: post)) = Ok (san, ws) ->
  task_identity item = Some (name, due) ->
  (forall x, x ∈ pre -> task_key x <> Some (taskDeterministicId name due)) ->
  task_of_item item name ∈ san.
Proof.
  intros (items & st & Hrun & -> & -> & Hitems)%sanitizeTasks_inv_array Hid Hfresh.
  rewrite <- (Hitems _ eq_refl) in Hrun.
  apply forEach_split in Hrun as (st1 & st2 & H1 & H2 & H3).
  apply sanitizeTasks_forEach_seen in H1 as Hseen. cbn in Hseen.
  apply sanitizeTasks_item_record in H2. rewrite Hid in H2.
  rewrite bool_decide_eq_false_2 in H2.
  2:{ rewrite Hseen. intros Hin. apply elem_of_union in Hin as [Hin|Hin]; [set_solver|].
      apply elem_of_list_to_set, list_elem_of_omap in Hin as (x & Hx & Hk).
      exact (Hfresh x Hx Hk). }
  apply sanitizeTasks_forEach_extend in H3 as [[ts Hts] _].
  rewrite Hts, H2, !elem_of_app, list_elem_of_singleton. auto.
Qed.

(** Every emitted task is the record of an item of the list. *)
Lemma sanitizeTasks_emitted_record items san ws t :
  sanitizeTasks (VArr items) = Ok (san, ws) ->
  t ∈ san ->
  exists item name due,
    item ∈ items /\ task_identity item = Some (name, due) /\
    t = task_of_item item name.
Proof.
  intros (items' & st & Hrun & -> & _ & Hitems)%sanitizeTasks_inv_array.
  rewrite <- (Hitems _ eq_refl) in Hrun. clear Hitems. revert t.
  assert (forall items0 i st0 st1,
            forEach sanitizeTasks_item i items0 st0 = Ok st1 ->
            forall t, t ∈ t_sanitized st1 ->
              t ∈ t_sanitized st0 \/
              exists item name due,
                item ∈ items0 /\ task_identity item = Some (name, due) /\
                t = task_of_item item name) as Hgen.
  { clear. induction items0 as [|x items0 IH]; intros i st0 st1; cbn [forEach].
    - intros [= <-] t Ht. left. exact Ht.
    - intros (st' & H1 & H2)%bind_Ok_inv t Ht.
      destruct (IH _ _ _ H2 t Ht) as [Hin | (item & name & due & Hi & Hid & ->)].
      + apply sanitizeTasks_item_record in H1.
        destruct (task_identity x) as [[name due]|] eqn:Hid.
        * destruct (bool_decide _); rewrite H1 in Hin; [left; exact Hin|].
          apply elem_of_app in Hin as [Hin | ->%list_elem_of_singleton]; [left; exact Hin|].
          right. exists x, name, due. split; [apply elem_of_cons; auto | auto].
        * rewrite H1 in Hin. left. exact Hin.
      + right. exists item, name, due. split; [apply elem_of_cons; auto | auto]. }
  intros t Ht. destruct (Hgen _ _ _ _ Hrun t Ht) as [[]%elem_of_nil | H]. exact H.
Qed.

(** *** Budget items *)

Section MapLemmas.
Context {V : Type}.
Implicit Types (m : list (string * V)) (k : string) (v : V).

Lemma Map_get_set_eq k v m : Map_get k (Map_set k v m) = Some v.
Proof.
  induction m as [|[k' v'] m IH]; cbn.
  - rewrite String.eqb_refl. reflexivity.
  - destruct (String.eqb_spec k k') as [<-|Hne]; cbn.
    + rewrite String.eqb_refl. reflexivity.
    + destruct (String.eqb_spec k k'); [contradiction | exact IH].
Qed.

Lemma Map_get_set_ne k k' v m : k <> k' -> Map_get k' (Map_set k v m) = Map_get k' m.
Proof.
  intros Hne. induction m as [|[k0 v0] m IH]; cbn.
  - destruct (String.eqb_spec k' k); [congruence | reflexivity].
  - destruct (String.eqb_spec k k0) as [<-|Hne0]; cbn.
    + destruct (String.eqb_spec k' k); [congruence | reflexivity].
    + destruct (String.eqb_spec k' k0); [reflexivity | exact IH].
Qed.

Lemma Map_get_elem_of k v m : Map_get k m = Some v -> (k, v) ∈ m.
Proof.
  induction m as [|[k' v'] m IH]; cbn; [discriminate|].
  destruct (String.eqb_spec k k') as [<-|Hne].
  - intros [= ->]. left.
  - intros H. right. auto.
Qed.

Lemma Map_get_None_keys k m : Map_get k m = None <-> k ∉ m.*1.
Proof.
  induction m as [|[k' v'] m IH]; cbn.
  - split; [intros _ []%elem_of_nil | reflexivity].
  - rewrite elem_of_cons. destruct (String.eqb_spec k k') as [<-|Hne].
    + split; [discriminate | intros []; auto].
    + rewrite IH. tauto.
Qed.

Lemma elem_of_Map_get k v m : NoDup m.*1 -> (k, v) ∈ m -> Map_get k m = Some v.
Proof.
  induction m as [|[k' v'] m IH]; cbn; [intros _ []%elem_of_nil|].
  intros [Hk Hnd]%NoDup_cons [[= -> ->]|Hin]%elem_of_cons.
  - rewrite String.eqb_refl. reflexivity.
  - destruct (String.eqb_spec k k') as [<-|Hne]; [|auto].
    exfalso. apply Hk. apply list_elem_of_fmap. exists (k, v). auto.
Qed.

Lemma Map_set_keys k v m :
  (Map_set k v m).*1 = if Map_has k m then m.*1 else m.*1 ++ [k].
Proof.
  unfold Map_has. induction m as [|[k' v'] m IH]; cbn; [reflexivity|].
  destruct (String.eqb_spec k k') as [<-|Hne]; cbn; [reflexivity|].
  rewrite IH. destruct (Map_get k m); reflexivity.
Qed.

Lemma Map_set_NoDup k v m : NoDup m.*1 -> NoDup (Map_set k v m).*1.
Proof.
  intros Hnd. rewrite Map_set_keys. unfold Map_has.
  destruct (Map_get k m) eqn:E; [exact Hnd|].
  apply NoDup_app. split; [exact Hnd|]. split; [|apply NoDup_singleton].
  intros x Hx ->%list_elem_of_singleton. apply Map_get_None_keys in E. contradiction.
Qed.

End MapLemmas.

Lemma toTrimmedString_truthy v old :
  overwrite_truthy (toTrimmedString v) old = overwrite (toTrimmedString v) old.
Proof.
  unfold overwrite_truthy, toTrimmedString.
  destruct v; try reflexivity.
  destruct (Str.is_empty (Str.trim s)) eqn:E; [reflexivity|].
  cbn. rewrite E. reflexivity.
Qed.

Lemma normalizeDate_truthy v old :
  overwrite_truthy (normalizeDate v) old = overwrite (normalizeDate v) old.
Proof.
  unfold overwrite_truthy.
  destruct (normalizeDate v) as [d|] eqn:E; [|reflexivity].
  apply normalizeDate_shape, DATE_REGEX_shape in E as (?&?&?&?&?&?&?&?&->&_).
  reflexivity.
Qed.

Lemma sanitizeBudgetItems_item_cases aggregated warnings index item st' :
  sanitizeBudgetItems_item (aggregated, warnings) index item = Ok st' ->
  match budget_accept item with
  | None =>
      exists w, st' = (aggregated, warnings ++ [w]) /\
                forall c, is_merged_warning c w = false
  | Some a =>
      let c := BudgetItem.category a in
      st' = (Map_set c
               (budget_merge
                  (default (BudgetItem.mk c None None None None None None)
                           (Map_get c aggregated)) a)
               aggregated,
             warnings ++ (if Map_has c aggregated then [W_budget_merged c] else []))
  end.
Proof.
  unfold sanitizeBudgetItems_item, budget_accept.
  destruct (is_object item); cbn [negb].
  2:{ intros [= <-]. eexists; split; reflexivity. }
  destruct (canonicalizeBudgetCategory (prop item "category")) as [[category|]|e];
    unfold mbind, result_bind; [| |discriminate].
  2:{ intros [= <-]. eexists; split; reflexivity. }
  set (existing := default _ (Map_get category aggregated)).
  rewrite !toTrimmedString_truthy, normalizeDate_truthy.
  destruct (normalizeCurrency (prop item "budgeted_amount")) as [b|],
           (normalizeCurrency (prop item "spent_amount")) as [s|],
           (normalizeCurrency (prop item "transaction_amount")) as [t|];
    intros [= <-]; cbn [BudgetItem.category];
    try (eexists; split; reflexivity);
    (f_equal; destruct (Map_has category aggregated); rewrite ?app_nil_r; reflexivity).
Qed.

Lemma budget_group_snoc items x c :
  budget_group (items ++ [x]) c
  = budget_group items c
    ++ match budget_accept x with
       | Some a => if decide (BudgetItem.category a = c) then [a] else []
       | None => []
       end.
Proof.
  unfold budget_group. rewrite omap_app, filter_app. f_equal.
  cbn [omap list_omap]. destruct (budget_accept x) as [a|]; [|reflexivity].
  rewrite filter_cons, filter_nil. reflexivity.
Qed.

Lemma last_some_snoc {A : Type} (xs : list (option A)) (x : option A) :
  last_some (xs ++ [x]) = overwrite x (last_some xs).
Proof.
  unfold last_some. rewrite omap_app. cbn [omap list_omap].
  destruct x as [v|]; cbn.
  - apply last_snoc.
  - rewrite app_nil_r. reflexivity.
Qed.

Lemma spent_total_snoc g a :
  spent_total (g ++ [a])
  = match BudgetItem.spent_amount a with
    | Some spent => Some (Number_add (num_or_zero (spent_total g)) spent)
    | None => spent_total g
    end.
Proof.
  unfold spent_total. rewrite omap_app. cbn [omap list_omap].
  destruct (BudgetItem.spent_amount a) as [s|]; cbn [option_fmap app].
  - destruct (omap BudgetItem.spent_amount g) as [|y ys] eqn:E.
    + reflexivity.
    + change ((y :: ys) ++ [s]) with (y :: (ys ++ [s])). cbn iota.
      change (y :: (ys ++ [s])) with ((y :: ys) ++ [s]).
      rewrite foldl_app. reflexivity.
  - rewrite app_nil_r. reflexivity.
Qed.

Lemma merged_of_nil c : merged_of [] (BudgetItem.mk c None None None None None None).
Proof. split; reflexivity. Qed.

Lemma merged_of_snoc g b a :
  merged_of g b -> merged_of (g ++ [a]) (budget_merge b a).
Proof.
  intros [Hs Hb Ha Hd He Hn]. split; cbn [budget_merge BudgetItem.spent_amount
    BudgetItem.budgeted_amount BudgetItem.transaction_amount BudgetItem.transaction_date
    BudgetItem.transaction_description BudgetItem.notes];
    rewrite ?fmap_app, ?spent_total_snoc;
    try match goal with |- context [?f <$> [a]] => change (f <$> [a]) with [f a] end;
    rewrite ?last_some_snoc, ?Hs, ?Hb, ?Ha, ?Hd, ?He, ?Hn; reflexivity.
Qed.

Lemma sanitizeBudgetItems_item_inv items st x i st' :
  budget_inv items st ->
  sanitizeBudgetItems_item st i x = Ok st' ->
  budget_inv (items ++ [x]) st'.
Proof.
  destruct st as [agg ws]. intros [Habs Hmer Hnd Hw] H%sanitizeBudgetItems_item_cases.
  cbn [fst snd] in *.
  destruct (budget_accept x) as [a|] eqn:Hacc.
  - cbn zeta in H. subst st'. set (ca := BudgetItem.category a) in *.
    split; cbn [fst snd].
    + intros c. rewrite budget_group_snoc, Hacc. fold ca.
      destruct (decide (ca = c)) as [<-|Hne]; cbv iota.
      * rewrite Map_get_set_eq. split; [discriminate|].
        intros Hnil%app_eq_nil. destruct Hnil; discriminate.
      * rewrite Map_get_set_ne by exact Hne. rewrite app_nil_r. apply Habs.
    + intros c b. rewrite budget_group_snoc, Hacc. fold ca.
      destruct (decide (ca = c)) as [<-|Hne]; cbv iota.
      * rewrite Map_get_set_eq. intros [= <-].
        destruct (Map_get ca agg) as [e|] eqn:Hget; cbn [default].
        -- destruct (Hmer _ _ Hget) as [Hc Hm]. split; [exact Hc|].
           apply merged_of_snoc. exact Hm.
        -- split; [reflexivity|]. apply Habs in Hget. rewrite Hget.
           apply (merged_of_snoc []). apply merged_of_nil.
      * rewrite Map_get_set_ne by exact Hne. rewrite app_nil_r. apply Hmer.
    + apply Map_set_NoDup. exact Hnd.
    + intros c. rewrite budget_group_snoc, Hacc. fold ca.
      unfold count_merged_warnings in *. rewrite List.filter_app, !length_app, Hw.
      destruct (decide (ca = c)) as [<-|Hne]; cbv iota.
      * unfold Map_has. destruct (Map_get ca agg) eqn:Hget; cbn.
        -- rewrite String.eqb_refl. cbn.
           assert (budget_group items ca <> []) as Hg
             by (intros Hg%Habs; congruence).
           destruct (budget_group items ca); [contradiction|]. cbn. lia.
        -- apply Habs in Hget. rewrite Hget. reflexivity.
      * destruct (Map_has ca agg); cbn; [|lia].
        destruct (String.eqb_spec ca c); [contradiction|]. cbn. lia.
  - destruct H as (w & -> & Hnw). split; cbn [fst snd].
    + intros c. rewrite budget_group_snoc, Hacc, app_nil_r. apply Habs.
    + intros c b. rewrite budget_group_snoc, Hacc, app_nil_r. apply Hmer.
    + exact Hnd.
    + intros c. rewrite budget_group_snoc, Hacc, app_nil_r.
      unfold count_merged_warnings in *. rewrite List.filter_app, length_app, Hw.
      cbn. rewrite Hnw. cbn. lia.
Qed.

Lemma sanitizeBudgetItems_forEach_inv items st :
  forEach sanitizeBudgetItems_item 0 items ([], []) = Ok st -> budget_inv items st.
Proof.
  revert st. induction items as [|x items IH] using rev_ind; intros st.
  - intros [= <-]. split; cbn.
    + intros _. split; reflexivity.
    + intros c b [=].
    + constructor.
    + reflexivity.
  - rewrite forEach_app. intros (st1 & H1 & H2)%bind_Ok_inv.
    cbn [forEach] in H2. apply bind_Ok_inv in H2 as (st2 & H2 & [= <-]).
    eapply sanitizeBudgetItems_item_inv; eauto.
Qed.

Lemma round_double_exact z : (Z.abs z <= 2 ^ 53)%Z -> round_double z = z.
Proof. intros H%Z.leb_le. unfold round_double. rewrite H. reflexivity. Qed.

Lemma round_double_nonneg z : (0 <= z)%Z -> (0 <= round_double z)%Z.
Proof.
  intros Hz. unfold round_double.
  destruct (Z.abs z <=? 2 ^ 53)%Z; [exact Hz|].
  apply Z.mul_nonneg_nonneg; [apply Z.sgn_nonneg; exact Hz|].
  apply Z.mul_nonneg_nonneg; [|apply Z.pow_nonneg; lia].
  assert (0 <= Z.abs z / 2 ^ (Z.log2 (Z.abs z) - 52))%Z as Hq
    by (apply Z_div_nonneg_nonneg; [lia | apply Z.pow_nonneg; lia]).
  destruct (_ <? _)%Z; [exact Hq|].
  destruct (_ <? _)%Z; [lia|].
  destruct (Z.even _); lia.
Qed.

Lemma normalizeCurrency_nonneg v z : normalizeCurrency v = Some z -> (0 <= z)%Z.
Proof.
  assert (forall q, Qle_bool 0 q = true -> (0 <= Math_round q)%Z) as Hround.
  { intros q H%Qle_bool_iff. unfold Math_round.
    change 0%Z with (Qfloor 0). apply Qfloor_resp_le. Lqa.lra. }
  destruct v as [| | |q|s| |]; try discriminate; cbn [normalizeCurrency].
  - destruct (Qle_bool 0 q) eqn:E; [|discriminate]. intros [= <-]. auto.
  - destruct (Str.is_empty s); [discriminate|].
    destruct (Str.is_empty (Str.keep currency_char s)); [discriminate|].
    destruct (parseFloat _) as [parsed|]; [|discriminate].
    destruct (Qle_bool 0 parsed) eqn:E; [|discriminate]. intros [= <-]. auto.
Qed.

Lemma budget_group_spent_nonneg items c :
  Forall (fun x => (0 <= x)%Z) (omap BudgetItem.spent_amount (budget_group items c)).
Proof.
  apply Forall_forall. intros x (a & Ha & Hx)%list_elem_of_omap.
  apply list_elem_of_filter in Ha as [_ (item & _ & Hacc)%list_elem_of_omap].
  unfold budget_accept in Hacc. destruct (is_object item); [|discriminate].
  destruct (canonicalizeBudgetCategory _) as [[category|]|]; try discriminate.
  destruct (normalizeCurrency (prop item "spent_amount")) as [s|] eqn:Hs.
  - assert (x = s) as ->.
    { destruct (normalizeCurrency (prop item "budgeted_amount")),
               (normalizeCurrency (prop item "transaction_amount"));
        injection Hacc as <-; cbn in Hx; congruence. }
    eapply normalizeCurrency_nonneg. exact Hs.
  - destruct (normalizeCurrency (prop item "budgeted_amount")),
             (normalizeCurrency (prop item "transaction_amount"));
      try discriminate; injection Hacc as <-; discriminate.
Qed.

Lemma foldr_add_snoc (xs : list Z) (s : Z) :
  foldr Z.add 0%Z (xs ++ [s]) = (foldr Z.add 0%Z xs + s)%Z.
Proof. induction xs as [|x xs IH]; cbn; [lia | rewrite IH; lia]. Qed.

Lemma foldr_add_nonneg (xs : list Z) :
  Forall (fun x => (0 <= x)%Z) xs -> (0 <= foldr Z.add 0%Z xs)%Z.
Proof. induction 1; cbn; lia. Qed.

(** Below 2^53 the sum of amounts is exact. *)
Lemma Number_add_exact (xs : list Z) :
  Forall (fun x => (0 <= x)%Z) xs ->
  (foldr Z.add 0%Z xs <= 2 ^ 53)%Z ->
  foldl Number_add 0%Z xs = foldr Z.add 0%Z xs.
Proof.
  induction xs as [|s xs IH] using rev_ind; [reflexivity|].
  intros [Hxs Hs]%Forall_app. apply Forall_cons in Hs as [Hs _].
  rewrite foldr_add_snoc, foldl_app. cbn [foldl]. intros Hle.
  pose proof (foldr_add_nonneg xs Hxs) as Hnn.
  rewrite IH by (try assumption; lia).
  unfold Number_add. apply round_double_exact. lia.
Qed.

Lemma spent_total_exact g :
  Forall (fun x => (0 <= x)%Z) (omap BudgetItem.spent_amount g) ->
  (forall s, spent_sum g = Some s -> (s <= 2 ^ 53)%Z) ->
  spent_total g = spent_sum g.
Proof.
  unfold spent_total, spent_sum. intros Hnn Hle.
  destruct (omap BudgetItem.spent_amount g) as [|x xs]; [reflexivity|].
  f_equal. apply Number_add_exact; [exact Hnn|]. apply Hle. reflexivity.
Qed.

(** *** Profile fragment *)

Lemma forOf_app {A St : Type} (body : St -> A -> result St) (l1 l2 : list A) (st : St) :
  forOf body (l1 ++ l2) st = forOf body l1 st ≫= forOf body l2.
Proof.
  revert st. induction l1 as [|x l1 IH]; intros st; cbn [forOf app]; [reflexivity|].
  destruct (body st x) as [st'|e]; cbn; [apply IH | reflexivity].
Qed.

Lemma weddingInfo_entry_cases sanitized warnings key raw st' :
  weddingInfo_entry (sanitized, warnings) (key, raw) = Ok st' ->
  if is_blank raw then st' = (sanitized, warnings) else
  match validate key raw with
  | Some f => st' = (<[key := f]> sanitized, warnings)
  | None =>
      match rejection_warning key raw with
      | Some w => st' = (sanitized, warnings ++ [w]) /\ ToString_throws raw = false
      | None => st' = (sanitized, warnings)
      end
  end.
Proof.
  unfold weddingInfo_entry, validate, rejection_warning, push_template.
  destruct (is_blank raw); [intros [= <-]; reflexivity|].
  repeat match goal with
         | |- context [String.eqb key ?k] => destruct (String.eqb key k)
         end;
    try match goal with
        | |- context [Str.includes text_keys key] => destruct (Str.includes text_keys key)
        end;
    try match goal with
        | |- context [normalizeDate raw] => destruct (normalizeDate raw)
        | |- context [formatWeddingTimeForSupabase raw] =>
            destruct (formatWeddingTimeForSupabase raw)
        | |- context [normalizeInteger raw] => destruct (normalizeInteger raw)
        | |- context [normalizeCurrency raw] => destruct (normalizeCurrency raw)
        | |- context [toTrimmedString raw] => destruct (toTrimmedString raw)
        end;
    cbn [fmap option_fmap option_map];
    try (intros [= <-]; reflexivity);
    (destruct (ToString_throws raw); cbn; [discriminate | intros [= <-]; auto]).
Qed.

Lemma weddingInfo_entry_inv entries st key raw st' :
  key ∉ entries.*1 ->
  profile_inv entries st ->
  weddingInfo_entry st (key, raw) = Ok st' ->
  profile_inv (entries ++ [(key, raw)]) st'.
Proof.
  destruct st as [san ws]. intros Hfresh [Hf Hw] H%weddingInfo_entry_cases.
  cbn [fst snd] in *.
  assert (Hold : forall k (r : value), (k, r) ∈ entries -> k <> key).
  { intros k r Hin ->. apply Hfresh, list_elem_of_fmap. exists (key, r). auto. }
  split; cbn [fst snd].
  - intros k f. setoid_rewrite elem_of_app. setoid_rewrite list_elem_of_singleton.
    destruct (is_blank raw) eqn:Hb.
    + subst st'. cbn [fst]. rewrite Hf. split.
      * intros (r & ? & ? & ?). eauto.
      * intros (r & [?|[= -> ->]] & Hnb & ?); [eauto | congruence].
    + destruct (validate key raw) as [f0|] eqn:Hv.
      * subst st'. cbn [fst]. rewrite lookup_insert_Some, Hf. split.
        -- intros [[<- <-]|[Hne (r & ? & ? & ?)]]; eauto 6.
        -- intros (r & [Hin|[= -> ->]] & Hnb & Hv').
           ++ right. split; [intros <-; eapply Hold; eauto | eauto].
           ++ left. split; congruence.
      * assert (st'.1 = san) as ->
          by (destruct (rejection_warning key raw); [destruct H as [-> _]|subst]; reflexivity).
        rewrite Hf. split.
        -- intros (r & ? & ? & ?). eauto.
        -- intros (r & [?|[= -> ->]] & Hnb & ?); [eauto | congruence].
  - rewrite omap_app. cbn [omap list_omap]. unfold entry_warning at 2. cbn [fst snd].
    destruct (is_blank raw).
    + subst st'. cbn. rewrite app_nil_r. exact Hw.
    + destruct (validate key raw).
      * subst st'. cbn. rewrite app_nil_r. exact Hw.
      * destruct (rejection_warning key raw).
        -- destruct H as [-> _]. cbn. rewrite Hw. reflexivity.
        -- subst st'. cbn. rewrite app_nil_r. exact Hw.
Qed.

Lemma sanitizeWeddingInfo_forOf_inv entries st :
  NoDup entries.*1 ->
  forOf weddingInfo_entry entries (∅, []) = Ok st ->
  profile_inv entries st.
Proof.
  revert st. induction entries as [|[key raw] entries IH] using rev_ind; intros st Hnd.
  - intros [= <-]. split; cbn; [|reflexivity].
    intros key f. rewrite lookup_empty. split; [discriminate|].
    intros (? & []%elem_of_nil & _).
  - rewrite forOf_app. intros (st1 & H1 & H2)%bind_Ok_inv.
    cbn [forOf] in H2. apply bind_Ok_inv in H2 as (st2 & H2 & [= <-]).
    rewrite fmap_app in Hnd. apply NoDup_app in Hnd as (Hnd & Hdisj & _).
    eapply weddingInfo_entry_inv; [|apply IH; eassumption|exact H2].
    intros Hin. apply (Hdisj _ Hin). cbn. left.
Qed.

(** Claim C4, amended.  For a profile object (distinct keys) on which
    [sanitizeWeddingInfo] returns: a key is in the output exactly when its
    raw value is present, not blank, and accepted by the normalizer of a
    recognized key, and it then holds the normalized value; a checked key
    (date, time, guest count, total budget, venue cost) whose non-blank raw
    value is rejected is omitted and answered by one warning naming the key
    and the raw value; blank values, unrecognized keys and the free-text
    keys produce no warning, so a rejected free-text value is omitted
    silently. *)
Theorem sanitizeWeddingInfo_validated_fields (weddingInfo : value)
    (sanitized : gmap string field) (warnings : list warning) :
  NoDup (Object_entries weddingInfo).*1 ->
  sanitizeWeddingInfo weddingInfo = Ok (sanitized, warnings) ->
  (forall key f,
     sanitized !! key = Some f <->
     exists raw, (key, raw) ∈ Object_entries weddingInfo /\
                 is_blank raw = false /\ validate key raw = Some f) /\
  (forall key f, sanitized !! key = Some f -> key ∈ checked_keys ++ text_keys) /\
  warnings = omap entry_warning (Object_entries weddingInfo) /\
  (forall key raw,
     (key, raw) ∈ Object_entries weddingInfo ->
     key ∈ checked_keys -> is_blank raw = false -> validate key raw = None ->
     sanitized !! key = None /\
     exists w, rejection_warning key raw = Some w /\ w ∈ warnings) /\
  (forall key raw,
     (key, raw) ∈ Object_entries weddingInfo ->
     is_blank raw = true \/ key ∉ checked_keys ->
     entry_warning (key, raw) = None).
Proof.
  intros Hnd Hrun.
  assert (profile_inv (Object_entries weddingInfo) (sanitized, warnings)) as [Hf Hw].
  { unfold sanitizeWeddingInfo in Hrun. destruct (is_object weddingInfo) eqn:Hobj.
    - apply sanitizeWeddingInfo_forOf_inv; assumption.
    - injection Hrun as <- <-.
      assert (Object_entries weddingInfo = []) as ->
        by (destruct weddingInfo; try reflexivity; discriminate).
      apply (sanitizeWeddingInfo_forOf_inv [] (∅, [])); [constructor | reflexivity]. }
  cbn [fst snd] in *.
  split; [exact Hf|]. split; [|split; [exact Hw|split]].
  - intros key f (raw & _ & _ & Hv)%Hf. unfold validate in Hv.
    rewrite elem_of_app. unfold checked_keys.
    repeat match type of Hv with
           | context [String.eqb key ?k] =>
               destruct (String.eqb_spec key k) as [->|_];
               [left; rewrite !elem_of_cons; tauto|]
           end.
    unfold Str.includes in Hv. destruct (bool_decide _) eqn:Hin; [|discriminate].
    right. apply bool_decide_eq_true in Hin. exact Hin.
  - intros key raw Hin Hkey Hnb Hv. split.
    + destruct (sanitized !! key) as [f|] eqn:Hl; [|reflexivity].
      apply Hf in Hl as (raw' & Hin' & _ & Hv').
      assert (raw' = raw) as ->; [|congruence].
      apply (elem_of_Map_get _ _ _ Hnd) in Hin, Hin'. congruence.
    + assert (exists w, rejection_warning key raw = Some w) as [w Hw'].
      { unfold checked_keys in Hkey. rewrite !elem_of_cons in Hkey.
        destruct Hkey as [->|[->|[->|[->|[->|[]%elem_of_nil]]]]]; eexists; reflexivity. }
      exists w. split; [exact Hw'|]. rewrite Hw. apply list_elem_of_omap.
      exists (key, raw). split; [exact Hin|].
      unfold entry_warning. cbn [fst snd]. rewrite Hnb, Hv. exact Hw'.
  - intros key raw _ [Hb|Hk]; unfold entry_warning; cbn [fst snd].
    + rewrite Hb. reflexivity.
    + destruct (is_blank raw); [reflexivity|].
      destruct (validate key raw); [reflexivity|].
      unfold rejection_warning.
      repeat match goal with
             | |- context [String.eqb key ?k] =>
                 destruct (String.eqb_spec key k) as [->|_];
                 [exfalso; apply Hk; unfold checked_keys; rewrite !elem_of_cons; tauto|]
             end.
      reflexivity.
Qed.

(** *** Orchestrator and time of day *)

Lemma trim_empty_nonempty text : Str.is_empty text = true -> Str.trim text = "".
Proof. destruct text; [reflexivity | discriminate]. Qed.

(** Claim C1 fails on the code.  On a well-formed document in which
    [vendor_type], [status], [priority] or [category] is a number, and on
    the document [null], [processClaudePayload] throws a [TypeError]
    instead of returning a result. *)
Theorem processClaudePayload_throws_on_numeric_field :
  processClaudePayload Json.parse (VStr payload_numeric_vendor_type) = Throw TypeError /\
  processClaudePayload Json.parse (VStr payload_numeric_status) = Throw TypeError /\
  processClaudePayload Json.parse (VStr payload_numeric_priority) = Throw TypeError /\
  processClaudePayload Json.parse (VStr payload_numeric_category) = Throw TypeError /\
  processClaudePayload Json.parse (VStr "null") = Throw TypeError.
Proof. repeat split; vm_compute; reflexivity. Qed.

(** Claim C2.  For every parser: a text that is empty or blank yields the
    zero-value result, with no warning and no parse error, and is not
    parsed; a text whose trimmed length exceeds the bound yields the
    zero-value result with the size-limit warning alone and no parse error,
    whatever the parser would answer; a text whose trimmed form is not
    empty and within the bound is parsed, and when the parser rejects it
    the result is the zero-value result with the parse error set and the
    parse-failure warning alone. *)
Theorem processClaudePayload_structural_rejection
    (JSON_parse : string -> result value) (text : string) :
  (Str.trim text = "" ->
   processClaudePayload JSON_parse (VStr text) = Ok zero_result) /\
  ((MAX_EXTRACTED_JSON_CHARS < Z.of_nat (String.length (Str.trim text)))%Z ->
   processClaudePayload JSON_parse (VStr text)
   = Ok (mkResult ∅ [] [] [] [W_size_limit] None)) /\
  (forall error,
     Str.trim text <> "" ->
     (Z.of_nat (String.length (Str.trim text)) <= MAX_EXTRACTED_JSON_CHARS)%Z ->
     JSON_parse (Str.trim text) = Throw error ->
     processClaudePayload JSON_parse (VStr text)
     = Ok (mkResult ∅ [] [] [] [W_parse_failed] (Some error))).
Proof.
  unfold processClaudePayload. cbn [truthy]. rewrite negb_involutive.
  destruct (Str.is_empty text) eqn:Htext.
  { rewrite (trim_empty_nonempty _ Htext). split; [reflexivity|]. split.
    - cbn. unfold MAX_EXTRACTED_JSON_CHARS. lia.
    - intros error Hne. contradiction. }
  destruct (Str.trim text) as [|c trimmed] eqn:Htrim.
  { split; [reflexivity|]. split.
    - cbn. unfold MAX_EXTRACTED_JSON_CHARS. lia.
    - intros error Hne. contradiction. }
  cbn [Str.is_empty]. split; [discriminate|]. split.
  - intros Hlen%Z.ltb_lt. rewrite Hlen. reflexivity.
  - intros error _ Hlen Hparse.
    replace (_ <? _)%Z with false by (symmetry; apply Z.ltb_ge; exact Hlen).
    rewrite Hparse. reflexivity.
Qed.

Lemma processClaudePayload_structural_rejection_witness :
  processClaudePayload Json.parse (VStr "   ") = Ok zero_result /\
  processClaudePayload Json.parse (VStr (Str.repeat_char "x" (Z.to_nat 12001)))
  = Ok (mkResult ∅ [] [] [] [W_size_limit] None) /\
  processClaudePayload Json.parse (VStr "{bad json")
  = Ok (mkResult ∅ [] [] [] [W_parse_failed] (Some SyntaxError)).
Proof.
  split; [|split].
  - apply (processClaudePayload_structural_rejection Json.parse "   ").
    vm_compute. reflexivity.
  - apply (processClaudePayload_structural_rejection Json.parse
             (Str.repeat_char "x" (Z.to_nat 12001))).
    vm_compute. reflexivity.
  - apply (processClaudePayload_structural_rejection Json.parse "{bad json").
    + discriminate.
    + vm_compute. discriminate.
    + vm_compute. reflexivity.
Defined.

(** Claim C5 fails on the code.  The examples of the table hold, but the
    am/pm branch checks no range: [13pm] yields [25:00] and [10:75am]
    yields [10:75], neither of which is a time of day, and the profile
    sanitizer stores such a value. *)
Theorem formatWeddingTime_hour_out_of_range :
  formatWeddingTimeForSupabase (VStr "5:30pm") = Some "17:30" /\
  formatWeddingTimeForSupabase (VStr "noon") = Some "12:00" /\
  formatWeddingTimeForSupabase (VStr "14:00") = Some "14:00" /\
  formatWeddingTimeForSupabase (VStr "whenever") = None /\
  formatWeddingTimeForSupabase (VStr "13pm") = Some "25:00" /\
  is_HHMM "25:00" = false /\
  formatWeddingTimeForSupabase (VStr "10:75am") = Some "10:75" /\
  is_HHMM "10:75" = false /\
  sanitizeWeddingInfo (VObj [("wedding_time", VStr "13pm")])
  = Ok ({[ "wedding_time" := FStr "25:00" ]}, []).
Proof. repeat split; vm_compute; reflexivity. Qed.

(** Claim C4 as stated fails: [partner1_name] is a recognized key, the
    number 42 is present and not blank, its normalizer rejects it, and no
    warning is recorded. *)
Lemma sanitizeWeddingInfo_text_key_rejected_silently :
  "partner1_name" ∈ text_keys /\
  is_blank (VNum 42) = false /\
  validate "partner1_name" (VNum 42) = None /\
  sanitizeWeddingInfo (VObj [("partner1_name", VNum 42)]) = Ok (∅, []).
Proof.
  split; [|repeat split; vm_compute; reflexivity].
  unfold text_keys. rewrite !elem_of_cons. tauto.
Qed.

Lemma sanitizeWeddingInfo_validated_fields_witness :
  ex_profile_fields !! "wedding_date" = None /\
  exists w, rejection_warning "wedding_date" (VStr "next spring") = Some w /\
            w ∈ [W_wedding_date (VStr "next spring")].
Proof.
  refine (proj1 (proj2 (proj2 (proj2
    (sanitizeWeddingInfo_validated_fields ex_profile ex_profile_fields
       [W_wedding_date (VStr "next spring")] _ _))))
    "wedding_date" (VStr "next spring") _ _ _ _).
  - refine (bool_decide_unpack _ _). vm_compute. exact I.
  - vm_compute. reflexivity.
  - left.
  - left.
  - reflexivity.
  - reflexivity.
Defined.

(** *** The branches of the time normalizer that bound their fields *)

Lemma first_match_Some {A B : Type} (k : A -> option B) (alts : list A) (b : B) :
  first_match k alts = Some b -> exists a, a ∈ alts /\ k a = Some b.
Proof.
  induction alts as [|a alts IH]; cbn [first_match]; [discriminate|].
  destruct (k a) as [b'|] eqn:Hk.
  - intros [= ->]. exists a. split; [left | exact Hk].
  - intros (a' & Hin & Ha')%IH. exists a'. split; [right; exact Hin | exact Ha'].
Qed.

Lemma search_Some {B : Type} (at_head : string -> option B) (s : string) (b : B) :
  search at_head s = Some b -> exists s', at_head s' = Some b.
Proof.
  induction s as [|c s IH]; cbn [search].
  - destruct (at_head "") eqn:E; [intros [= ->]; eauto | discriminate].
  - destruct (at_head (String c s)) eqn:E; [intros [= ->]; eauto | exact IH].
Qed.

Lemma search_b_Some {B : Type} (at_head : string -> option B) (prev : option ascii)
    (s : string) (b : B) :
  search_b at_head prev s = Some b -> exists s', at_head s' = Some b.
Proof.
  revert prev. induction s as [|c s IH]; intros prev; cbn [search_b].
  - destruct (word_boundary prev ""); [|discriminate].
    destruct (at_head "") eqn:E; [intros [= ->]; eauto | discriminate].
  - destruct (if word_boundary prev (String c s) then at_head (String c s) else None) eqn:E.
    + intros [= ->]. destruct (word_boundary prev (String c s)); [eauto | discriminate].
    + apply IH.
Qed.

Lemma digit_code c :
  Str.is_digit c = true -> (48 <= Str.code c <= 57)%nat.
Proof.
  unfold Str.is_digit, Str.between.
  intros [H1%Nat.leb_le H2%Nat.leb_le]%andb_prop. lia.
Qed.

Lemma between_code lo hi c :
  Str.between lo hi c = true -> (lo <= Str.code c <= hi)%nat.
Proof.
  unfold Str.between. intros [H1%Nat.leb_le H2%Nat.leb_le]%andb_prop. lia.
Qed.

Lemma digits_val_str2 a b :
  Str.digits_val (str2 a b) = (10 * (Str.code a - 48) + (Str.code b - 48))%nat.
Proof. unfold Str.digits_val, str2. cbn [Str.digits_val_acc]. unfold Str.digit_val. lia. Qed.

Lemma digits_val_str1 a : Str.digits_val (str1 a) = (Str.code a - 48)%nat.
Proof. unfold Str.digits_val, str1. cbn [Str.digits_val_acc]. unfold Str.digit_val. lia. Qed.

Lemma is01_code a : is01 a = true -> (48 <= Str.code a <= 49)%nat.
Proof.
  unfold is01. intros [->%Ascii.eqb_eq | ->%Ascii.eqb_eq]%orb_prop; vm_compute; lia.
Qed.

Lemma hour24_alternatives_spec s h r :
  (h, r) ∈ hour24_alternatives s -> is_hour24 h.
Proof.
  unfold hour24_alternatives.
  destruct s as [|a [|b s]].
  - intros []%elem_of_nil.
  - destruct (Str.is_digit a) eqn:Ha; [|intros []%elem_of_nil].
    intros [= -> _]%list_elem_of_singleton. left. eauto.
  - rewrite !elem_of_app. intros [Hin|[Hin|Hin]].
    + destruct (is01 a && Str.is_digit b) eqn:E; [|apply elem_of_nil in Hin; contradiction].
      apply list_elem_of_singleton in Hin as [= -> _].
      apply andb_prop in E as [Ha Hb]. right. exists a, b.
      pose proof (is01_code _ Ha). pose proof (digit_code _ Hb).
      split; [reflexivity|]. split; [|split; [exact Hb | rewrite digits_val_str2; lia]].
      apply andb_true_intro. split; apply Nat.leb_le; lia.
    + destruct (Str.is_digit a) eqn:Ha; [|apply elem_of_nil in Hin; contradiction].
      apply list_elem_of_singleton in Hin as [= -> _]. left. eauto.
    + destruct (Ascii.eqb a "2" && Str.between 48 51 b) eqn:E;
        [|apply elem_of_nil in Hin; contradiction].
      apply list_elem_of_singleton in Hin as [= -> _].
      apply andb_prop in E as [->%Ascii.eqb_eq Hb%between_code]. right. exists "2"%char, b.
      split; [reflexivity|]. split; [reflexivity|]. split.
      * apply andb_true_intro. split; apply Nat.leb_le; lia.
      * rewrite digits_val_str2. change (Str.code "2") with 50%nat. lia.
Qed.

Lemma colon_minutes_spec s m r :
  colon_minutes s = Some (m, r) -> is_minutes m.
Proof.
  unfold colon_minutes.
  destruct s as [|c [|a [|b s]]]; try discriminate;
    try (destruct (Ascii.eqb_spec c ":"); discriminate);
    try (repeat match goal with |- context [match ?x with _ => _ end] => destruct x end;
         discriminate).
  destruct c as [[] [] [] [] [] [] [] []]; try discriminate.
  destruct (Str.between 48 53 a && Str.is_digit b) eqn:E; [|discriminate].
  intros [= <- _]. apply andb_prop in E as [Ha Hb]. exists a, b. auto.
Qed.

Lemma is_HHMM_padded h m :
  is_hour24 h -> is_minutes m -> is_HHMM (Str.padStart0 2 h +:+ ":" +:+ m) = true.
Proof.
  intros [(a & -> & Ha)|(a & b & -> & Ha & Hb & Hle)] (c & d & -> & Hc & Hd).
  - change (Str.padStart0 2 (str1 a) +:+ ":" +:+ str2 c d)
      with (String "0" (String a (String ":" (String c (String d ""))))).
    cbn [is_HHMM]. rewrite Ha, Hc, Hd.
    change (Str.is_digit "0") with true. cbn [andb].
    rewrite !andb_true_r. apply Nat.leb_le. rewrite digits_val_str2.
    pose proof (digit_code _ Ha). change (Str.code "0") with 48%nat. lia.
  - change (Str.padStart0 2 (str2 a b) +:+ ":" +:+ str2 c d)
      with (String a (String b (String ":" (String c (String d ""))))).
    cbn [is_HHMM]. rewrite Ha, Hb, Hc, Hd. cbn [andb].
    rewrite !andb_true_r. apply Nat.leb_le. exact Hle.
Qed.

Lemma hour12_alternatives_spec s h r :
  (h, r) ∈ hour12_alternatives s -> (1 <= Str.digits_val h <= 12)%nat.
Proof.
  unfold hour12_alternatives. destruct s as [|a s]; [intros []%elem_of_nil|].
  rewrite elem_of_app. intros [Hin|Hin].
  - destruct (Str.between 49 57 a) eqn:Ha; [|apply elem_of_nil in Hin; contradiction].
    apply list_elem_of_singleton in Hin as [= -> _].
    apply between_code in Ha. rewrite digits_val_str1. lia.
  - destruct s as [|b s]; [apply elem_of_nil in Hin; contradiction|].
    destruct (Ascii.eqb a "1" && Str.between 48 50 b) eqn:E;
      [|apply elem_of_nil in Hin; contradiction].
    apply list_elem_of_singleton in Hin as [= -> _].
    apply andb_prop in E as [->%Ascii.eqb_eq Hb%between_code].
    rewrite digits_val_str2. change (Str.code "1") with 49%nat. lia.
Qed.

Lemma is_HHMM_hour n :
  (n <= 23)%nat -> is_HHMM (Str.padStart0 2 (Str.nat_to_string n) +:+ ":00") = true.
Proof.
  intros Hn. do 24 (destruct n as [|n]; [vm_compute; reflexivity|]). lia.
Qed.

(** Every branch but the am/pm one yields a time of day: when the am/pm
    pattern does not match, an accepted value is a valid [HH:MM]. *)
Lemma formatWeddingTime_valid_without_ampm (s out : string) :
  search ampm_at (Str.toLowerCase (Str.trim s)) = None ->
  formatWeddingTimeForSupabase (VStr s) = Some out ->
  is_HHMM out = true.
Proof.
  intros Hampm. unfold formatWeddingTimeForSupabase.
  destruct (negb (truthy (VStr s))); [discriminate|].
  destruct (Str.is_empty (Str.trim s)); [discriminate|].
  cbv zeta. rewrite Hampm.
  destruct (String.eqb _ "noon"); [intros [= <-]; reflexivity|].
  destruct (String.eqb _ "midnight"); [intros [= <-]; reflexivity|].
  destruct (directMatch _) as [[h m]|] eqn:Hd.
  { intros [= <-]. unfold directMatch in Hd.
    apply first_match_Some in Hd as ([h' r] & Hin & Hk).
    apply hour24_alternatives_spec in Hin.
    destruct (colon_minutes r) as [[m' r']|] eqn:Hm; [|discriminate].
    apply colon_minutes_spec in Hm.
    assert (h' = h /\ m' = m) as [-> ->].
    { destruct r'; [injection Hk as -> ->; auto|].
      destruct (colon_minutes (String a r')) as [[? [|]]|]; try discriminate.
      injection Hk as -> ->. auto. }
    apply is_HHMM_padded; assumption. }
  destruct (search_b embedded24_at None _) as [[h m]|] eqn:He.
  { intros [= <-]. apply search_b_Some in He as (s' & He). unfold embedded24_at in He.
    apply first_match_Some in He as ([h' r] & Hin & Hk).
    apply hour24_alternatives_spec in Hin.
    destruct (colon_minutes r) as [[m' r']|] eqn:Hm; [|discriminate].
    apply colon_minutes_spec in Hm.
    destruct (word_boundary _ r'); [|discriminate].
    injection Hk as -> ->. apply is_HHMM_padded; assumption. }
  destruct (search_b embeddedHour_at None _) as [h|] eqn:Hh; [|discriminate].
  apply search_b_Some in Hh as (s' & Hh). unfold embeddedHour_at in Hh.
  apply first_match_Some in Hh as ([h' r] & Hin & Hk).
  apply hour12_alternatives_spec in Hin.
  destruct (word_boundary _ r); [|discriminate]. injection Hk as ->.
  destruct (_ && _); [|discriminate].
  intros [= <-]. apply is_HHMM_hour. lia.
Qed.

(** *** Inputs on which the sanitizers return *)

Lemma forEach_returns {St : Type} (body : St -> nat -> value -> result St)
    (safe : value -> bool) :
  (forall st i x, safe x = true -> returns (body st i x)) ->
  forall items i st, forallb safe items = true -> returns (forEach body i items st).
Proof.
  intros Hbody items. induction items as [|x items IH]; intros i st; cbn [forEach forallb].
  - intros _. eexists. reflexivity.
  - intros [Hx Hitems]%andb_prop. destruct (Hbody st i x Hx) as [st' ->]. cbn.
    apply IH. exact Hitems.
Qed.

Lemma call_trim_returns v :
  trimmable v = true -> truthy v = true -> exists s, v = VStr s.
Proof.
  unfold trimmable. intros H Ht. rewrite Ht in H. cbn in H.
  destruct v; try discriminate. eauto.
Qed.

Lemma canonicalizeVendorType_returns v :
  trimmable v = true -> returns (canonicalizeVendorType v).
Proof.
  intros H. unfold canonicalizeVendorType.
  destruct (truthy v) eqn:Ht; cbn [negb]; [|eexists; reflexivity].
  destruct (call_trim_returns _ H Ht) as [s ->]. cbn.
  repeat match goal with |- context [if ?c then _ else _] => destruct c end;
    eexists; reflexivity.
Qed.

Lemma canonicalizeBudgetCategory_returns v :
  trimmable v = true -> returns (canonicalizeBudgetCategory v).
Proof.
  intros H. unfold canonicalizeBudgetCategory.
  destruct (truthy v) eqn:Ht; cbn [negb]; [|eexists; reflexivity].
  destruct (call_trim_returns _ H Ht) as [s ->]. cbn.
  repeat match goal with |- context [if ?c then _ else _] => destruct c end;
    eexists; reflexivity.
Qed.

Lemma canonicalizeTaskCategory_returns v :
  trimmable v = true -> returns (canonicalizeTaskCategory v).
Proof.
  intros H. unfold canonicalizeTaskCategory.
  destruct (truthy v) eqn:Ht; cbn [negb]; [|eexists; reflexivity].
  destruct (call_trim_returns _ H Ht) as [s ->]. cbn.
  repeat match goal with |- context [if ?c then _ else _] => destruct c end;
    eexists; reflexivity.
Qed.

Lemma lowered_or_null_returns v :
  trimmable v = true -> returns (lowered_or_null v).
Proof.
  intros H. unfold lowered_or_null.
  destruct (truthy v) eqn:Ht; [|eexists; reflexivity].
  destruct (call_trim_returns _ H Ht) as [s ->]. eexists. reflexivity.
Qed.

Lemma sanitizeVendors_returns items :
  forallb vendor_item_safe items = true -> returns (sanitizeVendors (VArr items)).
Proof.
  intros H. unfold sanitizeVendors. destruct items as [|item items]; cbn [nonempty_array].
  { eexists. reflexivity. }
  destruct (forEach_returns sanitizeVendors_item vendor_item_safe) with
    (items := item :: items) (i := 0%nat) (st := mkVendors [] [] ∅) as [st ->];
    [|exact H|eexists; reflexivity].
  clear. intros st i x [Hty Hst]%andb_prop. unfold sanitizeVendors_item.
  destruct (negb (is_object x)); [eexists; reflexivity|].
  destruct (canonicalizeVendorType_returns _ Hty) as [vt ->].
  destruct (lowered_or_null_returns _ Hst) as [status Hstatus].
  cbn. destruct (toTrimmedString _); [|eexists; reflexivity].
  destruct vt; [|eexists; reflexivity].
  destruct (bool_decide _); [eexists; reflexivity|].
  rewrite Hstatus. cbn.
  destruct (normalizeCurrency (prop x "total_cost")) as [t|],
           (normalizeCurrency (prop x "deposit_amount")) as [d|];
    try destruct (t <? d)%Z; eexists; reflexivity.
Qed.

Lemma sanitizeBudgetItems_returns items :
  forallb budget_item_safe items = true -> returns (sanitizeBudgetItems (VArr items)).
Proof.
  intros H. unfold sanitizeBudgetItems. destruct items as [|item items]; cbn [nonempty_array].
  { eexists. reflexivity. }
  destruct (forEach_returns sanitizeBudgetItems_item budget_item_safe) with
    (items := item :: items) (i := 0%nat)
    (st := ([], []) : budget_state) as [st ->];
    [|exact H|eexists; reflexivity].
  clear. intros [agg ws] i x Hc. unfold budget_item_safe in Hc.
  unfold sanitizeBudgetItems_item.
  destruct (negb (is_object x)); [eexists; reflexivity|].
  destruct (canonicalizeBudgetCategory_returns _ Hc) as [[c|] ->]; cbn;
    [|eexists; reflexivity].
  destruct (normalizeCurrency (prop x "budgeted_amount")),
           (normalizeCurrency (prop x "spent_amount")),
           (normalizeCurrency (prop x "transaction_amount")); eexists; reflexivity.
Qed.

Lemma sanitizeTasks_returns items :
  forallb task_item_safe items = true -> returns (sanitizeTasks (VArr items)).
Proof.
  intros H. unfold sanitizeTasks. destruct items as [|item items]; cbn [nonempty_array].
  { eexists. reflexivity. }
  destruct (forEach_returns sanitizeTasks_item task_item_safe) with
    (items := item :: items) (i := 0%nat) (st := mkTasks [] [] ∅) as [st ->];
    [|exact H|eexists; reflexivity].
  clear. intros st i x [[Hc Hs]%andb_prop Hp]%andb_prop. unfold sanitizeTasks_item.
  destruct (negb (is_object x)); [eexists; reflexivity|].
  destruct (toTrimmedString _); [|eexists; reflexivity].
  destruct (canonicalizeTaskCategory_returns _ Hc) as [c ->].
  destruct (lowered_or_null_returns _ Hs) as [status ->].
  destruct (lowered_or_null_returns _ Hp) as [priority ->].
  cbn. destruct (bool_decide _); eexists; reflexivity.
Qed.

(** *** Deduplication and merging *)

(** Two entries of a list with distinct images are equal when their
    images are. *)
Lemma NoDup_fmap_eq {A B : Type} (f : A -> B) (l : list A) (x y : A) :
  NoDup (f <$> l) -> x ∈ l -> y ∈ l -> f x = f y -> x = y.
Proof.
  intros Hnd [i Hi]%list_elem_of_lookup_1 [j Hj]%list_elem_of_lookup_1 Heq.
  assert (i = j) as ->.
  { eapply NoDup_lookup; [exact Hnd | |].
    - rewrite list_lookup_fmap, Hi. reflexivity.
    - rewrite list_lookup_fmap, Hj. cbn. rewrite Heq. reflexivity. }
  congruence.
Qed.

(** Claim C6.  [sanitizeVendors] returns on every list whose types and
    statuses are text or falsy.  Whenever it returns, the identity (canonical
    type, lowercased name) is unique among the emitted vendors; an item
    whose identity equals that of an earlier item is answered by a
    duplicate warning that carries its own name; an item whose identity no
    earlier item has is emitted under its own name, as the record built
    from its own fields alone, and that record is the only emitted vendor
    of its identity, so nothing of a later duplicate is merged into it;
    every item that has an identity is either emitted or answered by a
    duplicate warning; and every emitted vendor is the record of an item of
    the list. *)
Theorem sanitizeVendors_dedup (items : list value) :
  (forallb vendor_item_safe items = true -> returns (sanitizeVendors (VArr items))) /\
  forall (san : list Vendor.t) (ws : list warning),
  sanitizeVendors (VArr items) = Ok (san, ws) ->
  NoDup (identity_of_vendor <$> san) /\
  (forall pre a mid b post type name_a name_b,
      items = pre ++ a :: mid ++ b :: post ->
      vendor_identity a = Some (type, name_a) ->
      vendor_identity b = Some (type, name_b) ->
      Str.toLowerCase name_a = Str.toLowerCase name_b ->
      W_vendor_duplicate name_b type ∈ ws) /\
  (forall pre a post type name,
      items = pre ++ a :: post ->
      vendor_identity a = Some (type, name) ->
      (forall x type' name', x ∈ pre -> vendor_identity x = Some (type', name') ->
         (type', Str.toLowerCase name') <> (type, Str.toLowerCase name)) ->
      exists v, v ∈ san /\ Vendor.vendor_type v = type /\ Vendor.vendor_name v = name /\
                v = vendor_of_item a type name /\
                forall v', v' ∈ san -> identity_of_vendor v' = identity_of_vendor v ->
                           v' = v) /\
  (length san + count_duplicate_warnings ws = length (omap vendor_identity items))%nat /\
  (forall v, v ∈ san ->
     exists a type name,
       a ∈ items /\ vendor_identity a = Some (type, name) /\
       v = vendor_of_item a type name).
Proof.
  split; [apply sanitizeVendors_returns|].
  intros san ws Hrun.
  assert (NoDup (identity_of_vendor <$> san)) as Hunique.
  { pose proof Hrun as (items' & st & Hst & -> & -> & _)%sanitizeVendors_inv_array.
    apply sanitizeVendors_forEach_inv in Hst as [_ Hnd _]; [|apply vendors_inv_init].
    eapply (NoDup_fmap_1 (fun p : string * string => p.1 +:+ ":" +:+ p.2)).
    rewrite <- list_fmap_compose. exact Hnd. }
  split; [exact Hunique|]. split; [|split; [|split]].
  - intros pre a mid b post type name_a name_b -> Ha Hb Hlow.
    replace (pre ++ a :: mid ++ b :: post) with ((pre ++ a :: mid) ++ b :: post) in Hrun
      by (rewrite <- app_assoc; reflexivity).
    eapply sanitizeVendors_later_warned; [exact Hrun | exact Hb |].
    exists a. split.
    + rewrite elem_of_app, elem_of_cons. auto.
    + unfold vendor_key. rewrite Ha. cbn. unfold vendorKey. rewrite Hlow. reflexivity.
  - intros pre a post type name -> Ha Hfresh.
    assert (vendor_of_item a type name ∈ san) as Hv.
    { eapply sanitizeVendors_first_record; [exact Hrun | exact Ha |].
      intros x Hx. unfold vendor_key.
      destruct (vendor_identity x) as [[type' name']|] eqn:Hid; [|discriminate].
      cbn. intros [= Hk].
      apply vendorKey_inj in Hk as [-> Hl];
        eauto using vendor_identity_no_colon.
      eapply Hfresh; [exact Hx | exact Hid |]. rewrite Hl. reflexivity. }
    exists (vendor_of_item a type name).
    split; [exact Hv|]. split; [reflexivity|]. split; [reflexivity|].
    split; [reflexivity|].
    intros v' Hv' Hid. eapply NoDup_fmap_eq; eassumption.
  - apply sanitizeVendors_inv_array in Hrun as (items' & st & Hst & -> & -> & Hitems).
    rewrite (Hitems _ eq_refl).
    apply sanitizeVendors_forEach_accounting in Hst. cbn in Hst. lia.
  - intros v Hv. eapply sanitizeVendors_emitted_record; eassumption.
Qed.

(** Claim C8.  In every vendor emitted by [sanitizeVendors] that has both
    a total cost and a deposit, the deposit is at most the total cost; and
    an emitted item whose raw deposit exceeds its total cost carries the
    total cost as its deposit and is answered by an adjustment warning. *)
Theorem sanitizeVendors_deposit_clamped (vendors : value) (san : list Vendor.t)
    (ws : list warning) :
  sanitizeVendors vendors = Ok (san, ws) ->
  (forall v t d, v ∈ san ->
     Vendor.total_cost v = Some t -> Vendor.deposit_amount v = Some d -> (d <= t)%Z) /\
  (forall pre item post type name t d,
     vendors = VArr (pre ++ item :: post) ->
     vendor_identity item = Some (type, name) ->
     (forall x, x ∈ pre -> vendor_key x <> Some (vendorKey type name)) ->
     normalizeCurrency (prop item "total_cost") = Some t ->
     normalizeCurrency (prop item "deposit_amount") = Some d ->
     (t < d)%Z ->
     W_vendor_deposit_adjusted name ∈ ws /\
     exists v, v ∈ san /\ Vendor.vendor_type v = type /\ Vendor.vendor_name v = name /\
               Vendor.total_cost v = Some t /\ Vendor.deposit_amount v = Some t).
Proof.
  intros Hrun. split.
  - apply sanitizeVendors_inv_array in Hrun as (items & st & Hst & -> & -> & _).
    apply sanitizeVendors_forEach_inv in Hst as [_ _ Hcl]; [|apply vendors_inv_init].
    rewrite Forall_forall in Hcl. intros v t d Hv. exact (Hcl v Hv t d).
  - intros pre item post type name t d -> Hid Hfresh Ht Hd Hlt.
    destruct (sanitizeVendors_first_emitted _ _ _ _ _ _ _ Hrun Hid Hfresh)
      as (v & Hv & Hty & Hn & Htot & Hdep & Hadj).
    rewrite Ht, Hd in *. cbn in Hdep, Hadj.
    apply Z.ltb_lt in Hlt. rewrite Hlt in Hdep, Hadj.
    split; [auto|]. exists v. auto.
Qed.

(** Claim C10.  An item whose type resolves, whose name trims to a
    non-empty string and whose key no earlier item has is emitted whenever
    [sanitizeVendors] returns, whatever its other fields, and the call
    returns on every list whose types and statuses are text or falsy; with
    every other
    field null the call returns exactly that one vendor, all optional
    fields null, and no warning. *)
Theorem sanitizeVendors_identity_suffices :
  (forall pre item post type name,
     vendor_identity item = Some (type, name) ->
     (forall x, x ∈ pre -> vendor_key x <> Some (vendorKey type name)) ->
     (forallb vendor_item_safe (pre ++ item :: post) = true ->
      returns (sanitizeVendors (VArr (pre ++ item :: post)))) /\
     forall san ws,
       sanitizeVendors (VArr (pre ++ item :: post)) = Ok (san, ws) ->
       exists v, v ∈ san /\ Vendor.vendor_type v = type /\ Vendor.vendor_name v = name) /\
  (forall raw_type raw_name type name,
     canonicalizeVendorType (VStr raw_type) = Ok (Some type) ->
     toTrimmedString (VStr raw_name) = Some name ->
     sanitizeVendors
       (VArr [VObj [("vendor_type", VStr raw_type); ("vendor_name", VStr raw_name);
                    ("vendor_contact_name", VNull); ("vendor_email", VNull);
                    ("vendor_phone", VNull); ("total_cost", VNull);
                    ("deposit_amount", VNull); ("deposit_paid", VNull);
                    ("deposit_date", VNull); ("balance_due", VNull);
                    ("final_payment_date", VNull); ("final_payment_paid", VNull);
                    ("status", VNull); ("contract_signed", VNull);
                    ("contract_date", VNull); ("service_date", VNull);
                    ("notes", VNull)]])
     = Ok ([Vendor.mk type name None None None None None None None None None None
              None None None None None], [])).
Proof.
  split.
  - intros pre item post type name Hid Hfresh.
    split; [apply sanitizeVendors_returns|]. intros san ws Hrun.
    destruct (sanitizeVendors_first_emitted _ _ _ _ _ _ _ Hrun Hid Hfresh)
      as (v & Hv & Hty & Hn & _).
    eauto.
  - intros raw_type raw_name type name Hty Hname.
    unfold sanitizeVendors. cbn [nonempty_array forEach].
    unfold sanitizeVendors_item. cbn [is_object negb].
    change (prop (VObj ?l) "vendor_type") with (VStr raw_type).
    change (prop (VObj ?l) "vendor_name") with (VStr raw_name).
    rewrite Hty, Hname. cbn -[vendorKey]. reflexivity.
Qed.

(** Claim C7.  [sanitizeTasks] returns on every list whose categories,
    statuses and priorities are text or falsy.  Whenever it returns, the
    identity (lowercased
    name, validated due date or none) is unique among the emitted tasks; a
    task whose identity equals that of an earlier one is answered by a
    duplicate warning; a task whose identity no earlier task has is
    emitted, as the record built from its own fields alone, and that
    record is the only emitted task of its identity, so nothing of a later
    duplicate replaces any of its fields; every task with a name is emitted
    or answered by a duplicate warning; two tasks with the same lowercased
    name and different due dates are both represented, by two different
    emitted tasks; and every emitted task is the record of an item of the
    list. *)
Theorem sanitizeTasks_dedup (items : list value) :
  (forallb task_item_safe items = true -> returns (sanitizeTasks (VArr items))) /\
  forall (san : list Task.t) (ws : list warning),
  sanitizeTasks (VArr items) = Ok (san, ws) ->
  NoDup (identity_of_task <$> san) /\
  (forall pre a mid b post name_a name_b due,
      items = pre ++ a :: mid ++ b :: post ->
      task_identity a = Some (name_a, due) ->
      task_identity b = Some (name_b, due) ->
      Str.toLowerCase name_a = Str.toLowerCase name_b ->
      W_task_duplicate name_b (str_or due "unspecified") ∈ ws) /\
  (forall pre a post name due,
      items = pre ++ a :: post ->
      task_identity a = Some (name, due) ->
      (forall x name' due', x ∈ pre -> task_identity x = Some (name', due') ->
         (Str.toLowerCase name', due') <> (Str.toLowerCase name, due)) ->
      exists t, t ∈ san /\ Task.task_name t = name /\ Task.due_date t = due /\
                t = task_of_item a name /\
                forall t', t' ∈ san -> identity_of_task t' = identity_of_task t ->
                           t' = t) /\
  (length san + count_task_duplicate_warnings ws
   = length (omap task_identity items))%nat /\
  (forall a b name_a name_b due_a due_b,
      a ∈ items -> b ∈ items ->
      task_identity a = Some (name_a, due_a) ->
      task_identity b = Some (name_b, due_b) ->
      Str.toLowerCase name_a = Str.toLowerCase name_b ->
      due_a <> due_b ->
      exists ta tb,
        ta ∈ san /\ tb ∈ san /\ ta <> tb /\
        identity_of_task ta = (Str.toLowerCase name_a, due_a) /\
        identity_of_task tb = (Str.toLowerCase name_b, due_b)) /\
  (forall t, t ∈ san ->
     exists a name due,
       a ∈ items /\ task_identity a = Some (name, due) /\ t = task_of_item a name).
Proof.
  split; [apply sanitizeTasks_returns|].
  intros san ws Hrun.
  assert (NoDup (identity_of_task <$> san)) as Hunique.
  { pose proof Hrun as (items' & st & Hst & -> & -> & _)%sanitizeTasks_inv_array.
    apply sanitizeTasks_forEach_inv in Hst as [_ Hnd _]; [|apply tasks_inv_init].
    eapply (NoDup_fmap_1 (fun p : string * option string => p.1 +:+ "::" +:+ str_or p.2 "none")).
    rewrite <- list_fmap_compose. exact Hnd. }
  split; [exact Hunique|]. split; [|split; [|split; [|split]]].
  - intros pre a mid b post name_a name_b due -> Ha Hb Hlow.
    replace (pre ++ a :: mid ++ b :: post) with ((pre ++ a :: mid) ++ b :: post) in Hrun
      by (rewrite <- app_assoc; reflexivity).
    eapply sanitizeTasks_later_warned; [exact Hrun | exact Hb |].
    exists a. split.
    + rewrite elem_of_app, elem_of_cons. auto.
    + unfold task_key. rewrite Ha. cbn. unfold taskDeterministicId. rewrite Hlow. reflexivity.
  - intros pre a post name due -> Ha Hfresh.
    assert (task_of_item a name ∈ san) as Ht.
    { eapply sanitizeTasks_first_record; [exact Hrun | exact Ha |].
      intros x Hx. unfold task_key.
      destruct (task_identity x) as [[name' due']|] eqn:Hid; [|discriminate].
      cbn. intros [= Hk].
      apply taskDeterministicId_inj in Hk as [Hl ->];
        eauto using task_identity_date_ok.
      eapply Hfresh; [exact Hx | exact Hid |]. rewrite Hl. reflexivity. }
    exists (task_of_item a name).
    split; [exact Ht|]. split; [reflexivity|]. split.
    { unfold task_identity in Ha. destruct (is_object a); [|discriminate].
      destruct (toTrimmedString _); [|discriminate]. injection Ha as _ <-. reflexivity. }
    split; [reflexivity|].
    intros t' Ht' Hid. eapply NoDup_fmap_eq; eassumption.
  - apply sanitizeTasks_inv_array in Hrun as (items' & st & Hst & -> & -> & Hitems).
    rewrite (Hitems _ eq_refl).
    apply sanitizeTasks_forEach_accounting in Hst. cbn in Hst. lia.
  - intros a b name_a name_b due_a due_b Ha Hb Ia Ib Hlow Hne.
    destruct (sanitizeTasks_identity_represented _ _ _ _ _ _ Hrun Ha Ia) as (ta & Hta & Hna & Hda).
    destruct (sanitizeTasks_identity_represented _ _ _ _ _ _ Hrun Hb Ib) as (tb & Htb & Hnb & Hdb).
    exists ta, tb. unfold identity_of_task. rewrite Hna, Hnb, Hda, Hdb.
    repeat split; try assumption.
    intros ->. apply Hne. congruence.
  - intros t Ht. eapply sanitizeTasks_emitted_record; eassumption.
Qed.


(** *** Concrete inputs *)

Example processClaudePayload_test_payload :
  processClaudePayload Json.parse (VStr test_payload) = Ok test_payload_result.
Proof. vm_compute. reflexivity. Qed.

Example processClaudePayload_empty_object :
  processClaudePayload Json.parse (VStr "{}") = Ok zero_result.
Proof. vm_compute. reflexivity. Qed.

Example normalizeCurrency_examples :
  normalizeCurrency (VStr "$25,000") = Some 25000%Z /\
  normalizeCurrency (VStr "-5") = None /\
  normalizeCurrency (VNum (5 # 2)) = Some 3%Z.
Proof. repeat split; vm_compute; reflexivity. Qed.

Example canonicalizeVendorType_examples :
  canonicalizeVendorType (VStr "photo") = Ok (Some "photographer") /\
  canonicalizeVendorType (VStr "photography") = Ok (Some "photographer") /\
  canonicalizeVendorType (VStr "plumber") = Ok None.
Proof. repeat split; vm_compute; reflexivity. Qed.

(** Every canonical vendor type is its own canonical form. *)
Example canonicalizeVendorType_idempotent :
  Forall (fun type => canonicalizeVendorType (VStr type) = Ok (Some type))
         vendorTypes_list.
Proof. repeat constructor. Qed.

Example normalizeDate_examples :
  normalizeDate (VStr "2025-09-20") = Some "2025-09-20" /\
  normalizeDate (VStr "2025-02-30") = None /\
  normalizeDate (VStr "2025-13-01") = None /\
  normalizeDate (VStr "2025-9-20") = None /\
  normalizeDate (VNum 20250920) = None.
Proof. repeat split; vm_compute; reflexivity. Qed.

Example sanitizeBudgetItems_flowers :
  sanitizeBudgetItems (VArr ex_budget_items) = Ok (ex_budget_sanitized, ex_budget_warnings).
Proof. vm_compute. reflexivity. Qed.

Example round_double_examples :
  round_double 450 = 450%Z /\
  round_double (2 ^ 53 + 1) = (2 ^ 53)%Z /\
  round_double (2 ^ 53 + 2) = (2 ^ 53 + 2)%Z /\
  round_double (2 ^ 53 + 3) = (2 ^ 53 + 4)%Z /\
  round_double (2 ^ 54 - 1) = (2 ^ 54)%Z /\
  round_double (- (2 ^ 53 + 3)) = (- (2 ^ 53 + 4))%Z.
Proof. vm_compute. repeat split. Qed.

(** From 2^53 on the sum is the rounded one of the numbers: adding 1 to
    9007199254740992 leaves it unchanged. *)
Example sanitizeBudgetItems_rounds_sum :
  sanitizeBudgetItems
    (VArr [ VObj [ ("category", VStr "flowers"); ("spent_amount", VNum 9007199254740992) ];
            VObj [ ("category", VStr "flowers"); ("spent_amount", VNum 1) ] ])
  = Ok ([ BudgetItem.mk "flowers" None (Some 9007199254740992%Z) None None None None ],
        [ W_budget_merged "flowers" ]).
Proof. vm_compute. reflexivity. Qed.


Lemma sanitizeVendors_dedup_witness :
  NoDup (identity_of_vendor <$> ex_vendors_sanitized) /\
  W_vendor_duplicate "LENS & CO" "photographer" ∈ ex_vendors_warnings /\
  (length ex_vendors_sanitized + count_duplicate_warnings ex_vendors_warnings
   = length (omap vendor_identity ex_vendors))%nat /\
  exists v,
    v ∈ ex_vendors_sanitized /\
    Vendor.vendor_type v = "photographer" /\ Vendor.vendor_name v = "Lens & Co" /\
    v = vendor_of_item (ex_vendor "photo" "Lens & Co" (VStr "$3000") (VNum 4000))
          "photographer" "Lens & Co" /\
    forall v', v' ∈ ex_vendors_sanitized ->
               identity_of_vendor v' = identity_of_vendor v -> v' = v.
Proof.
  destruct (proj2 (sanitizeVendors_dedup ex_vendors) ex_vendors_sanitized
              ex_vendors_warnings) as (H1 & H2 & H3 & H4 & _).
  - vm_compute. reflexivity.
  - split; [exact H1|]. split; [|split; [exact H4|]].
    + apply (H2 [] (ex_vendor "photo" "Lens & Co" (VStr "$3000") (VNum 4000))
                [ex_vendor "florist" "Bloom" VNull VNull]
                (ex_vendor "Photographer" " LENS & CO " VNull VNull) []
                "photographer" "Lens & Co" "LENS & CO");
        vm_compute; reflexivity.
    + apply (H3 [] (ex_vendor "photo" "Lens & Co" (VStr "$3000") (VNum 4000))
                [ex_vendor "florist" "Bloom" VNull VNull;
                 ex_vendor "Photographer" " LENS & CO " VNull VNull]
                "photographer" "Lens & Co").
      * reflexivity.
      * vm_compute. reflexivity.
      * intros x type' name' []%elem_of_nil.
Defined.

Lemma sanitizeVendors_deposit_clamped_witness :
  (forall v t d, v ∈ ex_vendors_sanitized ->
     Vendor.total_cost v = Some t -> Vendor.deposit_amount v = Some d -> (d <= t)%Z) /\
  W_vendor_deposit_adjusted "Lens & Co" ∈ ex_vendors_warnings.
Proof.
  destruct (sanitizeVendors_deposit_clamped (VArr ex_vendors) ex_vendors_sanitized
              ex_vendors_warnings) as (H1 & H2).
  - vm_compute. reflexivity.
  - split; [exact H1|].
    apply (H2 [] (ex_vendor "photo" "Lens & Co" (VStr "$3000") (VNum 4000))
              [ex_vendor "florist" "Bloom" VNull VNull;
               ex_vendor "Photographer" " LENS & CO " VNull VNull]
              "photographer" "Lens & Co" 3000%Z 4000%Z).
    + reflexivity.
    + vm_compute. reflexivity.
    + intros x []%elem_of_nil.
    + vm_compute. reflexivity.
    + vm_compute. reflexivity.
    + lia.
Defined.

Lemma sanitizeVendors_identity_suffices_witness :
  exists v, v ∈ ex_vendors_sanitized /\
            Vendor.vendor_type v = "florist" /\ Vendor.vendor_name v = "Bloom".
Proof.
  refine (proj2 (proj1 sanitizeVendors_identity_suffices
           [ex_vendor "photo" "Lens & Co" (VStr "$3000") (VNum 4000)]
           (ex_vendor "florist" "Bloom" VNull VNull)
           [ex_vendor "Photographer" " LENS & CO " VNull VNull]
           "florist" "Bloom" _ _) ex_vendors_sanitized ex_vendors_warnings _).
  - vm_compute. reflexivity.
  - intros x ->%list_elem_of_singleton. vm_compute. discriminate.
  - vm_compute. reflexivity.
Defined.

Lemma sanitizeTasks_dedup_witness :
  NoDup (identity_of_task <$> ex_tasks_sanitized) /\
  W_task_duplicate "send invites" "2025-05-01" ∈ ex_tasks_warnings /\
  (length ex_tasks_sanitized + count_task_duplicate_warnings ex_tasks_warnings
   = length (omap task_identity ex_tasks))%nat /\
  (exists ta tb,
    ta ∈ ex_tasks_sanitized /\ tb ∈ ex_tasks_sanitized /\ ta <> tb /\
    identity_of_task ta = ("send invites", Some "2025-05-01") /\
    identity_of_task tb = ("send invites", Some "2025-06-01")) /\
  exists t,
    t ∈ ex_tasks_sanitized /\
    Task.task_name t = "Send invites" /\ Task.due_date t = Some "2025-05-01" /\
    t = task_of_item (ex_task "Send invites" (VStr "2025-05-01")) "Send invites" /\
    forall t', t' ∈ ex_tasks_sanitized ->
               identity_of_task t' = identity_of_task t -> t' = t.
Proof.
  destruct (proj2 (sanitizeTasks_dedup ex_tasks) ex_tasks_sanitized ex_tasks_warnings)
    as (H1 & H2 & H3 & H4 & H5 & _).
  - vm_compute. reflexivity.
  - split; [exact H1|]. split; [|split; [exact H4|split]].
    + apply (H2 [] (ex_task "Send invites" (VStr "2025-05-01")) []
                (ex_task "send invites" (VStr "2025-05-01"))
                [ex_task "Send invites" (VStr "2025-06-01"); ex_task "Send invites" VNull]
                "Send invites" "send invites" (Some "2025-05-01"));
        vm_compute; reflexivity.
    + apply (H5 (ex_task "Send invites" (VStr "2025-05-01"))
                (ex_task "Send invites" (VStr "2025-06-01"))
                "Send invites" "Send invites" (Some "2025-05-01") (Some "2025-06-01")).
      * left.
      * right. right. left.
      * vm_compute. reflexivity.
      * vm_compute. reflexivity.
      * reflexivity.
      * discriminate.
    + apply (H3 [] (ex_task "Send invites" (VStr "2025-05-01"))
                [ex_task "send invites" (VStr "2025-05-01");
                 ex_task "Send invites" (VStr "2025-06-01"); ex_task "Send invites" VNull]
                "Send invites" (Some "2025-05-01")).
      * reflexivity.
      * vm_compute. reflexivity.
      * intros x name' due' []%elem_of_nil.
Defined.

(** *** Trimming and the primitive normalizers *)

Lemma trimStart_first s c :
  first_char (Str.trimStart s) = Some c -> Str.is_space c = false.
Proof.
  induction s as [|a s IH]; cbn [Str.trimStart]; [discriminate|].
  destruct (Str.is_space a) eqn:Ha; [exact IH|].
  intros [= <-]. exact Ha.
Qed.

Lemma trimEnd_cons c s :
  Str.is_space c = false -> Str.trimEnd (String c s) = String c (Str.trimEnd s).
Proof. intros H. cbn [Str.trimEnd]. rewrite H. reflexivity. Qed.

Lemma trimEnd_first s c :
  first_char (Str.trimEnd s) = Some c -> first_char s = Some c.
Proof.
  destruct s as [|a s]; cbn [Str.trimEnd]; [discriminate|].
  destruct (Str.is_space a && Str.is_empty (Str.trimEnd s)); [discriminate|].
  intros H. exact H.
Qed.

Lemma trimEnd_last s c :
  last_char (Str.trimEnd s) = Some c -> Str.is_space c = false.
Proof.
  induction s as [|a s IH]; cbn [Str.trimEnd]; [discriminate|].
  destruct (Str.trimEnd s) as [|b t] eqn:Ht.
  - cbn [Str.is_empty]. rewrite andb_true_r.
    destruct (Str.is_space a) eqn:Ha; [discriminate|].
    intros [= <-]. exact Ha.
  - cbn [Str.is_empty]. rewrite andb_false_r. cbn [last_char]. exact IH.
Qed.

Lemma trimEnd_idempotent s : Str.trimEnd (Str.trimEnd s) = Str.trimEnd s.
Proof.
  induction s as [|a s IH]; [reflexivity|]. cbn [Str.trimEnd].
  destruct (Str.is_space a && Str.is_empty (Str.trimEnd s)) eqn:E; [reflexivity|].
  cbn [Str.trimEnd]. rewrite IH, E. reflexivity.
Qed.

Lemma trimStart_fixed s :
  (forall c, first_char s = Some c -> Str.is_space c = false) -> Str.trimStart s = s.
Proof.
  destruct s as [|a s]; [reflexivity|]. intros H. cbn [Str.trimStart].
  rewrite (H a eq_refl). reflexivity.
Qed.

Lemma trim_is_trimmed s : is_trimmed (Str.trim s).
Proof.
  unfold Str.trim. split.
  - intros c Hc. apply trimEnd_first in Hc. eapply trimStart_first; eassumption.
  - apply trimEnd_last.
Qed.

Lemma trim_idempotent s : Str.trim (Str.trim s) = Str.trim s.
Proof.
  unfold Str.trim at 1. rewrite trimStart_fixed by apply trim_is_trimmed.
  unfold Str.trim. apply trimEnd_idempotent.
Qed.

(** Extra X1.  A text value that [toTrimmedString] accepts comes back
    non-empty and without white space at either end, and is accepted
    unchanged when passed again; every non-text value is rejected. *)
Theorem toTrimmedString_trimmed_fixed_point (v : value) (t : string) :
  toTrimmedString v = Some t ->
  (exists s, v = VStr s) /\ t <> "" /\ is_trimmed t /\ toTrimmedString (VStr t) = Some t.
Proof.
  destruct v as [| | | |s| |]; try discriminate. cbn [toTrimmedString].
  destruct (Str.is_empty (Str.trim s)) eqn:E; [discriminate|]. intros [= <-].
  split; [eauto|]. split; [intros H; rewrite H in E; discriminate|].
  split; [apply trim_is_trimmed|]. rewrite trim_idempotent, E. reflexivity.
Qed.

Lemma toTrimmedString_trimmed_fixed_point_witness :
  toTrimmedString (VStr "Lens & Co") = Some "Lens & Co".
Proof.
  apply (toTrimmedString_trimmed_fixed_point (VStr "  Lens & Co ") "Lens & Co").
  vm_compute. reflexivity.
Defined.

Lemma keep_idempotent p s : Str.keep p (Str.keep p s) = Str.keep p s.
Proof.
  induction s as [|c s IH]; [reflexivity|]. cbn [Str.keep].
  destruct (p c) eqn:E; [|exact IH]. cbn [Str.keep]. rewrite E, IH. reflexivity.
Qed.

Lemma Math_round_nearest q :
  (inject_Z (Math_round q) - (1 # 2) <= q)%Q /\ (q < inject_Z (Math_round q) + (1 # 2))%Q.
Proof.
  unfold Math_round. pose proof (Qfloor_le (q + (1 # 2))) as H1.
  pose proof (Qlt_floor (q + (1 # 2))) as H2.
  set (z := Qfloor (q + (1 # 2))) in *.
  rewrite inject_Z_plus in H2. change (inject_Z 1) with 1%Q in H2.
  split; Lqa.lra.
Qed.

Lemma Math_round_nonnegative q : Qle_bool 0 q = true -> (0 <= Math_round q)%Z.
Proof.
  intros H%Qle_bool_iff. unfold Math_round.
  change 0%Z with (Qfloor 0). apply Qfloor_resp_le. Lqa.lra.
Qed.

(** Extra X2.  [normalizeCurrency] never returns a negative amount; a
    number is rounded to the nearest integer, halves upwards, and a
    negative number is rejected; in a text only the digits, [.] and [-]
    count, so currency signs, separators and blanks make no difference. *)
Theorem normalizeCurrency_nonnegative_nearest :
  (forall v z, normalizeCurrency v = Some z -> (0 <= z)%Z) /\
  (forall q z, normalizeCurrency (VNum q) = Some z ->
     (inject_Z z - (1 # 2) <= q)%Q /\ (q < inject_Z z + (1 # 2))%Q) /\
  (forall q, (q < 0)%Q -> normalizeCurrency (VNum q) = None) /\
  (forall s, normalizeCurrency (VStr s)
             = normalizeCurrency (VStr (Str.keep currency_char s))).
Proof.
  split; [|split; [|split]].
  - intros v z. destruct v as [| | |q|s| |]; try discriminate; cbn [normalizeCurrency].
    + destruct (Qle_bool 0 q) eqn:E; [|discriminate].
      intros [= <-]. apply Math_round_nonnegative. exact E.
    + destruct (Str.is_empty s); [discriminate|].
      destruct (Str.is_empty (Str.keep currency_char s)); [discriminate|].
      destruct (parseFloat _) as [parsed|]; [|discriminate].
      destruct (Qle_bool 0 parsed) eqn:E; [|discriminate].
      intros [= <-]. apply Math_round_nonnegative. exact E.
  - intros q z. cbn [normalizeCurrency].
    destruct (Qle_bool 0 q); [|discriminate]. intros [= <-]. apply Math_round_nearest.
  - intros q Hq. cbn [normalizeCurrency].
    destruct (Qle_bool 0 q) eqn:E; [|reflexivity].
    apply Qle_bool_iff in E. Lqa.lra.
  - intros s. cbn [normalizeCurrency]. rewrite keep_idempotent.
    destruct (Str.is_empty s) eqn:Es.
    + destruct s; [reflexivity | discriminate].
    + destruct (Str.is_empty (Str.keep currency_char s)); reflexivity.
Qed.

Lemma normalizeCurrency_nonnegative_nearest_witness :
  (0 <= 25000)%Z /\ normalizeCurrency (VNum (5 # 2)) = Some 3%Z.
Proof.
  split.
  - apply (proj1 normalizeCurrency_nonnegative_nearest (VStr "$25,000") 25000%Z).
    vm_compute. reflexivity.
  - vm_compute. reflexivity.
Defined.

Lemma Number_isInteger_floor q :
  Number_isInteger q = true -> (q == inject_Z (Qfloor q))%Q.
Proof.
  unfold Number_isInteger. destruct q as [n d]. cbn [Qnum Qden Qfloor].
  intros H%Z.eqb_eq. unfold Qeq, inject_Z. cbn [Qnum Qden].
  rewrite Z.mul_1_r. rewrite Z.mul_comm. apply Z.div_exact; [lia | exact H].
Qed.

(** Extra X3.  [normalizeInteger] never returns a negative count; a number
    is accepted exactly when it is a non-negative integer and is then
    returned unchanged; in a text only the digits count, so a sign or a
    decimal point is dropped, not refused. *)
Theorem normalizeInteger_nonnegative_digits :
  (forall v z, normalizeInteger v = Some z -> (0 <= z)%Z) /\
  (forall n, (0 <= n)%Z -> normalizeInteger (VNum (inject_Z n)) = Some n) /\
  (forall q z, normalizeInteger (VNum q) = Some z -> (q == inject_Z z)%Q) /\
  (forall s, normalizeInteger (VStr s) = normalizeInteger (VStr (Str.keep Str.is_digit s))) /\
  normalizeInteger (VStr "-5") = Some 5%Z /\
  normalizeInteger (VStr "12.5") = Some 125%Z.
Proof.
  split; [|split; [|split; [|split; [|split; vm_compute; reflexivity]]]].
  - intros v z. destruct v as [| | |q|s| |]; try discriminate; cbn [normalizeInteger].
    + destruct (Number_isInteger q && Qle_bool 0 q) eqn:E; [|discriminate].
      apply andb_prop in E as [_ E%Qle_bool_iff]. intros [= <-].
      change 0%Z with (Qfloor 0). apply Qfloor_resp_le. exact E.
    + destruct (Str.is_empty s); [discriminate|].
      destruct (Str.is_empty _); [discriminate|]. intros [= <-]. lia.
  - intros n Hn. cbn [normalizeInteger].
    assert (Number_isInteger (inject_Z n) = true) as ->.
    { unfold Number_isInteger, inject_Z. cbn [Qnum Qden]. rewrite Z.mod_1_r. reflexivity. }
    assert (Qle_bool 0 (inject_Z n) = true) as ->.
    { apply Qle_bool_iff. change 0%Q with (inject_Z 0). rewrite <- Zle_Qle. exact Hn. }
    cbn [andb]. rewrite Qfloor_Z. reflexivity.
  - intros q z. cbn [normalizeInteger].
    destruct (Number_isInteger q && Qle_bool 0 q) eqn:E; [|discriminate].
    apply andb_prop in E as [E _]. intros [= <-]. apply Number_isInteger_floor. exact E.
  - intros s. cbn [normalizeInteger]. rewrite keep_idempotent.
    destruct (Str.is_empty s) eqn:Es.
    + destruct s; [reflexivity | discriminate].
    + destruct (Str.is_empty (Str.keep Str.is_digit s)); reflexivity.
Qed.

Lemma normalizeInteger_nonnegative_digits_witness :
  (0 <= 150)%Z /\ normalizeInteger (VNum (inject_Z 150)) = Some 150%Z.
Proof.
  split.
  - apply (proj1 normalizeInteger_nonnegative_digits (VStr "150 guests") 150%Z).
    vm_compute. reflexivity.
  - apply (proj1 (proj2 normalizeInteger_nonnegative_digits) 150%Z). lia.
Defined.

(** *** Canonical tokens and contact fields *)

Lemma canonicalizeVendorType_member raw type :
  canonicalizeVendorType raw = Ok (Some type) -> type ∈ vendorTypes_list.
Proof.
  unfold canonicalizeVendorType.
  destruct (negb (truthy raw)); [discriminate|].
  destruct (call_trim raw) as [trimmed|]; unfold mbind, result_bind; [|discriminate].
  destruct (Str.is_empty _); [discriminate|].
  destruct (bool_decide _) eqn:Hin.
  - intros [= <-]. apply bool_decide_eq_true in Hin.
    unfold VENDOR_TYPES, Set_of in Hin. apply elem_of_list_to_set in Hin. exact Hin.
  - unfold Map_get_or_null.
    destruct (VENDOR_TYPE_ALIASES !! _) as [v|] eqn:Hl; [|discriminate].
    destruct (Str.is_empty v); [discriminate|]. intros [= ->].
    apply Map_of_lookup in Hl.
    assert (Forall (fun e : string * string => e.2 ∈ vendorTypes_list)
                   vendorTypeAliases_list) as Hall.
    { apply Forall_forall. intros e He.
      refine (bool_decide_unpack _ _).
      revert e He. apply Forall_forall.
      unfold vendorTypeAliases_list. repeat constructor. }
    rewrite Forall_forall in Hall. exact (Hall _ Hl).
Qed.

Lemma canonicalizeBudgetCategory_member raw category :
  canonicalizeBudgetCategory raw = Ok (Some category) ->
  category ∈ budgetCategories_list.*2.
Proof.
  unfold canonicalizeBudgetCategory.
  destruct (negb (truthy raw)); [discriminate|].
  destruct (call_trim raw) as [trimmed|]; unfold mbind, result_bind; [|discriminate].
  destruct (Str.is_empty _); [discriminate|].
  unfold Map_get_or_null.
  destruct (BUDGET_CATEGORIES !! _) as [v|] eqn:Hl; [|discriminate].
  destruct (Str.is_empty v); [discriminate|]. intros [= ->].
  apply Map_of_lookup in Hl. apply list_elem_of_fmap. exists (Str.toLowerCase trimmed, category).
  auto.
Qed.

Lemma canonicalizeTaskCategory_member raw category :
  canonicalizeTaskCategory raw = Ok (Some category) ->
  category ∈ taskCategories_list.*2.
Proof.
  unfold canonicalizeTaskCategory.
  destruct (negb (truthy raw)); [discriminate|].
  destruct (call_trim raw) as [trimmed|]; unfold mbind, result_bind; [|discriminate].
  destruct (Str.is_empty _); [discriminate|].
  unfold Map_get_or_null.
  destruct (TASK_CATEGORIES !! _) as [v|] eqn:Hl; [|discriminate].
  destruct (Str.is_empty v); [discriminate|]. intros [= ->].
  apply Map_of_lookup in Hl. apply list_elem_of_fmap. exists (Str.toLowerCase trimmed, category).
  auto.
Qed.

(** Extra X4.  Whatever token one of the three canonicalizers returns is a
    canonical token of its table and is returned unchanged when
    canonicalized again: the synonym tables map into their own fixed
    points. *)
Theorem canonicalize_fixed_point :
  (forall raw type,
     canonicalizeVendorType raw = Ok (Some type) ->
     type ∈ vendorTypes_list /\ canonicalizeVendorType (VStr type) = Ok (Some type)) /\
  (forall raw category,
     canonicalizeBudgetCategory raw = Ok (Some category) ->
     canonicalizeBudgetCategory (VStr category) = Ok (Some category)) /\
  (forall raw category,
     canonicalizeTaskCategory raw = Ok (Some category) ->
     canonicalizeTaskCategory (VStr category) = Ok (Some category)).
Proof.
  split; [|split].
  - intros raw type Hm%canonicalizeVendorType_member. split; [exact Hm|].
    revert type Hm. apply Forall_forall. unfold vendorTypes_list.
    repeat constructor.
  - intros raw category Hm%canonicalizeBudgetCategory_member.
    revert category Hm. apply Forall_forall. unfold budgetCategories_list.
    repeat constructor.
  - intros raw category Hm%canonicalizeTaskCategory_member.
    revert category Hm. apply Forall_forall. unfold taskCategories_list.
    repeat constructor.
Qed.

Lemma canonicalize_fixed_point_witness :
  canonicalizeVendorType (VStr "hair_makeup") = Ok (Some "hair_makeup") /\
  canonicalizeBudgetCategory (VStr "catering") = Ok (Some "catering") /\
  canonicalizeTaskCategory (VStr "day_of") = Ok (Some "day_of").
Proof.
  split; [|split].
  - apply (proj1 canonicalize_fixed_point (VStr " Hair & Makeup ") "hair_makeup").
    vm_compute. reflexivity.
  - apply (proj1 (proj2 canonicalize_fixed_point) (VStr "FOOD") "catering").
    vm_compute. reflexivity.
  - apply (proj2 (proj2 canonicalize_fixed_point) (VStr "day-of") "day_of").
    vm_compute. reflexivity.
Defined.

Lemma append_cons c (a x : string) : String c a +:+ x = String c (a +:+ x).
Proof. reflexivity. Qed.

Lemma span_spec p s taken rest :
  span p s = (taken, rest) ->
  s = taken +:+ rest /\ Str.all p taken = true /\
  (forall c, first_char rest = Some c -> p c = false).
Proof.
  revert taken rest. induction s as [|c s IH]; intros taken rest; cbn [span].
  - intros [= <- <-]. split; [reflexivity|]. split; [reflexivity|]. discriminate.
  - destruct (p c) eqn:Hc.
    + destruct (span p s) as [t r]. intros [= <- <-].
      destruct (IH _ _ eq_refl) as (-> & Hall & Hfirst).
      split; [reflexivity|]. split; [|exact Hfirst].
      cbn [Str.all]. rewrite Hc, Hall. reflexivity.
    + intros [= <- <-]. split; [reflexivity|]. split; [reflexivity|].
      cbn. intros ? [= <-]. exact Hc.
Qed.

Lemma span_append p (taken rest : string) :
  Str.all p taken = true ->
  (forall c, first_char rest = Some c -> p c = false) ->
  span p (taken +:+ rest) = (taken, rest).
Proof.
  intros Hall Hfirst. induction taken as [|c t IH].
  - change ("" +:+ rest) with rest. destruct rest as [|c r]; [reflexivity|].
    cbn [span]. rewrite (Hfirst c eq_refl). reflexivity.
  - rewrite append_cons. cbn [span]. cbn [Str.all] in Hall.
    apply andb_prop in Hall as [Hc Hall]. rewrite Hc, (IH Hall). reflexivity.
Qed.

Lemma all_append p (a b : string) :
  Str.all p (a +:+ b) = Str.all p a && Str.all p b.
Proof.
  induction a as [|c a IH]; [reflexivity|].
  rewrite append_cons. cbn [Str.all]. rewrite IH, andb_assoc. reflexivity.
Qed.

Lemma dot_then_more_split s :
  dot_then_more s = true ->
  exists a b, s = a +:+ "." +:+ b /\ b <> "".
Proof.
  induction s as [|c s IH]; cbn [dot_then_more]; [discriminate|].
  intros [[Hc Hs]%andb_prop | H]%orb_prop.
  - apply Ascii.eqb_eq in Hc as ->. exists "", s. split; [reflexivity|].
    intros ->. discriminate.
  - destruct (IH H) as (a & b & -> & Hb). exists (String c a), b. split; [reflexivity|exact Hb].
Qed.

Lemma dot_then_more_append (a b : string) :
  b <> "" -> dot_then_more (a +:+ "." +:+ b) = true.
Proof.
  intros Hb. induction a as [|c a IH].
  - change ("" +:+ "." +:+ b) with (String "." b). cbn [dot_then_more].
    destruct b; [contradiction | reflexivity].
  - rewrite append_cons. cbn [dot_then_more]. rewrite IH. apply orb_true_r.
Qed.

Lemma EMAIL_REGEX_shape s : EMAIL_REGEX_test s = true <-> email_shape s.
Proof.
  unfold EMAIL_REGEX_test, email_shape. split.
  - destruct (span email_char s) as [local rest] eqn:Hspan.
    apply span_spec in Hspan as (-> & Hlocal & _).
    intros [Hne H]%andb_prop.
    destruct rest as [|at_ rest]; [discriminate|].
    destruct (Ascii.eqb_spec at_ "@") as [->|Hat].
    2:{ exfalso. revert H. clear -Hat. destruct at_ as [[] [] [] [] [] [] [] []];
          try discriminate. intros _. apply Hat. reflexivity. }
    destruct rest as [|c domain]; [discriminate|].
    apply andb_prop in H as [[Hc Hdom]%andb_prop Hdot].
    apply dot_then_more_split in Hdot as (a & b & -> & Hb).
    rewrite !all_append in Hdom. apply andb_prop in Hdom as [Ha [_ Hb']%andb_prop].
    exists local, (String c a), b. repeat split; try assumption; try discriminate.
    + intros ->. discriminate.
    + cbn [Str.all]. rewrite Hc, Ha. reflexivity.
  - intros (local & host & tld & -> & Hl & Hh & Ht & Al & Ah & At).
    rewrite (span_append email_char local ("@" +:+ host +:+ "." +:+ tld) Al).
    2:{ intros c [= <-]. reflexivity. }
    destruct local; [contradiction|]. cbn [Str.is_empty negb andb].
    destruct host as [|c h]; [contradiction|].
    change ("@" +:+ String c h +:+ "." +:+ tld)
      with (String "@" (String c (h +:+ "." +:+ tld))).
    cbn [Str.all] in Ah. apply andb_prop in Ah as [Hc Ha].
    rewrite Hc, !all_append, Ha, At, (dot_then_more_append h tld Ht). reflexivity.
Qed.

(** Extra X5.  [validateEmail] accepts exactly the texts whose trimmed form
    is a local part, [@], a host, a dot and a last label, each non-empty and
    without white space or a further [@]; it returns that trimmed form. *)
Theorem validateEmail_accepts_shape (v : value) (e : string) :
  validateEmail v = Some e <->
  exists s, v = VStr s /\ e = Str.trim s /\ email_shape e.
Proof.
  unfold validateEmail. split.
  - destruct v as [| | | |s| |]; try discriminate. cbn [toTrimmedString].
    destruct (Str.is_empty (Str.trim s)); [discriminate|].
    destruct (EMAIL_REGEX_test (Str.trim s)) eqn:E; [|discriminate].
    intros [= <-]. exists s. repeat split. apply EMAIL_REGEX_shape. exact E.
  - intros (s & -> & -> & Hshape). cbn [toTrimmedString].
    pose proof Hshape as Htest%EMAIL_REGEX_shape.
    destruct (Str.trim s) as [|c t] eqn:Ht.
    + destruct Hshape as (l & h & t & Heq & Hl & _). destruct l; [contradiction|discriminate].
    + cbn [Str.is_empty]. rewrite Htest. reflexivity.
Qed.

Lemma validateEmail_accepts_shape_witness :
  validateEmail (VStr " ana@lens.co ") = Some "ana@lens.co".
Proof.
  apply (proj2 (validateEmail_accepts_shape (VStr " ana@lens.co ") "ana@lens.co")).
  exists " ana@lens.co ". split; [reflexivity|]. split; [vm_compute; reflexivity|].
  exists "ana", "lens", "co". repeat split; discriminate.
Defined.

(** *** The shape of the sanitized records *)

Lemma toTrimmedString_text_ok v : text_ok (toTrimmedString v).
Proof.
  intros t. destruct v as [| | | |s| |]; try discriminate. cbn [toTrimmedString].
  destruct (Str.is_empty (Str.trim s)) eqn:E; [discriminate|]. intros [= <-].
  split; [intros H; rewrite H in E; discriminate | apply trim_is_trimmed].
Qed.

Lemma normalizeCurrency_amount_ok v : amount_ok (normalizeCurrency v).
Proof.
  intros z. destruct v as [| | |q|s| |]; try discriminate; cbn [normalizeCurrency].
  - destruct (Qle_bool 0 q) eqn:E; [|discriminate].
    intros [= <-]. apply Math_round_nonnegative. exact E.
  - destruct (Str.is_empty s); [discriminate|].
    destruct (Str.is_empty (Str.keep currency_char s)); [discriminate|].
    destruct (parseFloat _) as [parsed|]; [|discriminate].
    destruct (Qle_bool 0 parsed) eqn:E; [|discriminate].
    intros [= <-]. apply Math_round_nonnegative. exact E.
Qed.

Lemma normalizeDate_calendar_ok v : calendar_ok (normalizeDate v).
Proof. intros d (s & _ & _ & H)%normalizeDate_Some. exact H. Qed.

Lemma member_or_null_member allowed a s :
  member_or_null allowed a = Some s -> s ∈ allowed.
Proof.
  unfold member_or_null. destruct a as [x|]; [|discriminate].
  destruct (negb (Str.is_empty x)); cbn [andb]; [|discriminate].
  destruct (bool_decide (x ∈ allowed)) eqn:E; [|discriminate].
  intros [= <-]. apply bool_decide_eq_true in E. exact E.
Qed.

Lemma validateEmail_shape v e : validateEmail v = Some e -> email_shape e.
Proof.
  unfold validateEmail. destruct (toTrimmedString v) as [str|]; [|discriminate].
  destruct (EMAIL_REGEX_test str) eqn:E; [|discriminate].
  intros [= <-]. apply EMAIL_REGEX_shape. exact E.
Qed.

Lemma validatePhone_test v p : validatePhone v = Some p -> PHONE_REGEX_test p = true.
Proof.
  unfold validatePhone. destruct (toTrimmedString v) as [str|]; [|discriminate].
  destruct (PHONE_REGEX_test str) eqn:E; [|discriminate].
  intros [= <-]. exact E.
Qed.

Lemma clamped_deposit_amount_ok total deposit :
  amount_ok total -> amount_ok deposit -> amount_ok (clamped_deposit total deposit).
Proof.
  intros Ht Hd z. unfold clamped_deposit.
  destruct total as [t|], deposit as [d|]; try discriminate.
  - destruct (t <? d)%Z; intros [= <-]; [apply Ht | apply Hd]; reflexivity.
  - intros [= <-]. apply Hd. reflexivity.
Qed.

Lemma sanitizeVendors_item_schema st index item st' :
  sanitizeVendors_item st index item = Ok st' ->
  Forall vendor_schema (v_sanitized st) -> Forall vendor_schema (v_sanitized st').
Proof.
  unfold sanitizeVendors_item.
  destruct (is_object item); cbn [negb]; [|intros [= <-]; auto].
  destruct (canonicalizeVendorType (prop item "vendor_type")) as [vt|e] eqn:Hvt;
    unfold mbind, result_bind; [|discriminate].
  destruct (toTrimmedString (prop item "vendor_name")) as [name|] eqn:Hname;
    [|intros [= <-]; auto].
  destruct vt as [type|]; [|intros [= <-]; auto].
  destruct (bool_decide _); [intros [= <-]; auto|].
  pose proof (normalizeCurrency_amount_ok (prop item "total_cost")) as Htot.
  pose proof (normalizeCurrency_amount_ok (prop item "deposit_amount")) as Hdep.
  pose proof (clamped_deposit_amount_ok _ _ Htot Hdep) as Hclamp.
  unfold clamped_deposit in Hclamp.
  destruct (lowered_or_null (prop item "status")) as [status|e].
  2:{ destruct (normalizeCurrency (prop item "total_cost")),
               (normalizeCurrency (prop item "deposit_amount"));
        try destruct (_ <? _)%Z; discriminate. }
  intros H Hall.
  assert (exists v, v_sanitized st' = v_sanitized st ++ [v] /\ vendor_schema v)
    as (v & -> & Hv).
  2:{ apply Forall_app. split; [exact Hall | constructor; [exact Hv | constructor]]. }
  destruct (normalizeCurrency (prop item "total_cost")) as [t|],
           (normalizeCurrency (prop item "deposit_amount")) as [d|];
    try destruct (t <? d)%Z; injection H as <-; cbn [v_sanitized];
    (eexists; split; [reflexivity|]);
    (split; cbn;
     [ eapply canonicalizeVendorType_member; exact Hvt
     | intros ? [= <-]; eapply toTrimmedString_text_ok; exact Hname
     | apply toTrimmedString_text_ok
     | apply validateEmail_shape
     | apply validatePhone_test
     | assumption
     | assumption
     | apply normalizeCurrency_amount_ok
     | apply normalizeDate_calendar_ok
     | apply normalizeDate_calendar_ok
     | apply normalizeDate_calendar_ok
     | apply normalizeDate_calendar_ok
     | apply member_or_null_member
     | apply toTrimmedString_text_ok ]).
Qed.

(** Extra X6.  Every vendor that [sanitizeVendors] emits is well formed: a
    canonical type, a non-empty trimmed name, amounts that are not negative,
    dates that are days of the calendar, an e-mail address and a telephone
    number that pass their patterns, and a status of the status table. *)
Theorem sanitizeVendors_schema (vendors : value) (san : list Vendor.t)
    (ws : list warning) :
  sanitizeVendors vendors = Ok (san, ws) -> Forall vendor_schema san.
Proof.
  intros (items & st & Hst & -> & _ & _)%sanitizeVendors_inv_array.
  revert Hst. generalize 0%nat.
  assert (Forall vendor_schema (v_sanitized (mkVendors [] [] ∅))) as Hinit by constructor.
  revert Hinit. generalize (mkVendors [] [] ∅).
  induction items as [|x items IH]; intros st0 Hinit i; cbn [forEach].
  - intros [= <-]. exact Hinit.
  - intros (st1 & H1 & H2)%bind_Ok_inv.
    eapply IH; [|exact H2]. eapply sanitizeVendors_item_schema; eassumption.
Qed.

Lemma sanitizeVendors_schema_witness : Forall vendor_schema ex_vendors_sanitized.
Proof.
  apply (sanitizeVendors_schema (VArr ex_vendors) ex_vendors_sanitized ex_vendors_warnings).
  vm_compute. reflexivity.
Defined.

Lemma or_null_token allowed a : token_ok allowed a -> token_ok allowed (or_null a).
Proof.
  intros H s. unfold or_null. destruct (some_nonempty a); [apply H | discriminate].
Qed.

Lemma sanitizeTasks_item_schema st index item st' :
  sanitizeTasks_item st index item = Ok st' ->
  Forall task_schema (t_sanitized st) -> Forall task_schema (t_sanitized st').
Proof.
  unfold sanitizeTasks_item.
  destruct (is_object item); cbn [negb]; [|intros [= <-]; auto].
  destruct (toTrimmedString (prop item "task_name")) as [name|] eqn:Hname;
    [|intros [= <-]; auto].
  destruct (canonicalizeTaskCategory (prop item "category")) as [canonical|e] eqn:Hcat;
    unfold mbind, result_bind; [|discriminate].
  destruct (lowered_or_null (prop item "status")) as [status|e]; [|discriminate].
  destruct (lowered_or_null (prop item "priority")) as [priority|e]; [|discriminate].
  destruct (bool_decide _); [intros [= <-]; auto|].
  intros [= <-] Hall. cbn [t_sanitized].
  apply Forall_app. split; [exact Hall|]. constructor; [|constructor].
  split; cbn.
  - intros ? [= <-]. eapply toTrimmedString_text_ok. exact Hname.
  - apply toTrimmedString_text_ok.
  - apply or_null_token. intros s ->. eapply canonicalizeTaskCategory_member. exact Hcat.
  - apply normalizeDate_calendar_ok.
  - apply member_or_null_member.
  - apply member_or_null_member.
  - apply toTrimmedString_text_ok.
Qed.

(** Extra X7.  Every task that [sanitizeTasks] emits is well formed: a
    non-empty trimmed name, a due date that is a day of the calendar, and a
    category, status and priority taken from their tables; whatever fails
    is null in the record. *)
Theorem sanitizeTasks_schema (tasks : value) (san : list Task.t) (ws : list warning) :
  sanitizeTasks tasks = Ok (san, ws) -> Forall task_schema san.
Proof.
  intros (items & st & Hst & -> & _ & _)%sanitizeTasks_inv_array.
  revert Hst. generalize 0%nat.
  assert (Forall task_schema (t_sanitized (mkTasks [] [] ∅))) as Hinit by constructor.
  revert Hinit. generalize (mkTasks [] [] ∅).
  induction items as [|x items IH]; intros st0 Hinit i; cbn [forEach].
  - intros [= <-]. exact Hinit.
  - intros (st1 & H1 & H2)%bind_Ok_inv.
    eapply IH; [|exact H2]. eapply sanitizeTasks_item_schema; eassumption.
Qed.

Lemma sanitizeTasks_schema_witness : Forall task_schema ex_tasks_sanitized.
Proof.
  apply (sanitizeTasks_schema (VArr ex_tasks) ex_tasks_sanitized ex_tasks_warnings).
  vm_compute. reflexivity.
Defined.

Lemma budget_accept_schema item a : budget_accept item = Some a -> budget_schema a.
Proof.
  unfold budget_accept. destruct (is_object item); [|discriminate].
  destruct (canonicalizeBudgetCategory (prop item "category")) as [[category|]|e] eqn:Hcat;
    try discriminate.
  pose proof (normalizeCurrency_amount_ok (prop item "budgeted_amount")) as Hb.
  pose proof (normalizeCurrency_amount_ok (prop item "spent_amount")) as Hs.
  pose proof (normalizeCurrency_amount_ok (prop item "transaction_amount")) as Ht.
  destruct (normalizeCurrency (prop item "budgeted_amount")) as [b|],
           (normalizeCurrency (prop item "spent_amount")) as [s|],
           (normalizeCurrency (prop item "transaction_amount")) as [t|];
    try discriminate; intros [= <-];
    (split; cbn;
     [ eapply canonicalizeBudgetCategory_member; exact Hcat
     | assumption | assumption | assumption
     | first [ left; discriminate | right; left; discriminate | right; right; discriminate ]
     | apply normalizeDate_calendar_ok
     | apply toTrimmedString_text_ok
     | apply toTrimmedString_text_ok ]).
Qed.

Lemma overwrite_ok {A : Type} (P : option A -> Prop) x old :
  P x -> P old -> P (overwrite x old).
Proof. destruct x; auto. Qed.

Lemma budget_merge_schema existing a :
  BudgetItem.category existing = BudgetItem.category a ->
  amount_ok (BudgetItem.budgeted_amount existing) ->
  amount_ok (BudgetItem.spent_amount existing) ->
  amount_ok (BudgetItem.transaction_amount existing) ->
  calendar_ok (BudgetItem.transaction_date existing) ->
  text_ok (BudgetItem.transaction_description existing) ->
  text_ok (BudgetItem.notes existing) ->
  budget_schema a -> budget_schema (budget_merge existing a).
Proof.
  intros Hc Hb Hs Ht Hd Hx Hn [Ac Ab As At Am Ad Ax An]. split; cbn.
  - rewrite Hc. exact Ac.
  - apply overwrite_ok; assumption.
  - destruct (BudgetItem.spent_amount a) as [spent|]; [|exact Hs].
    intros z [= <-]. pose proof (As spent eq_refl).
    apply round_double_nonneg.
    destruct (BudgetItem.spent_amount existing) as [old|]; cbn.
    + pose proof (Hs old eq_refl). lia.
    + lia.
  - apply overwrite_ok; assumption.
  - destruct (BudgetItem.budgeted_amount a), (BudgetItem.spent_amount a),
             (BudgetItem.transaction_amount a); cbn;
      first [ left; discriminate | right; left; discriminate
            | right; right; discriminate | idtac ].
    destruct Am as [?|[?|?]]; contradiction.
  - apply overwrite_ok; assumption.
  - apply overwrite_ok; assumption.
  - apply overwrite_ok; assumption.
Qed.

Lemma sanitizeBudgetItems_item_schema st index item st' :
  sanitizeBudgetItems_item st index item = Ok st' ->
  Forall (fun e : string * BudgetItem.t => BudgetItem.category e.2 = e.1 /\ budget_schema e.2) st.1 ->
  Forall (fun e : string * BudgetItem.t => BudgetItem.category e.2 = e.1 /\ budget_schema e.2) st'.1.
Proof.
  destruct st as [agg ws]. intros H%sanitizeBudgetItems_item_cases Hall. cbn [fst] in *.
  destruct (budget_accept item) as [a|] eqn:Hacc.
  2:{ destruct H as (w & -> & _). exact Hall. }
  cbn zeta in H. subst st'. cbn [fst].
  set (c := BudgetItem.category a).
  set (merged := budget_merge _ a).
  assert (BudgetItem.category merged = c /\ budget_schema merged) as Hm.
  { pose proof (budget_accept_schema _ _ Hacc) as Ha. subst merged.
    destruct (Map_get c agg) as [e|] eqn:Hget; cbn [default].
    - apply Map_get_elem_of in Hget. rewrite Forall_forall in Hall.
      destruct (Hall _ Hget) as [Hc [? ? ? ? ? ? ? ?]]. cbn [fst snd] in *.
      split; [exact Hc|]. apply budget_merge_schema; assumption.
    - split; [reflexivity|]. apply budget_merge_schema; try discriminate;
        [reflexivity | exact Ha]. }
  clearbody merged. clear -Hall Hm.
  induction agg as [|[k v] agg IH]; cbn [Map_set].
  - constructor; [exact Hm | constructor].
  - apply Forall_cons in Hall as [Hkv Hall]. destruct (String.eqb_spec c k) as [<-|Hne].
    + constructor; [exact Hm | exact Hall].
    + constructor; [exact Hkv | exact (IH Hall)].
Qed.

(** Extra X8.  Every budget item that [sanitizeBudgetItems] emits, merged
    or not, has a canonical category, at least one of its three amounts,
    no negative amount, and a transaction date that is a day of the
    calendar. *)
Theorem sanitizeBudgetItems_schema (budgetItems : value) (san : list BudgetItem.t)
    (ws : list warning) :
  sanitizeBudgetItems budgetItems = Ok (san, ws) -> Forall budget_schema san.
Proof.
  unfold sanitizeBudgetItems. destruct (nonempty_array budgetItems) as [items|].
  2:{ intros [= <- <-]. constructor. }
  intros (st & Hst & [= <- <-])%bind_Ok_inv.
  assert (Forall (fun e : string * BudgetItem.t =>
                    BudgetItem.category e.2 = e.1 /\ budget_schema e.2) st.1) as H.
  { revert Hst. generalize 0%nat.
    assert (Forall (fun e : string * BudgetItem.t =>
                      BudgetItem.category e.2 = e.1 /\ budget_schema e.2)
                   (([], []) : budget_state).1) as Hinit by constructor.
    revert Hinit. generalize (([], []) : budget_state).
    induction items as [|x items IH]; intros st0 Hinit i; cbn [forEach].
    - intros [= <-]. exact Hinit.
    - intros (st1 & H1 & H2)%bind_Ok_inv.
      eapply IH; [|exact H2]. eapply sanitizeBudgetItems_item_schema; eassumption. }
  unfold Map_values. apply Forall_fmap. eapply Forall_impl; [exact H|].
  intros e [_ He]. exact He.
Qed.

Lemma sanitizeBudgetItems_schema_witness : Forall budget_schema ex_budget_sanitized.
Proof.
  apply (sanitizeBudgetItems_schema (VArr ex_budget_items) ex_budget_sanitized
           ex_budget_warnings).
  vm_compute. reflexivity.
Defined.

(** *** Identity keys and unusable due dates *)

(** Extra X9.  The two deduplication keys identify exactly what they are
    meant to: for canonical vendor types the vendor key is equal for the
    same type and the same lowercased name only, and for validated due
    dates the task key is equal for the same lowercased name and the same
    date only.  Outside these domains the keys collide. *)
Theorem identity_keys_injective :
  (forall t1 t2 n1 n2,
     t1 ∈ vendorTypes_list -> t2 ∈ vendorTypes_list ->
     vendorKey t1 n1 = vendorKey t2 n2 <->
     t1 = t2 /\ Str.toLowerCase n1 = Str.toLowerCase n2) /\
  (forall n1 n2 d1 d2,
     calendar_ok d1 -> calendar_ok d2 ->
     taskDeterministicId n1 d1 = taskDeterministicId n2 d2 <->
     Str.toLowerCase n1 = Str.toLowerCase n2 /\ d1 = d2) /\
  vendorKey "a:b" "c" = vendorKey "a" "b:c" /\
  taskDeterministicId "x" (Some "none") = taskDeterministicId "x" None.
Proof.
  split; [|split; [|split; reflexivity]].
  - intros t1 t2 n1 n2 H1 H2.
    assert (forall t, t ∈ vendorTypes_list -> no_colon t = true) as Hnc.
    { apply Forall_forall. unfold vendorTypes_list. repeat constructor. }
    split.
    + apply vendorKey_inj; apply Hnc; assumption.
    + intros [-> Hn]. unfold vendorKey. rewrite Hn. reflexivity.
  - intros n1 n2 d1 d2 H1 H2.
    assert (forall d, calendar_ok d -> date_ok d) as Hd.
    { intros d H s Hs. specialize (H s Hs). unfold is_calendar_date in H.
      apply andb_prop in H as [H _]. exact H. }
    split.
    + apply taskDeterministicId_inj; apply Hd; assumption.
    + intros [Hn ->]. unfold taskDeterministicId. rewrite Hn. reflexivity.
Qed.

Lemma identity_keys_injective_witness :
  vendorKey "florist" "Bloom" = vendorKey "florist" "BLOOM" /\
  taskDeterministicId "Send invites" (Some "2025-05-01")
  = taskDeterministicId "send invites" (Some "2025-05-01").
Proof.
  split.
  - apply (proj1 identity_keys_injective "florist" "florist" "Bloom" "BLOOM").
    + unfold vendorTypes_list. set_solver.
    + unfold vendorTypes_list. set_solver.
    + split; reflexivity.
  - apply (proj1 (proj2 identity_keys_injective) "Send invites" "send invites"
             (Some "2025-05-01") (Some "2025-05-01")).
    + intros d [= <-]. vm_compute. reflexivity.
    + intros d [= <-]. vm_compute. reflexivity.
    + split; reflexivity.
Defined.

Lemma sanitizeTasks_item_due_warning st index item st' name :
  sanitizeTasks_item st index item = Ok st' ->
  is_object item = true ->
  toTrimmedString (prop item "task_name") = Some name ->
  truthy (prop item "due_date") = true ->
  normalizeDate (prop item "due_date") = None ->
  W_task_invalid_due_date name ∈ t_warnings st'.
Proof.
  unfold sanitizeTasks_item. intros H Hobj Hname Htruthy Hdue. revert H.
  rewrite Hobj, Hname, Htruthy, Hdue. cbn [negb some_nonempty andb].
  destruct (canonicalizeTaskCategory (prop item "category")) as [canonical|e];
    unfold mbind, result_bind; [|discriminate].
  destruct (lowered_or_null (prop item "status")) as [status|e]; [|discriminate].
  destruct (lowered_or_null (prop item "priority")) as [priority|e]; [|discriminate].
  destruct (truthy (prop item "category") && _),
           (some_nonempty status && _), (some_nonempty priority && _),
           (bool_decide _);
    intros [= <-]; cbn [t_warnings];
    rewrite !elem_of_app, list_elem_of_singleton; tauto.
Qed.

(** Extra X10.  A task whose [due_date] is given but is not a calendar
    date is not dropped: the warning about the date is recorded, whether or
    not the task then turns out to be a duplicate, and a task of its name
    with no due date is in the output. *)
Theorem sanitizeTasks_invalid_due_date_kept (pre post : list value) (item : value)
    (name : string) (san : list Task.t) (ws : list warning) :
  sanitizeTasks (VArr (pre ++ item :: post)) = Ok (san, ws) ->
  is_object item = true ->
  toTrimmedString (prop item "task_name") = Some name ->
  truthy (prop item "due_date") = true ->
  normalizeDate (prop item "due_date") = None ->
  W_task_invalid_due_date name ∈ ws /\
  exists t, t ∈ san /\
            Str.toLowerCase (Task.task_name t) = Str.toLowerCase name /\
            Task.due_date t = None.
Proof.
  intros Hrun Hobj Hname Htruthy Hdue. split.
  - apply sanitizeTasks_inv_array in Hrun as (items & st & Hrun & _ & -> & Hitems).
    rewrite <- (Hitems _ eq_refl) in Hrun.
    apply forEach_split in Hrun as (st1 & st2 & _ & H2 & H3).
    pose proof (sanitizeTasks_item_due_warning _ _ _ _ _ H2 Hobj Hname Htruthy Hdue) as Hw.
    apply sanitizeTasks_forEach_extend in H3 as [_ [ws3 ->]].
    apply elem_of_app. left. exact Hw.
  - eapply sanitizeTasks_identity_represented; [exact Hrun | |].
    + apply elem_of_app. right. apply elem_of_cons. left. reflexivity.
    + unfold task_identity. rewrite Hobj, Hname, Hdue. reflexivity.
Qed.

Lemma sanitizeTasks_invalid_due_date_kept_witness :
  W_task_invalid_due_date "book band"
    ∈ [ W_task_invalid_due_date "Book band"; W_task_invalid_due_date "book band";
        W_task_duplicate "book band" "unspecified" ] /\
  exists t, t ∈ [ ex_task_record "Book band" None ] /\
            Str.toLowerCase (Task.task_name t) = Str.toLowerCase "book band" /\
            Task.due_date t = None.
Proof.
  apply (sanitizeTasks_invalid_due_date_kept
           [ex_task "Book band" (VStr "2025-02-30")] []
           (ex_task "book band" (VStr "soon")) "book band");
    vm_compute; reflexivity.
Defined.

(** *** Where the skipped items are *)

(** A loop whose body appends warnings, and appends the warning [W i] at
    the item of index [i] exactly when the item is [hit], has recorded [W k]
    exactly for the positions [k] of the hit items. *)
Lemma forEach_warning_positions {St : Type} (body : St -> nat -> value -> result St)
    (ws : St -> list warning) (W : nat -> warning) (hit : value -> bool) :
  (forall st i x st', body st i x = Ok st' ->
     exists extra, ws st' = ws st ++ extra /\
                   forall k, W k ∈ extra <-> k = i /\ hit x = true) ->
  forall items i st st', forEach body i items st = Ok st' ->
     exists extra, ws st' = ws st ++ extra /\
       forall k, W k ∈ extra <->
                 exists x, (i <= k)%nat /\ items !! (k - i)%nat = Some x /\ hit x = true.
Proof.
  intros Hstep items. induction items as [|x items IH]; intros i st st'; cbn [forEach].
  - intros [= <-]. exists []. split; [rewrite app_nil_r; reflexivity|].
    intros k. split; [intros []%elem_of_nil | intros (x & _ & [=] & _)].
  - intros (st1 & H1 & H2)%bind_Ok_inv.
    destruct (Hstep _ _ _ _ H1) as (e1 & E1 & P1).
    destruct (IH _ _ _ H2) as (e2 & E2 & P2).
    exists (e1 ++ e2). split; [rewrite E2, E1, app_assoc; reflexivity|].
    intros k. rewrite elem_of_app, P1, P2. split.
    + intros [[-> Hx] | (y & Hle & Hy & Hhit)].
      * exists x. rewrite Nat.sub_diag. auto.
      * exists y. split; [lia|]. split; [|exact Hhit].
        replace (k - i)%nat with (S (k - S i)) by lia. exact Hy.
    + intros (y & Hle & Hy & Hhit).
      destruct (decide (k = i)) as [->|Hne].
      * left. rewrite Nat.sub_diag in Hy. injection Hy as ->. auto.
      * right. exists y. split; [lia|]. split; [|exact Hhit].
        replace (k - i)%nat with (S (k - S i)) in Hy by lia. exact Hy.
Qed.

Ltac solve_positions :=
  eexists; split; [rewrite <- ?app_assoc; reflexivity|];
  intros k; rewrite ?elem_of_app, ?elem_of_cons, ?elem_of_nil;
  split; [intros H; repeat destruct H as [H|H]; try discriminate H;
          try contradiction; try (injection H as ->; split; reflexivity)
         | intros [-> H]; try discriminate H; auto].

Lemma sanitizeVendors_item_positions st i x st' :
  sanitizeVendors_item st i x = Ok st' ->
  (exists extra, v_warnings st' = v_warnings st ++ extra /\
     forall k, W_vendor_not_object k ∈ extra <-> k = i /\ negb (is_object x) = true) /\
  (exists extra, v_warnings st' = v_warnings st ++ extra /\
     forall k, W_vendor_missing_name k ∈ extra <-> k = i /\ vendor_nameless x = true).
Proof.
  unfold sanitizeVendors_item, vendor_nameless.
  destruct (is_object x); cbn [negb andb].
  2:{ intros [= <-]. cbn [v_warn v_warnings]. split; solve_positions. }
  destruct (canonicalizeVendorType (prop x "vendor_type")) as [vt|e];
    unfold mbind, result_bind; [|discriminate].
  destruct (toTrimmedString (prop x "vendor_name")) as [name|]; cbn [missing].
  2:{ intros [= <-]. cbn [v_warn v_warnings]. split; solve_positions. }
  destruct vt as [type|].
  2:{ intros [= <-]. cbn [v_warn v_warnings]. split; solve_positions. }
  destruct (bool_decide _).
  { intros [= <-]. cbn [v_warn v_warnings]. split; solve_positions. }
  destruct (lowered_or_null (prop x "status")) as [status|e].
  2:{ destruct (normalizeCurrency (prop x "total_cost")),
               (normalizeCurrency (prop x "deposit_amount"));
        try destruct (_ <? _)%Z; discriminate. }
  destruct (normalizeCurrency (prop x "total_cost")) as [t|],
           (normalizeCurrency (prop x "deposit_amount")) as [d|];
    try destruct (t <? d)%Z;
    destruct (some_nonempty status && _);
    intros [= <-]; cbn [v_warnings];
    split; first [ solve_positions
                 | exists []; split; [rewrite app_nil_r; reflexivity|];
                   intros k; rewrite elem_of_nil; split; [tauto | intros [_ [=]]] ].
Qed.

Lemma sanitizeBudgetItems_item_positions st i x st' :
  sanitizeBudgetItems_item st i x = Ok st' ->
  exists extra, st'.2 = st.2 ++ extra /\
    forall k, W_budget_not_object k ∈ extra <-> k = i /\ negb (is_object x) = true.
Proof.
  destruct st as [agg ws]. unfold sanitizeBudgetItems_item.
  destruct (is_object x); cbn [negb snd].
  2:{ intros [= <-]. cbn [snd]. solve_positions. }
  destruct (canonicalizeBudgetCategory (prop x "category")) as [[category|]|e];
    unfold mbind, result_bind; [| |discriminate].
  2:{ intros [= <-]. cbn [snd]. solve_positions. }
  destruct (normalizeCurrency (prop x "budgeted_amount")),
           (normalizeCurrency (prop x "spent_amount")),
           (normalizeCurrency (prop x "transaction_amount"));
    try destruct (Map_has category agg);
    intros [= <-]; cbn [snd];
    first [ solve_positions
          | exists []; split; [rewrite app_nil_r; reflexivity|];
            intros k; rewrite elem_of_nil; split; [tauto | intros [_ [=]]] ].
Qed.

Lemma sanitizeTasks_item_positions st i x st' :
  sanitizeTasks_item st i x = Ok st' ->
  (exists extra, t_warnings st' = t_warnings st ++ extra /\
     forall k, W_task_not_object k ∈ extra <-> k = i /\ negb (is_object x) = true) /\
  (exists extra, t_warnings st' = t_warnings st ++ extra /\
     forall k, W_task_missing_name k ∈ extra <-> k = i /\ task_nameless x = true).
Proof.
  unfold sanitizeTasks_item, task_nameless.
  destruct (is_object x); cbn [negb andb].
  2:{ intros [= <-]. cbn [t_warnings]. split; solve_positions. }
  destruct (toTrimmedString (prop x "task_name")) as [name|]; cbn [missing].
  2:{ intros [= <-]. cbn [t_warnings]. split; solve_positions. }
  destruct (canonicalizeTaskCategory (prop x "category")) as [canonical|e];
    unfold mbind, result_bind; [|discriminate].
  destruct (lowered_or_null (prop x "status")) as [status|e]; [|discriminate].
  destruct (lowered_or_null (prop x "priority")) as [priority|e]; [|discriminate].
  destruct (truthy (prop x "due_date") && _),
           (truthy (prop x "category") && _),
           (some_nonempty status && _), (some_nonempty priority && _),
           (bool_decide _);
    intros [= <-]; cbn [t_warnings];
    split; first [ solve_positions
                 | exists []; split; [rewrite app_nil_r; reflexivity|];
                   intros k; rewrite elem_of_nil; split; [tauto | intros [_ [=]]] ].
Qed.

Lemma positions_from_zero (items : list value) (hit : value -> bool) (k : nat) :
  (exists x, (0 <= k)%nat /\ items !! (k - 0)%nat = Some x /\ hit x = true) <->
  (exists x, items !! k = Some x /\ hit x = true).
Proof.
  rewrite Nat.sub_0_r. split.
  - intros (x & _ & H). eauto.
  - intros (x & H). exists x. split; [lia | exact H].
Qed.

(** Extra X11.  The warnings about skipped items point at the items: the
    run of a list sanitizer records [item k is not an object] exactly for
    the positions [k] of the entries that are not objects, and
    [item k missing name] exactly for the positions of the objects without
    a usable name. *)
Theorem skipped_item_warnings_locate :
  (forall items san ws k,
     sanitizeVendors (VArr items) = Ok (san, ws) ->
     (W_vendor_not_object k ∈ ws <->
      exists x, items !! k = Some x /\ negb (is_object x) = true) /\
     (W_vendor_missing_name k ∈ ws <->
      exists x, items !! k = Some x /\ vendor_nameless x = true)) /\
  (forall items san ws k,
     sanitizeBudgetItems (VArr items) = Ok (san, ws) ->
     (W_budget_not_object k ∈ ws <->
      exists x, items !! k = Some x /\ negb (is_object x) = true)) /\
  (forall items san ws k,
     sanitizeTasks (VArr items) = Ok (san, ws) ->
     (W_task_not_object k ∈ ws <->
      exists x, items !! k = Some x /\ negb (is_object x) = true) /\
     (W_task_missing_name k ∈ ws <->
      exists x, items !! k = Some x /\ task_nameless x = true)).
Proof.
  split; [|split].
  - intros items san ws k
      (items' & st & Hrun & _ & -> & Hitems)%sanitizeVendors_inv_array.
    rewrite <- (Hitems _ eq_refl) in Hrun. split.
    + destruct (forEach_warning_positions sanitizeVendors_item v_warnings
                  W_vendor_not_object (fun x => negb (is_object x))
                  (fun st i x st' H => proj1 (sanitizeVendors_item_positions st i x st' H))
                  _ _ _ _ Hrun) as (extra & -> & P).
      cbn [v_warnings app]. rewrite P. apply positions_from_zero.
    + destruct (forEach_warning_positions sanitizeVendors_item v_warnings
                  W_vendor_missing_name vendor_nameless
                  (fun st i x st' H => proj2 (sanitizeVendors_item_positions st i x st' H))
                  _ _ _ _ Hrun) as (extra & -> & P).
      cbn [v_warnings app]. rewrite P. apply positions_from_zero.
  - intros items san ws k. unfold sanitizeBudgetItems.
    destruct items as [|x0 items0] eqn:Eitems; cbn [nonempty_array].
    { intros [= <- <-]. split; [intros []%elem_of_nil | intros (x & [=] & _)]. }
    rewrite <- Eitems. clear Eitems.
    intros (st & Hrun & [= <- <-])%bind_Ok_inv.
    destruct (forEach_warning_positions sanitizeBudgetItems_item snd
                W_budget_not_object (fun x => negb (is_object x))
                sanitizeBudgetItems_item_positions _ _ _ _ Hrun) as (extra & -> & P).
    cbn [snd app]. rewrite P. apply positions_from_zero.
  - intros items san ws k
      (items' & st & Hrun & _ & -> & Hitems)%sanitizeTasks_inv_array.
    rewrite <- (Hitems _ eq_refl) in Hrun. split.
    + destruct (forEach_warning_positions sanitizeTasks_item t_warnings
                  W_task_not_object (fun x => negb (is_object x))
                  (fun st i x st' H => proj1 (sanitizeTasks_item_positions st i x st' H))
                  _ _ _ _ Hrun) as (extra & -> & P).
      cbn [t_warnings app]. rewrite P. apply positions_from_zero.
    + destruct (forEach_warning_positions sanitizeTasks_item t_warnings
                  W_task_missing_name task_nameless
                  (fun st i x st' H => proj2 (sanitizeTasks_item_positions st i x st' H))
                  _ _ _ _ Hrun) as (extra & -> & P).
      cbn [t_warnings app]. rewrite P. apply positions_from_zero.
Qed.

Lemma skipped_item_warnings_locate_witness :
  (W_vendor_not_object 1 ∈ [ W_vendor_not_object 1; W_vendor_missing_name 2 ] <->
   exists x, ex_vendors_skipped !! 1%nat = Some x /\ negb (is_object x) = true) /\
  (W_vendor_missing_name 2 ∈ [ W_vendor_not_object 1; W_vendor_missing_name 2 ] <->
   exists x, ex_vendors_skipped !! 2%nat = Some x /\ vendor_nameless x = true).
Proof.
  split.
  - apply (proj1 skipped_item_warnings_locate ex_vendors_skipped
             [ex_vendor_record "florist" "Bloom" None None]
             [ W_vendor_not_object 1; W_vendor_missing_name 2 ] 1%nat).
    vm_compute. reflexivity.
  - apply (proj1 skipped_item_warnings_locate ex_vendors_skipped
             [ex_vendor_record "florist" "Bloom" None None]
             [ W_vendor_not_object 1; W_vendor_missing_name 2 ] 2%nat).
    vm_compute. reflexivity.
Defined.

(** *** The shape of the sanitized profile *)

Lemma forOf_invariant {A St : Type} (body : St -> A -> result St) (P : St -> Prop) :
  (forall st x st', P st -> body st x = Ok st' -> P st') ->
  forall entries st st', P st -> forOf body entries st = Ok st' -> P st'.
Proof.
  intros Hstep entries. induction entries as [|x entries IH]; intros st st' HP; cbn [forOf].
  - intros [= <-]. exact HP.
  - intros (st1 & H1 & H2)%bind_Ok_inv. eauto.
Qed.

Lemma normalizeInteger_amount_ok v : amount_ok (normalizeInteger v).
Proof.
  intros z. destruct v as [| | |q|s| |]; try discriminate; cbn [normalizeInteger].
  - destruct (Number_isInteger q && Qle_bool 0 q) eqn:E; [|discriminate].
    apply andb_prop in E as [_ E%Qle_bool_iff]. intros [= <-].
    change 0%Z with (Qfloor 0). apply Qfloor_resp_le. exact E.
  - destruct (Str.is_empty s); [discriminate|].
    destruct (Str.is_empty _); [discriminate|]. intros [= <-]. lia.
Qed.

Lemma insert_schema (key : string) (f : field) (m : gmap string field) :
  field_schema key f ->
  (forall k g, m !! k = Some g -> field_schema k g) ->
  forall k g, <[key := f]> m !! k = Some g -> field_schema k g.
Proof.
  intros Hf Hm k g [[<- <-]|[_ H]]%lookup_insert_Some; [exact Hf | exact (Hm _ _ H)].
Qed.

Lemma weddingInfo_entry_schema st entry st' :
  (forall k g, st.1 !! k = Some g -> field_schema k g) ->
  weddingInfo_entry st entry = Ok st' ->
  forall k g, st'.1 !! k = Some g -> field_schema k g.
Proof.
  destruct st as [sanitized warnings], entry as [key raw]. cbn [fst].
  intros Hm. unfold weddingInfo_entry.
  destruct (is_blank raw); [intros [= <-]; exact Hm|].
  destruct (String.eqb_spec key "wedding_date") as [->|N1].
  { destruct (normalizeDate raw) as [d|] eqn:E.
    - intros [= <-]. apply insert_schema; [|exact Hm].
      exists d. split; [reflexivity|]. exact (normalizeDate_calendar_ok _ _ E).
    - intros (w & _ & [= <-])%bind_Ok_inv. exact Hm. }
  destruct (String.eqb_spec key "wedding_time") as [->|N2].
  { destruct (formatWeddingTimeForSupabase raw) as [t|].
    - intros [= <-]. apply insert_schema; [|exact Hm]. exists t. reflexivity.
    - intros (w & _ & [= <-])%bind_Ok_inv. exact Hm. }
  destruct (String.eqb_spec key "expected_guest_count") as [->|N3].
  { destruct (normalizeInteger raw) as [n|] eqn:E.
    - intros [= <-]. apply insert_schema; [|exact Hm].
      exists n. split; [reflexivity|]. exact (normalizeInteger_amount_ok _ _ E).
    - intros (w & _ & [= <-])%bind_Ok_inv. exact Hm. }
  destruct (String.eqb_spec key "total_budget") as [->|N4].
  { destruct (normalizeCurrency raw) as [n|] eqn:E.
    - intros [= <-]. apply insert_schema; [|exact Hm].
      exists n. split; [reflexivity|]. exact (normalizeCurrency_amount_ok _ _ E).
    - intros (w & _ & [= <-])%bind_Ok_inv. exact Hm. }
  destruct (String.eqb_spec key "venue_cost") as [->|N5].
  { destruct (normalizeCurrency raw) as [n|] eqn:E.
    - intros [= <-]. apply insert_schema; [|exact Hm].
      exists n. split; [reflexivity|]. exact (normalizeCurrency_amount_ok _ _ E).
    - intros (w & _ & [= <-])%bind_Ok_inv. exact Hm. }
  destruct (Str.includes text_keys key) eqn:Htext; [|intros [= <-]; exact Hm].
  destruct (toTrimmedString raw) as [t|] eqn:E; [|intros [= <-]; exact Hm].
  intros [= <-]. apply insert_schema; [|exact Hm].
  unfold field_schema.
  destruct (String.eqb_spec key "wedding_date"); [contradiction|].
  destruct (String.eqb_spec key "wedding_time"); [contradiction|].
  assert (Str.includes checked_keys key = false) as ->.
  { unfold Str.includes, checked_keys. apply bool_decide_eq_false.
    rewrite !elem_of_cons, elem_of_nil. tauto. }
  split; [exact Htext|]. exists t. split; [reflexivity|].
  exact (toTrimmedString_text_ok _ _ E).
Qed.

(** Extra X12.  Whatever [sanitizeWeddingInfo] stores is typed by its key:
    the wedding date is a day of the calendar, the wedding time is a text
    (the one the time normalizer returned), the guest count and the two
    amounts are integers that are not negative, and a free-text field is a
    non-empty trimmed text; no key other than these five and the nine
    free-text keys is stored. *)
Theorem sanitizeWeddingInfo_schema (weddingInfo : value)
    (sanitized : gmap string field) (warnings : list warning) :
  sanitizeWeddingInfo weddingInfo = Ok (sanitized, warnings) ->
  forall key f, sanitized !! key = Some f -> field_schema key f.
Proof.
  unfold sanitizeWeddingInfo. destruct (negb (is_object weddingInfo)).
  - intros [= <- <-] key f H. rewrite lookup_empty in H. discriminate.
  - intros Hrun.
    refine (forOf_invariant weddingInfo_entry
              (fun st => forall k g, st.1 !! k = Some g -> field_schema k g)
              weddingInfo_entry_schema _ (∅, []) (sanitized, warnings) _ Hrun).
    intros k g H. cbn in H. rewrite lookup_empty in H. discriminate.
Qed.

Lemma sanitizeWeddingInfo_schema_witness :
  field_schema "partner1_name" (FStr "Alex").
Proof.
  apply (sanitizeWeddingInfo_schema ex_profile ex_profile_fields
           [W_wedding_date (VStr "next spring")]).
  - vm_compute. reflexivity.
  - vm_compute. reflexivity.
Defined.

(** *** The twelve-hour clock and documents without sections *)

Lemma clock12_table :
  forallb (fun h => forallb (fun m => forallb (fun blank => forallb (fun pm =>
     clock12_converts h m blank pm) [false; true]) [false; true]) (seq 0 60)) (seq 1 12)
  = true.
Proof. vm_compute. reflexivity. Qed.

(** Extra X13.  On the twelve-hour clock the time normalizer is right:
    every hour from 1 to 12 with minutes from 00 to 59, followed by [am] or
    [pm] with or without a blank, is converted to the same time of the
    twenty-four-hour clock, 12 am being 00 and 12 pm being 12. *)
Theorem formatWeddingTime_twelve_hour_clock (h m : nat) (blank pm : bool) :
  (1 <= h <= 12)%nat -> (m <= 59)%nat ->
  formatWeddingTimeForSupabase (VStr (clock12 h m blank pm)) = Some (clock24 h m pm) /\
  is_HHMM (clock24 h m pm) = true.
Proof.
  intros Hh Hm.
  pose proof (proj1 (forallb_forall _ _) clock12_table h) as T.
  cbv beta in T. specialize (T ltac:(apply in_seq; lia)).
  pose proof (proj1 (forallb_forall _ _) T m) as T'.
  cbv beta in T'. specialize (T' ltac:(apply in_seq; lia)).
  pose proof (proj1 (forallb_forall _ _) T' blank) as T''.
  cbv beta in T''. specialize (T'' ltac:(destruct blank; cbn; auto)).
  pose proof (proj1 (forallb_forall _ _) T'' pm) as C.
  cbv beta in C. specialize (C ltac:(destruct pm; cbn; auto)).
  unfold clock12_converts in C. apply andb_prop in C as [C1 C2].
  split; [apply bool_decide_eq_true in C1; exact C1 | exact C2].
Qed.

Lemma formatWeddingTime_twelve_hour_clock_witness :
  formatWeddingTimeForSupabase (VStr "5:30 pm") = Some "17:30" /\
  is_HHMM "17:30" = true.
Proof.
  apply (formatWeddingTime_twelve_hour_clock 5 30 true true); lia.
Defined.

(** Extra X14.  A text that parses to a document carrying none of the four
    sections yields the zero-value result, with no warning and no parse
    error; in particular every top-level number, text, boolean and array
    does, so such a reply is indistinguishable from an empty one. *)
Theorem processClaudePayload_no_sections (JSON_parse : string -> result value)
    (text : string) (parsed : value) :
  Str.is_empty (Str.trim text) = false ->
  (Z.of_nat (String.length (Str.trim text)) <= MAX_EXTRACTED_JSON_CHARS)%Z ->
  JSON_parse (Str.trim text) = Ok parsed ->
  is_scalar_or_array parsed = true \/
  (exists props, parsed = VObj props /\ forall k, k ∈ section_keys -> k ∉ props.*1) ->
  processClaudePayload JSON_parse (VStr text) = Ok zero_result.
Proof.
  intros Hne Hlen Hparse Hdoc. unfold processClaudePayload.
  assert (truthy (VStr text) = true) as ->.
  { cbn. destruct text; [discriminate | reflexivity]. }
  cbn [negb]. rewrite Hne.
  destruct (Z.ltb_spec MAX_EXTRACTED_JSON_CHARS (Z.of_nat (String.length (Str.trim text))));
    [lia|].
  rewrite Hparse.
  assert (forall k, k ∈ section_keys -> get parsed k = Ok VUndefined) as Hget.
  { intros k Hk. destruct Hdoc as [Hs | (props & -> & Habs)].
    - destruct parsed; try discriminate; reflexivity.
    - cbn. specialize (Habs k Hk). apply Map_get_None_keys in Habs.
      rewrite Habs. reflexivity. }
  rewrite !Hget by (unfold section_keys; set_solver).
  reflexivity.
Qed.

Lemma processClaudePayload_no_sections_witness :
  processClaudePayload Json.parse (VStr (Json.quoted " [{'vendor_name': 'Bloom'}] "))
  = Ok zero_result.
Proof.
  apply (processClaudePayload_no_sections Json.parse
           (Json.quoted " [{'vendor_name': 'Bloom'}] ")
           (VArr [VObj [("vendor_name", VStr "Bloom")]])).
  - vm_compute. reflexivity.
  - vm_compute. discriminate.
  - vm_compute. reflexivity.
  - left. reflexivity.
Defined.

(** *** Session storage and the client singleton *)

Lemma setItem_if_lookup key id items k :
  Session.setItem_if key id items !! k
  = if decide (key = k) then stored_id id (items !! k) else items !! k.
Proof.
  unfold Session.setItem_if, stored_id.
  destruct id as [text|]; cbn [some_nonempty].
  - destruct (Str.is_empty text); cbn [negb].
    + destruct (decide (key = k)); reflexivity.
    + destruct (decide (key = k)) as [->|Hne].
      * apply lookup_insert_eq.
      * apply lookup_insert_ne. exact Hne.
  - destruct (decide (key = k)); reflexivity.
Qed.

(** Extra X15.  [storeSession] followed by [getStoredSession] gives back
    every identifier that was passed; an identifier that was not passed
    (null or empty) leaves the stored one in place, so the pair read back
    can mix a new user with an old wedding.  [clearSession] removes both
    and nothing else, and no other key is ever touched. *)
Theorem storeSession_round_trip (session : Session.t) (items : gmap string string) :
  Session.getStoredSession (Session.storeSession session (Some items))
  = Session.mk (stored_id (Session.userId session) (items !! Session.USER_ID_KEY))
               (stored_id (Session.weddingId session) (items !! Session.WEDDING_ID_KEY)) /\
  Session.getStoredSession (Session.clearSession (Session.storeSession session (Some items)))
  = Session.mk None None /\
  (forall key,
     key <> Session.USER_ID_KEY -> key <> Session.WEDDING_ID_KEY ->
     exists items' items'',
       Session.storeSession session (Some items) = Some items' /\
       Session.clearSession (Some items') = Some items'' /\
       items' !! key = items !! key /\ items'' !! key = items !! key).
Proof.
  split; [|split].
  - unfold Session.getStoredSession, Session.storeSession, Session.getItem.
    rewrite !setItem_if_lookup.
    destruct (decide (Session.WEDDING_ID_KEY = Session.USER_ID_KEY)) as [[=]|_].
    destruct (decide (Session.USER_ID_KEY = Session.USER_ID_KEY)) as [_|[]]; [|reflexivity].
    destruct (decide (Session.WEDDING_ID_KEY = Session.WEDDING_ID_KEY)) as [_|[]];
      [|reflexivity].
    destruct (decide (Session.USER_ID_KEY = Session.WEDDING_ID_KEY)) as [[=]|_].
    reflexivity.
  - unfold Session.getStoredSession, Session.clearSession, Session.storeSession,
      Session.getItem.
    rewrite lookup_delete_ne by discriminate.
    rewrite !lookup_delete_eq. reflexivity.
  - intros key Hu Hw. eexists _, _. split; [reflexivity|]. split; [reflexivity|].
    assert (Session.setItem_if Session.WEDDING_ID_KEY (Session.weddingId session)
              (Session.setItem_if Session.USER_ID_KEY (Session.userId session) items)
              !! key = items !! key) as Hkey.
    { rewrite !setItem_if_lookup.
      destruct (decide (Session.WEDDING_ID_KEY = key)) as [<-|_]; [contradiction|].
      destruct (decide (Session.USER_ID_KEY = key)) as [<-|_]; [contradiction|].
      reflexivity. }
    split; [exact Hkey|].
    rewrite !lookup_delete_ne by (intros E; symmetry in E; contradiction).
    exact Hkey.
Qed.

Lemma storeSession_round_trip_witness :
  Session.getStoredSession
    (Session.storeSession (Session.mk (Some "u2") None) (Some ex_storage))
  = Session.mk (Some "u2") (Some "w1") /\
  exists items' items'',
    Session.storeSession (Session.mk (Some "u2") None) (Some ex_storage) = Some items' /\
    Session.clearSession (Some items') = Some items'' /\
    items' !! "theme" = ex_storage !! "theme" /\
    items'' !! "theme" = ex_storage !! "theme".
Proof.
  split.
  - exact (proj1 (storeSession_round_trip (Session.mk (Some "u2") None) ex_storage)).
  - apply (proj2 (proj2 (storeSession_round_trip (Session.mk (Some "u2") None) ex_storage))
             "theme"); discriminate.
Defined.

Lemma initSupabase_step {Client : Type} (options : Supabase.Options Client)
    (env : Supabase.Env Client) (st st' : option Client) (r : Supabase.outcome Client) :
  Supabase.initSupabase options env st = (r, st') ->
  match st with
  | Some client => r = Supabase.Returned client /\ st' = Some client
  | None =>
      (exists client, r = Supabase.Returned client /\ st' = Some client) \/
      (exists e, r = Supabase.Thrown e /\ st' = None)
  end.
Proof.
  unfold Supabase.initSupabase. destruct st as [client|].
  - intros [= <- <-]. auto.
  - destruct (Supabase.getSupabaseConfig env) as [defaultUrl defaultAnonKey].
    destruct (Supabase.or_else _ _) as [lib|]; [|intros [= <- <-]; eauto].
    destruct (Supabase.or_text (Supabase.supabaseUrl options) defaultUrl) as [url|];
      [|intros [= <- <-]; eauto].
    destruct (Supabase.or_text (Supabase.supabaseAnonKey options) defaultAnonKey) as [key|];
      [|intros [= <- <-]; eauto].
    destruct (Str.is_empty url || Str.is_empty key); [intros [= <- <-]; eauto|].
    destruct (lib url key) as [[client|]|message]; intros [= <- <-]; eauto.
Qed.

(** Extra X16.  The client is a singleton: in any run of calls of
    [initSupabase], whatever their options and environments, a call that
    follows a successful one returns the client of that call, so all
    clients returned are the same one; a call that throws leaves nothing
    cached, and the run ends without a client exactly when every call has
    thrown. *)
Theorem initSupabase_singleton {Client : Type}
    (calls : list (Supabase.Options Client * Supabase.Env Client))
    (results : list (Supabase.outcome Client)) (final : option Client) :
  Supabase.initSupabase_calls calls None = (results, final) ->
  length results = length calls /\
  (forall i j ci,
     (i <= j)%nat -> (j < length calls)%nat ->
     results !! i = Some (Supabase.Returned ci) ->
     results !! j = Some (Supabase.Returned ci) /\ final = Some ci) /\
  (final = None <-> forall r, r ∈ results -> exists e, r = Supabase.Thrown e).
Proof.
  assert (forall calls (client : Client) results final,
            Supabase.initSupabase_calls calls (Some client) = (results, final) ->
            final = Some client /\ results = replicate (length calls) (Supabase.Returned client))
    as Hcached.
  { clear. intros calls client.
    induction calls as [|[options env] calls IH]; intros results final;
      cbn [Supabase.initSupabase_calls].
    - intros [= <- <-]. auto.
    - cbn [Supabase.initSupabase].
      destruct (Supabase.initSupabase_calls calls (Some client)) as [rs st] eqn:E.
      intros [= <- <-]. destruct (IH _ _ eq_refl) as [-> ->]. auto. }
  revert results final.
  induction calls as [|[options env] calls IH]; intros results final;
    cbn [Supabase.initSupabase_calls].
  - intros [= <- <-]. split; [reflexivity|]. split.
    + intros i j ci _ Hj. cbn in Hj. lia.
    + split; [intros _ r []%elem_of_nil | reflexivity].
  - destruct (Supabase.initSupabase options env None) as [r st] eqn:Hstep.
    destruct (Supabase.initSupabase_calls calls st) as [rs st'] eqn:Hrest.
    intros [= <- <-]. apply initSupabase_step in Hstep.
    destruct Hstep as [(client & -> & ->) | (e & -> & ->)].
    + destruct (Hcached _ _ _ _ Hrest) as [-> ->].
      split; [cbn; rewrite length_replicate; reflexivity|]. split.
      * intros i j ci Hij Hj Hi. cbn [length] in Hj.
        assert (ci = client) as ->.
        { destruct i as [|i]; [injection Hi as ->; reflexivity|].
          cbn in Hi. apply lookup_replicate in Hi as [[= ->] _]. reflexivity. }
        split; [|reflexivity].
        destruct j as [|j]; [reflexivity|]. cbn.
        apply lookup_replicate. split; [reflexivity | lia].
      * split; [discriminate|]. intros H.
        destruct (H (Supabase.Returned client)) as [e [=]]. apply elem_of_cons. auto.
    + destruct (IH _ _ Hrest) as (Hlen & Hsame & Hnone).
      split; [cbn; rewrite Hlen; reflexivity|]. split.
      * intros i j ci Hij Hj Hi. cbn [length] in Hj.
        destruct i as [|i]; [discriminate|]. destruct j as [|j]; [lia|].
        cbn in Hi |- *. apply (Hsame i j ci); [lia | lia | exact Hi].
      * rewrite Hnone. split.
        -- intros H r [->|Hr]%elem_of_cons; [eauto | exact (H r Hr)].
        -- intros H r Hr. apply H. apply elem_of_cons. auto.
Qed.

Lemma initSupabase_singleton_witness :
  [ Supabase.Thrown Supabase.SdkNotAvailable; Supabase.Returned 17%nat;
    Supabase.Returned 17%nat ] !! 2%nat = Some (Supabase.Returned 17%nat) /\
  Some 17%nat = Some 17%nat.
Proof.
  apply (proj1 (proj2 (initSupabase_singleton ex_calls
           [ Supabase.Thrown Supabase.SdkNotAvailable; Supabase.Returned 17%nat;
             Supabase.Returned 17%nat ] (Some 17%nat) eq_refl)) 1%nat 2%nat 17%nat).
  - lia.
  - cbn. lia.
  - reflexivity.
Defined.

(** *** Rate limiter *)

Lemma checkRateLimit_open identifier options now requestCounts n reset :
  requestCounts !! identifier = Some (Counter.mk n reset) ->
  (1 <= n)%Z -> (now <= reset)%Z ->
  checkRateLimit identifier options now requestCounts
  = (verdict_of_call options reset (n + 1),
     <[identifier := Counter.mk (n + 1) reset]> requestCounts).
Proof.
  intros Hget Hn Hnow. unfold checkRateLimit, verdict_of_call. rewrite Hget.
  cbn [Counter.resetTime Counter.count].
  destruct (Z.ltb_spec reset now); [lia|].
  destruct (Z.eqb_spec (n + 1) 1); [lia|]. cbn [orb].
  destruct (Z.ltb_spec (maxRequests options) (n + 1)),
           (Z.leb_spec (n + 1) (maxRequests options)); try lia; reflexivity.
Qed.

Lemma checkRateLimit_closed identifier options now requestCounts :
  window_closed identifier now requestCounts ->
  checkRateLimit identifier options now requestCounts
  = (verdict_of_call options (now + windowMs options) 1,
     <[identifier := Counter.mk 1 (now + windowMs options)]> requestCounts).
Proof.
  unfold window_closed, checkRateLimit, verdict_of_call.
  destruct (requestCounts !! identifier) as [data|]; [|reflexivity].
  intros H. destruct (Z.ltb_spec (Counter.resetTime data) now); [reflexivity | lia].
Qed.

Lemma checkRateLimit_calls_open identifier options times :
  forall requestCounts n reset verdicts final,
    requestCounts !! identifier = Some (Counter.mk n reset) ->
    (1 <= n)%Z -> Forall (fun now => (now <= reset)%Z) times ->
    checkRateLimit_calls identifier options times requestCounts = (verdicts, final) ->
    verdicts = (fun k => verdict_of_call options reset (n + 1 + Z.of_nat k))
                 <$> seq 0 (length times) /\
    final !! identifier = Some (Counter.mk (n + Z.of_nat (length times)) reset).
Proof.
  induction times as [|now times IH]; intros requestCounts n reset verdicts final Hget Hn Hall;
    cbn [checkRateLimit_calls].
  - intros [= <- <-]. split; [reflexivity|]. rewrite Hget. cbn. rewrite Z.add_0_r. reflexivity.
  - apply Forall_cons in Hall as [Hnow Hall].
    rewrite (checkRateLimit_open _ _ _ _ _ _ Hget Hn Hnow).
    destruct (checkRateLimit_calls identifier options times _) as [vs st] eqn:Hrest.
    intros [= <- <-].
    apply IH with (n := (n + 1)%Z) (reset := reset) in Hrest;
      [|apply lookup_insert_eq | lia | exact Hall].
    destruct Hrest as [-> Hfinal]. split.
    + cbn [length seq fmap list_fmap]. rewrite Z.add_0_r. f_equal.
      rewrite <- seq_shift, <- list_fmap_compose. apply list_fmap_ext.
      intros _ k _. cbn. f_equal. lia.
    + rewrite Hfinal. f_equal. f_equal. cbn [length]. lia.
Qed.

(** Extra X17.  A window of the rate limiter is fixed and counts every
    call: when a client without an open window calls at [now], and then
    calls again at any times up to [now + windowMs], the call number [n] is
    allowed exactly when [n = 1] or [n <= maxRequests], it reports
    [maxRequests - n] remaining calls when allowed and 0 when refused, every
    answer carries the reset time [now + windowMs] of the first call, and
    the refused calls are counted too. *)
Theorem checkRateLimit_window (identifier : string) (options : RateLimit) (now : Z)
    (times : list Z) (requestCounts : gmap string Counter.t)
    (verdicts : list Verdict.t) (final : gmap string Counter.t) :
  window_closed identifier now requestCounts ->
  Forall (fun later => (later <= now + windowMs options)%Z) times ->
  checkRateLimit_calls identifier options (now :: times) requestCounts = (verdicts, final) ->
  verdicts = (fun k => verdict_of_call options (now + windowMs options) (1 + Z.of_nat k))
               <$> seq 0 (S (length times)) /\
  final !! identifier
  = Some (Counter.mk (1 + Z.of_nat (length times)) (now + windowMs options)).
Proof.
  intros Hclosed Hall. cbn [checkRateLimit_calls].
  rewrite (checkRateLimit_closed _ _ _ _ Hclosed).
  destruct (checkRateLimit_calls identifier options times _) as [vs st] eqn:Hrest.
  intros [= <- <-].
  apply checkRateLimit_calls_open with (n := 1%Z) (reset := (now + windowMs options)%Z)
    in Hrest; [|apply lookup_insert_eq | lia | exact Hall].
  destruct Hrest as [-> Hfinal]. split; [|exact Hfinal].
  cbn [seq fmap list_fmap]. f_equal.
  rewrite <- seq_shift, <- list_fmap_compose. apply list_fmap_ext.
  intros _ k _. cbn. f_equal. lia.
Qed.

Lemma checkRateLimit_window_witness :
  [ Verdict.mk true 1 6000; Verdict.mk true 0 6000; Verdict.mk false 0 6000 ]
  = (fun k => verdict_of_call ex_limit (5000 + windowMs ex_limit) (1 + Z.of_nat k))
      <$> seq 0 3 /\
  (<[ "10.0.0.1" := Counter.mk 3 6000 ]> (∅ : gmap string Counter.t)) !! "10.0.0.1"
  = Some (Counter.mk (1 + Z.of_nat 2) (5000 + windowMs ex_limit)).
Proof.
  apply (checkRateLimit_window "10.0.0.1" ex_limit 5000 [5001; 6000]%Z ∅).
  - exact I.
  - repeat constructor; cbn; lia.
  - vm_compute. reflexivity.
Defined.

Lemma checkRateLimit_entry identifier options now requestCounts :
  (checkRateLimit identifier options now requestCounts).2
  = <[identifier := default (Counter.mk 0 0)
                      ((checkRateLimit identifier options now requestCounts).2 !! identifier)]>
      requestCounts.
Proof.
  unfold checkRateLimit. destruct (requestCounts !! identifier) as [data|].
  - destruct (_ <? now)%Z; [cbn [snd]; rewrite lookup_insert_eq; reflexivity|].
    cbv zeta. destruct (_ <? _)%Z; cbn [snd]; rewrite lookup_insert_eq; reflexivity.
  - cbn [snd]. rewrite lookup_insert_eq. reflexivity.
Qed.

Lemma checkRateLimit_depends identifier options now rc1 rc2 :
  rc1 !! identifier = rc2 !! identifier \/
  (window_closed identifier now rc1 /\ window_closed identifier now rc2) ->
  (checkRateLimit identifier options now rc1).1
  = (checkRateLimit identifier options now rc2).1 /\
  (checkRateLimit identifier options now rc1).2 !! identifier
  = (checkRateLimit identifier options now rc2).2 !! identifier.
Proof.
  intros [Heq | [H1 H2]].
  - unfold checkRateLimit. rewrite Heq.
    destruct (rc2 !! identifier) as [data|].
    + destruct (_ <? now)%Z; [cbn; rewrite !lookup_insert_eq; auto|].
      cbv zeta. destruct (_ <? _)%Z; cbn; rewrite !lookup_insert_eq; auto.
    + cbn. rewrite !lookup_insert_eq. auto.
  - rewrite (checkRateLimit_closed _ _ _ _ H1), (checkRateLimit_closed _ _ _ _ H2).
    cbn. rewrite !lookup_insert_eq. auto.
Qed.

(** Extra X18.  The limiter keeps the clients apart and the periodic
    cleanup is invisible: a call changes the entry of its own identifier
    only, its answer depends on that entry only, and a cleanup at an
    earlier time [swept] changes neither the answer of a later call nor the
    entry the call leaves; the cleanup deletes only entries whose window
    has closed. *)
Theorem checkRateLimit_local_and_cleanup (identifier : string) (options : RateLimit)
    (now swept : Z) (requestCounts : gmap string Counter.t) :
  (forall other, other <> identifier ->
     (checkRateLimit identifier options now requestCounts).2 !! other
     = requestCounts !! other) /\
  (forall requestCounts',
     requestCounts' !! identifier = requestCounts !! identifier ->
     (checkRateLimit identifier options now requestCounts').1
     = (checkRateLimit identifier options now requestCounts).1) /\
  ((swept <= now)%Z ->
   (checkRateLimit identifier options now (cleanup swept requestCounts)).1
   = (checkRateLimit identifier options now requestCounts).1 /\
   (checkRateLimit identifier options now (cleanup swept requestCounts)).2 !! identifier
   = (checkRateLimit identifier options now requestCounts).2 !! identifier) /\
  (forall other data,
     requestCounts !! other = Some data -> (swept <= Counter.resetTime data)%Z ->
     cleanup swept requestCounts !! other = Some data).
Proof.
  split; [|split; [|split]].
  - intros other Hne. rewrite checkRateLimit_entry.
    apply lookup_insert_ne. intros E. apply Hne. symmetry. exact E.
  - intros rc' Heq. apply checkRateLimit_depends. left. exact Heq.
  - intros Hswept. apply checkRateLimit_depends.
    destruct (cleanup swept requestCounts !! identifier) as [data|] eqn:Hc.
    + left. unfold cleanup in Hc. apply map_lookup_filter_Some in Hc as [Hc _].
      rewrite Hc. reflexivity.
    + destruct (requestCounts !! identifier) as [data|] eqn:Hr; [|left; reflexivity].
      right. unfold window_closed. rewrite Hc, Hr. split; [exact I|].
      unfold cleanup in Hc. rewrite map_lookup_filter_None in Hc.
      destruct Hc as [Hc | Hc]; [congruence|].
      specialize (Hc data Hr). cbn in Hc.
      destruct (decide (0 < swept - Counter.resetTime data)%Z) as [Hd|Hd]; [lia|].
      contradiction.
  - intros other data Hget Hopen. unfold cleanup.
    apply map_lookup_filter_Some. split; [exact Hget|]. cbn. lia.
Qed.

Lemma checkRateLimit_local_and_cleanup_witness :
  (checkRateLimit "10.0.0.1" ex_limit 7000 ex_counts).2 !! "10.0.0.2"
  = ex_counts !! "10.0.0.2" /\
  (checkRateLimit "10.0.0.1" ex_limit 7000 (cleanup 6500 ex_counts)).1
  = (checkRateLimit "10.0.0.1" ex_limit 7000 ex_counts).1 /\
  cleanup 6500 ex_counts !! "10.0.0.2" = Some (Counter.mk 1 9000).
Proof.
  pose proof (checkRateLimit_local_and_cleanup "10.0.0.1" ex_limit 7000 6500 ex_counts)
    as (H1 & _ & H3 & H4).
  split; [apply H1; discriminate|]. split.
  - apply H3. lia.
  - apply H4; [reflexivity | cbn; lia].
Defined.

(** *** CORS and the client identifier *)

Lemma configureCors_calls_head origins origin rest :
  configureCors_calls origins (("Access-Control-Allow-Origin", origin) :: rest)
  = ("Access-Control-Allow-Origin", origin_in_force origins origin) :: rest.
Proof.
  revert origin. induction origins as [|o origins IH]; intros origin; [reflexivity|].
  unfold configureCors_calls, origin_in_force in *. cbn [foldl].
  destruct o as [text|]; cbn [configureCors str_or]; [|apply IH].
  destruct (Str.is_empty text); [apply IH|].
  cbn [Map_set]. rewrite String.eqb_refl. apply IH.
Qed.

Lemma handleCORS_parts cors req res :
  (handleCORS cors req res).1 = String.eqb (method req) "OPTIONS" /\
  headers (handleCORS cors req res).2
  = headers (foldl (fun res '(key, value) => setHeader key value res) res cors) /\
  (statusCode (handleCORS cors req res).2, ended (handleCORS cors req res).2)
  = (if String.eqb (method req) "OPTIONS" then (Some 200%Z, true)
     else (statusCode (foldl (fun res '(key, value) => setHeader key value res) res cors),
           ended (foldl (fun res '(key, value) => setHeader key value res) res cors))).
Proof. unfold handleCORS. destruct (String.eqb _ _); auto. Qed.

Lemma cors_headers_fold origin res :
  headers (foldl (fun res '(key, value) => setHeader key value res) res
             (("Access-Control-Allow-Origin", origin) :: tail CORS_HEADERS))
  = <["Access-Control-Max-Age" := "86400"]>
      (<["Access-Control-Allow-Credentials" := "true"]>
         (<["Access-Control-Allow-Headers" := "Content-Type, Authorization"]>
            (<["Access-Control-Allow-Methods" := "GET, POST, PUT, DELETE, OPTIONS"]>
               (<["Access-Control-Allow-Origin" := origin]> (headers res))))) /\
  statusCode (foldl (fun res '(key, value) => setHeader key value res) res
                (("Access-Control-Allow-Origin", origin) :: tail CORS_HEADERS))
  = statusCode res /\
  ended (foldl (fun res '(key, value) => setHeader key value res) res
           (("Access-Control-Allow-Origin", origin) :: tail CORS_HEADERS))
  = ended res.
Proof. split; [|split]; reflexivity. Qed.

(** Extra X19.  After any sequence of [configureCors] calls, [handleCORS]
    answers with the origin configured last (an absent or empty origin
    configures nothing) and with the four other CORS headers at their
    constant values; it leaves every other header of the response alone,
    and it ends the response, with status 200, exactly for the method
    [OPTIONS]. *)
Theorem handleCORS_after_configureCors (origins : list (option string))
    (req : Request) (res : Response) :
  let answer := handleCORS (configureCors_calls origins CORS_HEADERS) req res in
  answer.1 = String.eqb (method req) "OPTIONS" /\
  headers answer.2 !! "Access-Control-Allow-Origin"
  = Some (origin_in_force origins "https://bridebuddyv2.vercel.app") /\
  (forall key value,
     (key, value) ∈ tail CORS_HEADERS -> headers answer.2 !! key = Some value) /\
  (forall key, key ∉ CORS_HEADERS.*1 -> headers answer.2 !! key = headers res !! key) /\
  (statusCode answer.2, ended answer.2)
  = (if answer.1 then (Some 200%Z, true) else (statusCode res, ended res)).
Proof.
  cbv zeta. destruct (handleCORS_parts (configureCors_calls origins CORS_HEADERS) req res)
    as (H1 & H2 & H3).
  rewrite H1, H2, H3. clear H1 H2 H3.
  assert (configureCors_calls origins CORS_HEADERS
          = ("Access-Control-Allow-Origin",
             origin_in_force origins "https://bridebuddyv2.vercel.app")
              :: tail CORS_HEADERS) as ->
    by apply configureCors_calls_head.
  set (origin := origin_in_force origins _).
  destruct (cors_headers_fold origin res) as (-> & -> & ->).
  split; [reflexivity|]. split; [|split; [|split]].
  - rewrite !lookup_insert_ne by discriminate. apply lookup_insert_eq.
  - intros key value Hin. unfold CORS_HEADERS in Hin. cbn [tail] in Hin.
    rewrite !elem_of_cons, elem_of_nil in Hin.
    destruct Hin as [[= -> ->]|[[= -> ->]|[[= -> ->]|[[= -> ->]|[]]]]];
      repeat (rewrite lookup_insert_ne by discriminate); apply lookup_insert_eq.
  - intros key Hkey. unfold CORS_HEADERS in Hkey. cbn in Hkey.
    rewrite !not_elem_of_cons in Hkey. destruct Hkey as (K1 & K2 & K3 & K4 & K5 & _).
    rewrite !lookup_insert_ne by (intros E; symmetry in E; contradiction). reflexivity.
  - reflexivity.
Qed.

Lemma handleCORS_after_configureCors_witness :
  headers (handleCORS
             (configureCors_calls [Some "https://a.example"; None; Some ""] CORS_HEADERS)
             (mkRequest None None None "OPTIONS") (mkResponse ∅ None false)).2
    !! "Access-Control-Max-Age" = Some "86400".
Proof.
  apply (proj1 (proj2 (proj2 (handleCORS_after_configureCors
           [Some "https://a.example"; None; Some ""]
           (mkRequest None None None "OPTIONS") (mkResponse ∅ None false))))).
  unfold CORS_HEADERS. cbn [tail]. rewrite !elem_of_cons. tauto.
Defined.

Lemma split_comma_head_spec s :
  no_comma (split_comma_head s) = true /\
  exists rest, s = split_comma_head s +:+ rest /\
               (rest = "" \/ first_char rest = Some ","%char).
Proof.
  induction s as [|c s (IH1 & rest & IH2 & IH3)]; cbn [split_comma_head].
  - split; [reflexivity|]. exists "". auto.
  - destruct (Ascii.eqb_spec c ",") as [->|Hc].
    + split; [reflexivity|]. exists (String "," s). auto.
    + split.
      * cbn [no_comma]. rewrite IH1. apply Ascii.eqb_neq in Hc. rewrite Hc. reflexivity.
      * exists rest. split; [|exact IH3]. rewrite append_cons, <- IH2. reflexivity.
Qed.

Lemma str_or_nonempty a dflt : dflt <> "" -> str_or a dflt <> "".
Proof.
  intros Hd. unfold str_or. destruct a as [s|]; [|exact Hd].
  destruct s; [exact Hd | discriminate].
Qed.

(** Extra X20.  The client identifier is the first entry of the forwarded
    list when that header is present and non-empty: the text before its
    first comma, taken as it is, without trimming; otherwise the real-IP
    header, the address of the connection or [unknown], whichever is the
    first non-empty one.  It is the empty text only for a forwarded list
    that begins with a comma. *)
Theorem getClientIdentifier_first_entry (req : Request) :
  (forall forwarded,
     x_forwarded_for req = Some forwarded -> forwarded <> "" ->
     no_comma (getClientIdentifier req) = true /\
     exists rest,
       forwarded = getClientIdentifier req +:+ rest /\
       (rest = "" \/ first_char rest = Some ","%char)) /\
  (getClientIdentifier req = "" ->
   exists forwarded,
     x_forwarded_for req = Some forwarded /\ first_char forwarded = Some ","%char).
Proof.
  unfold getClientIdentifier. split.
  - intros forwarded -> Hne.
    destruct forwarded as [|c s]; [contradiction|]. cbn [Str.is_empty negb].
    apply split_comma_head_spec.
  - assert (str_or (x_real_ip req) (str_or (remoteAddress req) "unknown") <> "") as Hother.
    { apply str_or_nonempty, str_or_nonempty. discriminate. }
    destruct (x_forwarded_for req) as [forwarded|]; [|intros H; contradiction].
    destruct forwarded as [|c s]; cbn [Str.is_empty negb]; [intros H; contradiction|].
    cbn [split_comma_head]. destruct (Ascii.eqb_spec c ",") as [->|_]; [|discriminate].
    intros _. exists (String "," s). auto.
Qed.

Lemma getClientIdentifier_first_entry_witness :
  no_comma (getClientIdentifier
              (mkRequest (Some "203.0.113.7, 10.0.0.1") (Some "10.0.0.9") None "POST"))
  = true /\
  exists rest,
    "203.0.113.7, 10.0.0.1"
    = getClientIdentifier
        (mkRequest (Some "203.0.113.7, 10.0.0.1") (Some "10.0.0.9") None "POST") +:+ rest /\
    (rest = "" \/ first_char rest = Some ","%char).
Proof.
  apply (proj1 (getClientIdentifier_first_entry
                  (mkRequest (Some "203.0.113.7, 10.0.0.1") (Some "10.0.0.9") None "POST"))
           "203.0.113.7, 10.0.0.1").
  - reflexivity.
  - discriminate.
Defined.

(** *** Escaping and URLs *)

Lemma append_nil_l (s : string) : "" +:+ s = s.
Proof. reflexivity. Qed.

Lemma append_assoc_string (a b c : string) : (a +:+ b) +:+ c = a +:+ (b +:+ c).
Proof.
  induction a as [|x a IH]; [reflexivity|]. rewrite !append_cons, IH. reflexivity.
Qed.

Lemma replace_char_append c r (a b : string) :
  replace_char c r (a +:+ b) = replace_char c r a +:+ replace_char c r b.
Proof.
  induction a as [|x a IH]; [reflexivity|].
  rewrite append_cons. cbn [replace_char]. destruct (Ascii.eqb x c).
  - rewrite IH. symmetry. apply append_assoc_string.
  - rewrite IH, append_cons. reflexivity.
Qed.

Lemma escapeHtml_cons c s :
  escapeHtml (Some (String c s)) = escape_char c +:+ escapeHtml (Some s).
Proof.
  unfold escapeHtml, escape_char. cbn [replace_char].
  destruct (Ascii.eqb_spec c "&") as [->|N1].
  { rewrite !replace_char_append. reflexivity. }
  cbn [replace_char]. destruct (Ascii.eqb_spec c "<") as [->|N2].
  { rewrite !replace_char_append. reflexivity. }
  cbn [replace_char]. destruct (Ascii.eqb_spec c ">") as [->|N3].
  { rewrite !replace_char_append. reflexivity. }
  cbn [replace_char]. destruct (Ascii.eqb_spec c Json.quote) as [->|N4].
  { rewrite !replace_char_append. reflexivity. }
  cbn [replace_char]. destruct (Ascii.eqb_spec c apostrophe) as [->|N5].
  { reflexivity. }
  reflexivity.
Qed.

Lemma escapeHtml_escape_each s : escapeHtml (Some s) = escape_each s.
Proof.
  induction s as [|c s IH]; [reflexivity|].
  rewrite escapeHtml_cons, IH. reflexivity.
Qed.

Lemma escape_char_cases c :
  (html_special c = true /\
   (escape_char c = "&amp;" \/ escape_char c = "&lt;" \/ escape_char c = "&gt;" \/
    escape_char c = "&quot;" \/ escape_char c = "&#039;")) \/
  (html_special c = false /\ escape_char c = String c "").
Proof.
  unfold html_special, escape_char.
  destruct (Ascii.eqb c "&"); [left; auto|].
  destruct (Ascii.eqb c "<"); [left; auto|].
  destruct (Ascii.eqb c ">"); [left; auto|].
  destruct (Ascii.eqb c Json.quote); [left; auto 6|].
  destruct (Ascii.eqb c apostrophe); [left; auto 6|].
  right. auto.
Qed.

Lemma escape_char_inert c : Str.all html_inert (escape_char c) = true.
Proof.
  destruct (escape_char_cases c) as [[_ [->|[->|[->|[->| ->]]]]] | [Hc ->]];
    try reflexivity.
  cbn [Str.all]. unfold html_special in Hc. unfold html_inert.
  destruct (Ascii.eqb c "&"); [discriminate|]. cbn [orb] in Hc. rewrite Hc. reflexivity.
Qed.

Lemma escape_each_inj s1 s2 : escape_each s1 = escape_each s2 -> s1 = s2.
Proof.
  revert s2. induction s1 as [|c1 s1 IH]; intros [|c2 s2]; cbn [escape_each].
  - reflexivity.
  - destruct (escape_char_cases c2) as [[_ [->|[->|[->|[->| ->]]]]] | [_ ->]];
      discriminate.
  - destruct (escape_char_cases c1) as [[_ [->|[->|[->|[->| ->]]]]] | [_ ->]];
      discriminate.
  - intros H.
    assert (c1 = c2 /\ escape_each s1 = escape_each s2) as [-> H'].
    { revert H. unfold escape_char.
      destruct (Ascii.eqb_spec c1 "&") as [->|A1];
        [|destruct (Ascii.eqb_spec c1 "<") as [->|A2];
          [|destruct (Ascii.eqb_spec c1 ">") as [->|A3];
            [|destruct (Ascii.eqb_spec c1 Json.quote) as [->|A4];
              [|destruct (Ascii.eqb_spec c1 apostrophe) as [->|A5]]]]];
      (destruct (Ascii.eqb_spec c2 "&") as [->|B1];
        [|destruct (Ascii.eqb_spec c2 "<") as [->|B2];
          [|destruct (Ascii.eqb_spec c2 ">") as [->|B3];
            [|destruct (Ascii.eqb_spec c2 Json.quote) as [->|B4];
              [|destruct (Ascii.eqb_spec c2 apostrophe) as [->|B5]]]]]);
      rewrite ?append_cons, ?append_nil_l; intros E;
      try discriminate E; injection E; intros; subst;
      try contradiction; auto. }
    f_equal. apply IH. exact H'.
Qed.

(** Extra X21.  [escapeHtml] replaces each of the five special characters
    by its entity and nothing else, as if in one pass: an ampersand that an
    earlier replacement wrote is not escaped again.  Its result contains no
    [<], [>], double quote or apostrophe, and it determines the text it was
    made from. *)
Theorem escapeHtml_one_pass_inert_injective :
  (forall s, escapeHtml (Some s) = escape_each s) /\
  (forall unsafe, Str.all html_inert (escapeHtml unsafe) = true) /\
  (forall s1 s2, escapeHtml (Some s1) = escapeHtml (Some s2) -> s1 = s2).
Proof.
  split; [exact escapeHtml_escape_each|]. split.
  - intros [s|]; [|reflexivity]. rewrite escapeHtml_escape_each.
    induction s as [|c s IH]; [reflexivity|].
    cbn [escape_each]. rewrite all_append, escape_char_inert, IH. reflexivity.
  - intros s1 s2. rewrite !escapeHtml_escape_each. apply escape_each_inj.
Qed.

Lemma escapeHtml_one_pass_inert_injective_witness :
  "<b>&amp;</b>" = "<b>&amp;</b>".
Proof.
  apply (proj2 (proj2 escapeHtml_one_pass_inert_injective) "<b>&amp;</b>" "<b>&amp;</b>").
  reflexivity.
Defined.

Lemma occurrences_append c (a b : string) :
  occurrences c (a +:+ b) = (occurrences c a + occurrences c b)%nat.
Proof.
  induction a as [|x a IH]; [reflexivity|].
  rewrite append_cons. cbn [occurrences]. rewrite IH. lia.
Qed.

Lemma replace_newline_escape_char c :
  replace_char newline "<br>" (escape_char c)
  = if Ascii.eqb c newline then "<br>" else escape_char c.
Proof.
  destruct (escape_char_cases c) as [[Hs [E|[E|[E|[E|E]]]]] | [Hs E]].
  1-5: rewrite E; destruct (Ascii.eqb_spec c newline) as [->|_]; [discriminate Hs|];
       reflexivity.
  rewrite E. cbn [replace_char]. destruct (Ascii.eqb c newline); reflexivity.
Qed.

Lemma textToHtml_escape_lines s : textToHtml (Some s) = escape_lines s.
Proof.
  unfold textToHtml. cbn [some_nonempty].
  destruct s as [|c0 s0]; [reflexivity|]. cbn [Str.is_empty negb].
  rewrite escapeHtml_escape_each. generalize (String c0 s0). clear. intros s.
  induction s as [|c s IH]; [reflexivity|].
  cbn [escape_each escape_lines].
  rewrite replace_char_append, replace_newline_escape_char, IH. reflexivity.
Qed.

Lemma escape_lines_counts s :
  occurrences "<" (escape_lines s) = occurrences newline s /\
  occurrences ">" (escape_lines s) = occurrences newline s /\
  occurrences newline (escape_lines s) = 0%nat /\
  occurrences Json.quote (escape_lines s) = 0%nat /\
  occurrences apostrophe (escape_lines s) = 0%nat.
Proof.
  induction s as [|c s (I1 & I2 & I3 & I4 & I5)]; [repeat split|].
  cbn [escape_lines occurrences]. rewrite !occurrences_append, I1, I2, I3, I4, I5.
  destruct (Ascii.eqb_spec c newline) as [->|Hn]; [repeat split|].
  destruct (escape_char_cases c) as [[_ [->|[->|[->|[->| ->]]]]] | [Hs ->]];
    try (repeat split; reflexivity).
  cbn [occurrences]. unfold html_special in Hs.
  rewrite !orb_false_iff in Hs. destruct Hs as ((((_ & H1) & H2) & H3) & H4).
  rewrite H1, H2, H3, H4. apply Ascii.eqb_neq in Hn. rewrite Hn. repeat split.
Qed.

(** Extra X22.  [textToHtml] escapes first and breaks lines after: the
    result is the text with every line feed replaced by a break and every
    special character by its entity.  Hence the only tags of the result
    are the breaks, one for each line feed of the text, and the result has
    no line feed, double quote or apostrophe. *)
Theorem textToHtml_only_breaks (s : string) :
  textToHtml (Some s) = escape_lines s /\
  occurrences "<" (textToHtml (Some s)) = occurrences newline s /\
  occurrences ">" (textToHtml (Some s)) = occurrences newline s /\
  occurrences newline (textToHtml (Some s)) = 0%nat /\
  occurrences Json.quote (textToHtml (Some s)) = 0%nat /\
  occurrences apostrophe (textToHtml (Some s)) = 0%nat.
Proof.
  rewrite textToHtml_escape_lines. split; [reflexivity|]. apply escape_lines_counts.
Qed.

Lemma prefix_empty p : p <> "" -> String.prefix p "" = false.
Proof. destruct p; [contradiction | reflexivity]. Qed.

Lemma dangerousProtocols_nonempty p : p ∈ dangerousProtocols -> p <> "".
Proof.
  unfold dangerousProtocols. rewrite !elem_of_cons, elem_of_nil.
  intros [->|[->|[->|[->|[]]]]]; discriminate.
Qed.

Lemma sanitizeUrl_cases url :
  sanitizeUrl url = "" \/
  exists text,
    sanitizeUrl url = Str.trim text /\
    existsb (startsWith (Str.toLowerCase (Str.trim text))) dangerousProtocols = false.
Proof.
  unfold sanitizeUrl. destruct url as [text|]; [|auto].
  destruct (Str.is_empty text); [auto|].
  destruct (existsb _ dangerousProtocols) eqn:Hex; [auto|].
  right. exists text. auto.
Qed.

(** Extra X23.  What [sanitizeUrl] returns never begins, in any letter
    case, with one of the four dangerous protocols; it is trimmed, and
    sanitizing it again changes nothing. *)
Theorem sanitizeUrl_blocks_protocols (url : option string) :
  (forall protocol,
     protocol ∈ dangerousProtocols ->
     startsWith (Str.toLowerCase (sanitizeUrl url)) protocol = false) /\
  is_trimmed (sanitizeUrl url) /\
  sanitizeUrl (Some (sanitizeUrl url)) = sanitizeUrl url.
Proof.
  destruct (sanitizeUrl_cases url) as [-> | (text & -> & Hex)].
  - split; [|split].
    + intros p Hp. apply prefix_empty, dangerousProtocols_nonempty, Hp.
    + split; discriminate.
    + reflexivity.
  - split; [|split].
    + intros p Hp. destruct (startsWith _ p) eqn:E; [|reflexivity].
      assert (existsb (startsWith (Str.toLowerCase (Str.trim text))) dangerousProtocols
              = true) as Hc; [|congruence].
      apply existsb_exists. exists p. split; [|exact E].
      apply list_elem_of_In. exact Hp.
    + apply trim_is_trimmed.
    + unfold sanitizeUrl. rewrite trim_idempotent, Hex.
      destruct (Str.is_empty (Str.trim text)) eqn:Ee; [|reflexivity].
      destruct (Str.trim text); [reflexivity | discriminate].
Qed.

Lemma sanitizeUrl_blocks_protocols_witness :
  startsWith (Str.toLowerCase (sanitizeUrl (Some "  JavaScript:alert(1)"))) "javascript:"
  = false.
Proof.
  apply (proj1 (sanitizeUrl_blocks_protocols (Some "  JavaScript:alert(1)")) "javascript:").
  unfold dangerousProtocols. apply elem_of_cons. left. reflexivity.
Defined.

(** *** Flags *)

Lemma lower_char_idempotent c : Str.lower_char (Str.lower_char c) = Str.lower_char c.
Proof. destruct c as [[] [] [] [] [] [] [] []]; reflexivity. Qed.

Lemma lower_char_space c : Str.is_space (Str.lower_char c) = Str.is_space c.
Proof. destruct c as [[] [] [] [] [] [] [] []]; reflexivity. Qed.

Lemma toLowerCase_idempotent s :
  Str.toLowerCase (Str.toLowerCase s) = Str.toLowerCase s.
Proof.
  induction s as [|c s IH]; [reflexivity|].
  cbn [Str.toLowerCase]. rewrite lower_char_idempotent, IH. reflexivity.
Qed.

Lemma toLowerCase_empty s : Str.is_empty (Str.toLowerCase s) = Str.is_empty s.
Proof. destruct s; reflexivity. Qed.

Lemma toLowerCase_trim s : Str.trim (Str.toLowerCase s) = Str.toLowerCase (Str.trim s).
Proof.
  unfold Str.trim.
  assert (forall t, Str.trimStart (Str.toLowerCase t) = Str.toLowerCase (Str.trimStart t))
    as ->.
  { induction t as [|c t IH]; [reflexivity|].
    cbn [Str.toLowerCase Str.trimStart]. rewrite lower_char_space.
    destruct (Str.is_space c); [exact IH | reflexivity]. }
  generalize (Str.trimStart s). intros t.
  induction t as [|c t IH]; [reflexivity|].
  cbn [Str.toLowerCase Str.trimEnd]. rewrite lower_char_space, IH, toLowerCase_empty.
  destruct (Str.is_space c && _); reflexivity.
Qed.

(** Extra X24.  [normalizeBoolean] reads a text without regard to letter
    case and surrounding white space; it answers [true] and [false] only
    for a boolean or for one of its ten words, and it never reads a number,
    so 1 and 0 are no flags. *)
Theorem normalizeBoolean_words :
  (forall s, normalizeBoolean (VStr s)
             = normalizeBoolean (VStr (Str.toLowerCase (Str.trim s)))) /\
  (forall v b,
     normalizeBoolean v = Some b ->
     v = VBool b \/
     exists s, v = VStr s /\
       Str.toLowerCase (Str.trim s)
         ∈ (if b then ["true"; "yes"; "y"; "paid"; "completed"]
            else ["false"; "no"; "n"; "unpaid"; "not paid"])) /\
  (forall q, normalizeBoolean (VNum q) = None).
Proof.
  split; [|split].
  - intros s. cbn [normalizeBoolean].
    rewrite toLowerCase_trim, toLowerCase_idempotent, <- toLowerCase_trim, trim_idempotent.
    rewrite toLowerCase_trim. reflexivity.
  - intros v b. destruct v as [| |b'| |s| |]; try discriminate; cbn [normalizeBoolean].
    + intros [= ->]. left. reflexivity.
    + destruct (Str.is_empty _); [discriminate|].
      unfold Str.includes.
      destruct (bool_decide (_ ∈ ["true"; "yes"; "y"; "paid"; "completed"])) eqn:Et.
      * intros [= <-]. right. exists s. split; [reflexivity|].
        apply bool_decide_eq_true in Et. exact Et.
      * destruct (bool_decide (_ ∈ ["false"; "no"; "n"; "unpaid"; "not paid"])) eqn:Ef;
          [|discriminate].
        intros [= <-]. right. exists s. split; [reflexivity|].
        apply bool_decide_eq_true in Ef. exact Ef.
  - reflexivity.
Qed.

Lemma normalizeBoolean_words_witness :
  VStr " PAID " = VBool true \/
  exists s, VStr " PAID " = VStr s /\
            Str.toLowerCase (Str.trim s) ∈ ["true"; "yes"; "y"; "paid"; "completed"].
Proof.
  apply (proj1 (proj2 normalizeBoolean_words) (VStr " PAID ") true).
  vm_compute. reflexivity.
Defined.

(** *** Attribute values *)

Lemma remove_matches_length match_len s :
  forall skip, (String.length (remove_matches match_len skip s) <= String.length s)%nat.
Proof.
  induction s as [|c s IH]; intros skip; cbn [remove_matches String.length]; [lia|].
  destruct skip as [|skip]; [|specialize (IH skip); lia].
  destruct (match_len (String c s)) as [[|n]|].
  - specialize (IH 0%nat). cbn [String.length]. lia.
  - specialize (IH n). lia.
  - specialize (IH 0%nat). cbn [String.length]. lia.
Qed.

Lemma remove_matches_cons_none match_len c s :
  match_len (String c s) = None ->
  remove_matches match_len 0 (String c s) = String c (remove_matches match_len 0 s).
Proof. intros H. cbn [remove_matches]. rewrite H. reflexivity. Qed.

Lemma handler_len_not_o c s :
  Ascii.eqb (Str.lower_char c) "o" = false -> handler_len (String c s) = None.
Proof. intros H. unfold handler_len. destruct s; [reflexivity|]. rewrite H. reflexivity. Qed.

Example examples_sanitizeAttribute :
  sanitizeAttribute (Some "x onClick = alert(1)") = "x  alert(1)" /\
  sanitizeAttribute (Some "JavaScript:alert(1)") = "alert(1)" /\
  sanitizeAttribute (Some "once upon a time") = "once upon a time".
Proof. vm_compute. auto. Qed.

(** Extra X25.  [sanitizeAttribute] only deletes, and it deletes once: its
    result is never longer than the text, but what a deletion joins
    together is not looked at again, so a text can be built whose result
    begins with the protocol that was to be removed. *)
Theorem sanitizeAttribute_deletes_once (t : string) :
  (String.length (sanitizeAttribute (Some t)) <= String.length t)%nat /\
  sanitizeAttribute (Some ("jajavascript:vascript:" +:+ t))
  = "javascript:" +:+ sanitizeAttribute (Some t).
Proof.
  split.
  - unfold sanitizeAttribute.
    repeat (etransitivity; [apply remove_matches_length|]). reflexivity.
  - unfold sanitizeAttribute.
    assert (remove_matches handler_len 0 ("jajavascript:vascript:" +:+ t)
            = "jajavascript:vascript:" +:+ remove_matches handler_len 0 t) as ->.
    { rewrite !append_cons, !append_nil_l.
      rewrite !remove_matches_cons_none by (apply handler_len_not_o; reflexivity).
      reflexivity. }
    generalize (remove_matches handler_len 0 t). intros t1.
    reflexivity.
Qed.
